(** * SMZZL container: pixel packing, header codec and crypto pipeline

    A shallow embedding of [src/config.js], [src/util.js], [src/header.js],
    [src/error.js] and [src/crypto.js].

    Conventions of the embedding.
    - A [Uint8ClampedArray] is a [list byte]; reading past its end yields
      [None] (JavaScript's [undefined]) and writing past its end is ignored,
      which is what stdpp's [!!] and [<[ _ := _ ]>] do.
    - JavaScript numbers that are known to be integers are [Z]; the two
      divisions of the code ([array.length / 4], [92 / rowDataLength]) are
      carried out in [Q], so that non-integral pixel counts are kept as
      the code keeps them.  (For buffer lengths below 2^50 the rounding of
      IEEE doubles changes neither the comparisons nor the truncations
      taken here.)
    - A number that may be [NaN] is an [option Z].
    - A thrown exception is the [Throw] outcome; the early
      [return { output: null, error }] of the public functions is a value.
    - The random source, the digest, the AEAD engine, the PNG codec and the
      image loader are the collaborators of the code: the random source is
      an explicit stream that is threaded through the calls, and a request
      for more than 65536 bytes throws as [getRandomValues] does; the others
      are the fields of the class [Platform], and what the code expects of
      them is the record [Contracts]. *)

From Stdlib Require Import ZArith QArith Qround Lia.
From Stdlib Require Import Strings.Byte Strings.String.
From stdpp Require Import base list strings.

Local Open Scope nat_scope.

(** ** config.js *)

Module Config.

Definition SMZZL_VERSION : list byte := [x03].
Definition SMZZL_IDENTIFIER : list byte := [x53; x4d; x5a; x5a; x4c].
Definition HEADERHEIGHT_INDEX : nat := 80.
Definition FOOTERHEIGHT_INDEX : nat := 84.

Definition HEADER_MINIMUM_LENGTH : nat := 92.
Definition IDENTIFIER_LENGTH : nat := 5.
Definition VERSION_LENGTH : nat := 1.
Definition FLAG_LENGTH : nat := 2.
Definition NUMBER_LENGTH : nat := 4.
Definition IV_LENGTH : nat := 16.
Definition TAG_LENGTH : nat := 16.
Definition KEY_LENGTH : nat := 32.

End Config.
Export Config.

(** ** Typed arrays and control flow *)

#[global] Instance byte_eq_decision : EqDecision byte := Byte.byte_eq_dec.

Inductive exn : Type :=
| TypeError
| RangeError
| ReferenceError
| OperationError
| QuotaExceededError.

(** The outcome of evaluating a JavaScript expression: a value or a thrown
    exception. *)
Inductive outcome (A : Type) : Type :=
| Ret (a : A)
| Throw (e : exn).
Arguments Ret {A} a.
Arguments Throw {A} e.

Definition bind {A B : Type} (m : outcome A) (k : A -> outcome B) : outcome B :=
  match m with
  | Ret a => k a
  | Throw e => Throw e
  end.

Notation "'let*' x ':=' m 'in' k" := (bind m (fun x => k))
  (at level 10, x pattern, m at level 100, k at level 200).

(** [new Uint8ClampedArray(n)] for a length that is not negative: the
    length is truncated to an integer (ToIndex) and the array is zeroed. *)
Definition newArray (n : Q) : list byte :=
  replicate (Z.to_nat (Qfloor n)) x00.

(** [result[i] = v] where [v] was read from another typed array: an
    [undefined] is converted to NaN and stored as 0; an index outside the
    array is ignored. *)
Definition store (result : list byte) (i : nat) (v : option byte) : list byte :=
  <[i := default x00 v]> result.

(** [target.set(src, offset)]: a [RangeError] when the source does not fit. *)
Definition set (target src : list byte) (offset : nat) : outcome (list byte) :=
  if decide (length target < offset + length src)
  then Throw RangeError
  else Ret (take offset target ++ src ++ drop (offset + length src) target).

(** [array.subarray(begin, end)] for indices that are not negative: both
    are clamped to the length. *)
Definition subarray (array : list byte) (begin end_ : nat) : list byte :=
  drop begin (take end_ array).

(** [for (let i = 0; i < bound; i++) body]: [i] runs over the naturals
    below [bound]. *)
Definition for_lt {A : Type} (bound : Q) (body : nat -> A -> A) (a : A) : A :=
  fold_left (fun acc i => body i acc) (seq 0 (Z.to_nat (Qceiling bound))) a.

(** ** util.js: pixel packing *)

Definition toRGB (array : list byte) : list byte :=
  let pixels : Q := (inject_Z (Z.of_nat (length array)) / 4)%Q in
  let result := newArray (pixels * 3)%Q in
  for_lt pixels (fun i result =>
    let result := store result (i * 3)     (array !! (i * 4)) in
    let result := store result (i * 3 + 1) (array !! (i * 4 + 1)) in
    store result (i * 3 + 2) (array !! (i * 4 + 2))) result.

Definition toRGBA (array : list byte) : list byte :=
  let pixels : Q := (inject_Z (Z.of_nat (length array)) / 3)%Q in
  let result := newArray (pixels * 4)%Q in
  for_lt pixels (fun i result =>
    let result := store result (i * 4)     (array !! (i * 3)) in
    let result := store result (i * 4 + 1) (array !! (i * 3 + 1)) in
    let result := store result (i * 4 + 2) (array !! (i * 3 + 2)) in
    store result (i * 4 + 3) (Some xff)) result.

(** What the specification says the two functions do: drop every fourth
    byte, and insert an opaque alpha after every three bytes. *)
Fixpoint dropEveryFourth (l : list byte) : list byte :=
  match l with
  | r :: g :: b :: _ :: rest => r :: g :: b :: dropEveryFourth rest
  | _ => []
  end.

Fixpoint insertAlpha (l : list byte) : list byte :=
  match l with
  | r :: g :: b :: rest => r :: g :: b :: xff :: insertAlpha rest
  | _ => []
  end.

(** Every alpha byte of an RGBA buffer is 255. *)
Definition opaque (rgba : list byte) : Prop :=
  forall i, (i < length rgba) -> i mod 4 = 3 -> rgba !! i = Some xff.

(** ** Numbers *)

Definition byteZ (b : byte) : Z := Z.of_N (Byte.to_N b).

(** Conversion of an integer stored into a [Uint8ClampedArray]. *)
Definition clamp (z : Z) : byte :=
  default x00 (Byte.of_N (Z.to_N (Z.max 0 (Z.min 255 z)))).

Definition ToInt32 (z : Z) : Z := ((z + 2 ^ 31) mod 2 ^ 32 - 2 ^ 31)%Z.

(** [a >> n], [a & b] and [a | b] on JavaScript numbers that are integers. *)
Definition js_shr (a n : Z) : Z := Z.shiftr (ToInt32 a) n.
Definition js_and (a b : Z) : Z := Z.land (ToInt32 a) (ToInt32 b).
Definition js_or (a b : Z) : Z := Z.lor (ToInt32 a) (ToInt32 b).

(** A number that may be NaN. *)
Definition jsnum : Type := option Z.

Definition js_mul (a b : jsnum) : jsnum :=
  match a, b with Some a, Some b => Some (a * b)%Z | _, _ => None end.
Definition js_add (a b : jsnum) : jsnum :=
  match a, b with Some a, Some b => Some (a + b)%Z | _, _ => None end.
Definition js_sub (a b : jsnum) : jsnum :=
  match a, b with Some a, Some b => Some (a - b)%Z | _, _ => None end.

(** [new Uint8ClampedArray(n)] for any number: NaN gives the empty array,
    a negative length a [RangeError]. *)
Definition newArrayOf (n : jsnum) : outcome (list byte) :=
  match n with
  | None => Ret []
  | Some n => if decide (n < 0)%Z then Throw RangeError
              else Ret (replicate (Z.to_nat n) x00)
  end.

(** A relative index of [subarray]: a negative index counts from the end. *)
Definition relIndex (len : nat) (k : Z) : nat :=
  if decide (k < 0)%Z then Z.to_nat (Z.max (Z.of_nat len + k) 0) else Z.to_nat k.

(** [array.subarray(begin, end)] for integers of either sign. *)
Definition subarrayZ (array : list byte) (begin end_ : Z) : list byte :=
  drop (relIndex (length array) begin) (take (relIndex (length array) end_) array).

(** [array.subarray(begin)] for any number: NaN is 0. *)
Definition subarrayFrom (array : list byte) (begin : jsnum) : list byte :=
  match begin with
  | None => array
  | Some b => drop (relIndex (length array) b) array
  end.

(** ** The random source

    The source is a stream of bytes; [draw g n] takes its next [n] bytes
    and leaves the rest. *)
Definition rng : Type := nat -> byte.

Definition draw (g : rng) (n : nat) : list byte * rng :=
  (map g (seq 0 n), fun i => g (n + i)).

(** [window.crypto.getRandomValues(new Uint8ClampedArray(n))] fills the
    array with the next [n] bytes of the source; for an array of more than
    65536 bytes it throws a [QuotaExceededError] instead. *)
Definition getRandomValues (g : rng) (n : nat) : outcome (list byte * rng) :=
  if decide (65536 < Z.of_nat n)%Z then Throw QuotaExceededError
  else Ret (draw g n).

(** ** header.js *)

Definition encodeUint (num : Z) : list byte :=
  [ clamp (js_and (js_shr num 24) 255);
    clamp (js_and (js_shr num 16) 255);
    clamp (js_and (js_shr num 8) 255);
    clamp (js_and num 255) ].

Definition decodeUint (array : list byte) : jsnum :=
  match array !! 0, array !! 1, array !! 2, array !! 3 with
  | Some a0, Some a1, Some a2, Some a3 =>
      Some (byteZ a0 * 0x01000000 + byteZ a1 * 0x00010000
            + byteZ a2 * 0x00000100 + byteZ a3)%Z
  | _, _, _, _ => None
  end.

(** The closure [setForward] of [encodeHeader]: its state is the block
    under construction and the write offset. *)
Definition setForward (st : list byte * nat) (data : list byte)
  : outcome (list byte * nat) :=
  let '(metaData, offset) := st in
  let* metaData := set metaData data offset in
  Ret (metaData, offset + length data).

Definition encodeHeader (w h : Z) (iv tag : list byte) (usePassword : bool)
    (keyBytes : list byte) (g : rng) : outcome (list byte * Z * rng) :=
  let metaDataLength := HEADER_MINIMUM_LENGTH in
  let st := (replicate metaDataLength x00, 0) in
  let* st := setForward st SMZZL_IDENTIFIER in
  let* st := setForward st SMZZL_VERSION in
  let flag := 0x0000%Z in
  let flag := if usePassword then js_or flag 0x8000 else flag in
  let flagArray := [clamp (js_shr flag 8); clamp (js_and flag 255)] in
  let* st := setForward st flagArray in
  let* st := setForward st (encodeUint w) in
  let* st := setForward st (encodeUint h) in
  let* st := setForward st iv in
  let* st := setForward st tag in
  let* (keyBytes, g) :=
    if usePassword then getRandomValues g KEY_LENGTH else Ret (keyBytes, g) in
  let* st := setForward st keyBytes in
  let* st := setForward st (replicate NUMBER_LENGTH x00) in
  let* st := setForward st (replicate NUMBER_LENGTH x00) in
  let areaDataLength := 0 in
  let areaData := replicate areaDataLength x00 in
  let* st := setForward st (encodeUint (Z.of_nat areaDataLength)) in
  let metaData := fst st in
  let rowDataLength := (3 * w)%Z in
  if decide (rowDataLength = 0)%Z
  then (* 92 / 0 is Infinity and Infinity * 0 is NaN: the camouflage block
          is empty and the header does not fit into it *)
       Throw RangeError
  else
  let headerHeight :=
    Qceiling (inject_Z (Z.of_nat (metaDataLength + areaDataLength))
              / inject_Z rowDataLength) in
  let* metaData := set metaData (encodeUint headerHeight) HEADERHEIGHT_INDEX in
  let headerDataLength := (headerHeight * rowDataLength)%Z in
  let* (headerData, g) := getRandomValues g (Z.to_nat headerDataLength) in
  let* headerData := set headerData metaData 0 in
  let* headerData := set headerData areaData metaDataLength in
  Ret (headerData, headerHeight, g).

Record header : Type := {
  signiture : list byte;
  version : byte;
  usePassword : bool;
  w : jsnum;
  h : jsnum;
  iv : list byte;
  tag : list byte;
  keyBytes : list byte;
  headerHeight : jsnum;
  footerHeight : jsnum;
  areaDataLength : jsnum
}.

(** The closure [readForward] of [decodeHeader]: [subarray] clamps to the
    end of the buffer and never throws. *)
Definition readForward (imageData : list byte) (offset length : nat)
  : list byte * nat :=
  (subarray imageData offset (offset + length), offset + length).

(** [null] is [None].  No read of the body throws, so the [catch] branch
    is never taken. *)
Definition decodeHeader (imageData : list byte) : option header :=
  let offset := 0 in
  let '(signiture, offset) := readForward imageData offset (length SMZZL_IDENTIFIER) in
  let '(version, offset) := readForward imageData offset (length SMZZL_VERSION) in
  match version !! 0 with
  | None => None
  | Some version0 =>
    if decide (Some version0 <> SMZZL_VERSION !! 0) then None else
    let '(flagArray, offset) := readForward imageData offset FLAG_LENGTH in
    let usePassword :=
      match flagArray !! 0 with
      | Some f => negb (js_and (byteZ f) 0x80 =? 0)%Z
      | None => false
      end in
    let '(w, offset) := readForward imageData offset NUMBER_LENGTH in
    let '(h, offset) := readForward imageData offset NUMBER_LENGTH in
    let '(iv, offset) := readForward imageData offset IV_LENGTH in
    let '(tag, offset) := readForward imageData offset TAG_LENGTH in
    let '(keyBytes, offset) := readForward imageData offset KEY_LENGTH in
    let '(headerHeight, offset) := readForward imageData offset NUMBER_LENGTH in
    let '(footerHeight, offset) := readForward imageData offset NUMBER_LENGTH in
    let '(areaDataLength, offset) := readForward imageData offset NUMBER_LENGTH in
    Some {| signiture := signiture;
            version := version0;
            usePassword := usePassword;
            w := decodeUint w;
            h := decodeUint h;
            iv := iv;
            tag := tag;
            keyBytes := keyBytes;
            headerHeight := decodeUint headerHeight;
            footerHeight := decodeUint footerHeight;
            areaDataLength := decodeUint areaDataLength |}
  end.

Definition verifyIdentifier (data : list byte) : bool :=
  forallb (fun i => bool_decide (data !! i = SMZZL_IDENTIFIER !! i))
          (seq 0 (length SMZZL_IDENTIFIER)).

(** ** error.js *)

Inductive Error : Type :=
| ImageTypeError
| CryptoError (message : string)
| DecodingError (message : string)
| EncodingError (message : string).

(** ** The collaborators of crypto.js and util.js *)

Inductive COLOR_TYPES : Type :=
| GRAYSCALE
| TRUE_COLOR
| PALETTE
| GRAYSCALE_WITH_ALPHA
| TRUE_COLOR_WITH_ALPHA.

(** What the PNG decoder returns. *)
Record pngMeta : Type := {
  meta_colorType : COLOR_TYPES;
  meta_width : Z;
  meta_height : Z;
  meta_data : list byte
}.

(** What [getImageDataPNG] returns. *)
Record pngData : Type := {
  png_colorType : COLOR_TYPES;
  png_w : Z;
  png_h : Z;
  png_data : list byte
}.

(** The services the code calls.  A [None] stands for a thrown exception
    or a rejected promise.
    - [digest] is [TextEncoder] followed by [crypto.subtle.digest] with
      [HASH_ALGORITHM];
    - [importKey], [subtle_encrypt] and [subtle_decrypt] are
      [crypto.subtle] with [CRYPTO_ALGORITHM] and a tag of
      [TAG_LENGTH * 8] bits; the arguments are the key, the nonce and the
      data;
    - [png_encode] is [encode] of the PNG library with width, height and
      RGBA data (depth 8), wrapped into a [Blob]; [png_decode] is
      [arrayBuffer] followed by [decode];
    - [loadImage] loads a blob into an image element and reads its width,
      height and RGBA pixels through a canvas; [None] is the element's
      [onerror]. *)
Class Platform : Type := {
  Blob : Type;
  CryptoKey : Type;
  digest : string -> option (list byte);
  importKey : list byte -> option CryptoKey;
  subtle_encrypt : CryptoKey -> list byte -> list byte -> option (list byte);
  subtle_decrypt : CryptoKey -> list byte -> list byte -> option (list byte);
  png_encode : jsnum -> jsnum -> list byte -> option Blob;
  png_decode : Blob -> option pngMeta;
  loadImage : Blob -> option (Z * Z * list byte)
}.

(** The values a caller may pass as password. *)
Inductive jsval : Type :=
| Undefined
| Null
| Num (n : Z)
| Str (s : string).

(** The default parameter [pw = '']. *)
Definition defaultArg (pw : jsval) : jsval :=
  match pw with
  | Undefined => Str ""
  | _ => pw
  end.

(** [typeof pw === 'string' && pw !== '']: the password, when there is one. *)
Definition passwordOf (pw : jsval) : option string :=
  match pw with
  | Str s => if decide (s = ""%string) then None else Some s
  | _ => None
  end.

Section Pipeline.

Context `{Platform}.

(** The values a caller may pass as image: [null] or [undefined]; a [File]
    or [Blob]; an [HTMLImageElement], given by its width, its height and
    the RGBA pixels a canvas reads from it; any other value. *)
Inductive imageArg : Type :=
| ImgNullish
| ImgBlob (b : Blob)
| ImgElement (w h : Z) (imageData : list byte)
| ImgOther.

Record result : Type := {
  output : option Blob;
  error : option Error
}.

Definition mkError (e : Error) : result := {| output := None; error := Some e |}.
Definition mkOutput (b : Blob) : result := {| output := Some b; error := None |}.

(** ** util.js: loading *)

Definition getImageDataPNG (image : Blob) : option pngData :=
  match png_decode image with
  | None => None
  | Some meta =>
      let data := meta_data meta in
      match meta_colorType meta with
      | TRUE_COLOR_WITH_ALPHA =>
          Some {| png_colorType := meta_colorType meta;
                  png_w := meta_width meta;
                  png_h := meta_height meta;
                  png_data := toRGB data |}
      | TRUE_COLOR =>
          Some {| png_colorType := meta_colorType meta;
                  png_w := meta_width meta;
                  png_h := meta_height meta;
                  png_data := data |}
      | _ => None
      end
  end.

(** util.js imports neither [DecodingError] nor [ImageTypeError]: the two
    [new] expressions of the function throw a [ReferenceError]. *)
Definition getImageDataCanvas (image : imageArg) : outcome (Z * Z * list byte) :=
  match image with
  | ImgBlob b =>
      match loadImage b with
      | None => Throw ReferenceError
      | Some (w, h, imageData) => Ret (w, h, imageData)
      end
  | ImgElement w h imageData => Ret (w, h, imageData)
  | ImgNullish | ImgOther => Throw ReferenceError
  end.

(** ** crypto.js *)

Definition splitCiphertext (ciphertext : list byte) (tagLength : nat)
  : list byte * list byte :=
  let index := (Z.of_nat (length ciphertext) - Z.of_nat tagLength)%Z in
  let encrypted := subarrayZ ciphertext 0 index in
  let tag := subarrayZ ciphertext index (Z.of_nat (length ciphertext)) in
  (tag, encrypted).

Definition getHash (input : string) (length : nat) : option (list byte) :=
  match digest input with
  | Some hashBuffer => Some (subarray hashBuffer 0 length)
  | None => None
  end.

(** Step (3) of [encrypt]: the key, the nonce and the ciphertext, or the
    result that is returned early.  The nonce is drawn inside the [try]
    block, the random key outside of it. *)
Definition encryptData (imageDataRGB : list byte) (pw : jsval) (g : rng)
  : outcome (result + (bool * list byte * list byte * list byte * rng)) :=
  let cipher (usePassword : bool) (keyBytes : list byte) (g : rng) :=
    match importKey keyBytes with
    | None => inl (mkError (CryptoError "encrypt"))
    | Some key =>
        match getRandomValues g IV_LENGTH with
        | Throw _ => inl (mkError (CryptoError "encrypt"))
        | Ret (iv, g) =>
            match subtle_encrypt key iv imageDataRGB with
            | None => inl (mkError (CryptoError "encrypt"))
            | Some ciphertext => inr (usePassword, keyBytes, iv, ciphertext, g)
            end
        end
    end in
  match passwordOf pw with
  | Some s =>
      match getHash s KEY_LENGTH with
      | None => Ret (inl (mkError (CryptoError "hash")))
      | Some keyBytes => Ret (cipher true keyBytes g)
      end
  | None =>
      let* (keyBytes, g) := getRandomValues g KEY_LENGTH in
      Ret (cipher false keyBytes g)
  end.

Definition encrypt (image : imageArg) (pw : jsval) (g : rng) : outcome result :=
  let pw := defaultArg pw in
  let* (w, h, imageData) := getImageDataCanvas image in
  let imageDataRGB := toRGB imageData in
  let* step := encryptData imageDataRGB pw g in
  match step with
  | inl r => Ret r
  | inr (usePassword, keyBytes, iv, ciphertext, g) =>
      let '(tag, encrypted) := splitCiphertext ciphertext TAG_LENGTH in
      let* (headerData, headerHeight, g) :=
        encodeHeader w h iv tag usePassword keyBytes g in
      let outputDataLength := length headerData + length encrypted in
      let outputDataRGB := replicate outputDataLength x00 in
      let* outputDataRGB := set outputDataRGB headerData 0 in
      let* outputDataRGB := set outputDataRGB encrypted (length headerData) in
      let outputDataRGBA := toRGBA outputDataRGB in
      let outputHeight := (h + headerHeight)%Z in
      match png_encode (Some w) (Some outputHeight) outputDataRGBA with
      | None => Ret (mkError (EncodingError "png"))
      | Some blob => Ret (mkOutput blob)
      end
  end.

(** The body of the [try] block of step (4) of [decrypt]. *)
Definition decryptData (header : header) (imageDataRGB : list byte)
    (key : CryptoKey) : outcome (list byte) :=
  let headerLength := js_mul (js_mul (headerHeight header) (Some 3%Z)) (w header) in
  let dataLength :=
    js_add (js_sub (Some (Z.of_nat (length imageDataRGB))) headerLength)
           (Some (Z.of_nat TAG_LENGTH)) in
  let* data := newArrayOf dataLength in
  let encrypted := subarrayFrom imageDataRGB headerLength in
  let* data := set data encrypted 0 in
  let* data := set data (tag header) (length encrypted) in
  match subtle_decrypt key (iv header) data with
  | Some plaintext => Ret plaintext
  | None => Throw OperationError
  end.

(** [new ImageTypeError(image, ...)] reads [image.type], which throws a
    [TypeError] when [image] is [null] or [undefined]. *)
Definition decrypt (image : imageArg) (pw : jsval) : outcome result :=
  let pw := defaultArg pw in
  match image with
  | ImgNullish => Throw TypeError
  | ImgElement _ _ _ | ImgOther => Ret (mkError ImageTypeError)
  | ImgBlob image =>
    match getImageDataPNG image with
    | None => Ret (mkError (DecodingError "PNG decoding failed"))
    | Some pngData =>
      let imageDataRGB := png_data pngData in
      if negb (verifyIdentifier imageDataRGB)
      then Ret (mkError (DecodingError "signiture not found")) else
      match decodeHeader imageDataRGB with
      | None => Ret (mkError (DecodingError "invalid header"))
      | Some header =>
        let keyBytes :=
          if usePassword header then
            match passwordOf pw with
            | None => inl (mkError (CryptoError "no password"))
            | Some s =>
                match getHash s KEY_LENGTH with
                | None => inl (mkError (CryptoError "hash"))
                | Some keyBytes => inr keyBytes
                end
            end
          else inr (keyBytes header) in
        match keyBytes with
        | inl r => Ret r
        | inr keyBytes =>
          match importKey keyBytes with
          | None => Ret (mkError (CryptoError "import key"))
          | Some key =>
            match decryptData header imageDataRGB key with
            | Throw _ => Ret (mkError (CryptoError "decrypt"))
            | Ret plaintext =>
              let outputDataRGB := plaintext in
              let outputDataRGBA := toRGBA outputDataRGB in
              match png_encode (w header) (h header) outputDataRGBA with
              | None => Ret (mkError (EncodingError "png"))
              | Some blob => Ret (mkOutput blob)
              end
            end
          end
        end
      end
    end
  end.

End Pipeline.

Arguments imageArg : clear implicits.
Arguments result : clear implicits.

(** ** Instances of the collaborators

    Small executable collaborators, on which the theorems below are
    instantiated.  The cipher leaves the plaintext as it is and appends a
    tag that depends on the key and on the nonce; a PNG blob is the triple
    of width, height and RGBA data. *)

Definition sampleTag (key iv : list byte) : list byte :=
  take TAG_LENGTH (key ++ iv ++ replicate TAG_LENGTH x00).

Definition sampleDigest (s : string) : option (list byte) :=
  Some (take KEY_LENGTH (list_byte_of_string s ++ replicate KEY_LENGTH x00)).

Definition sampleImportKey (keyBytes : list byte) : option (list byte) :=
  if decide (length keyBytes = KEY_LENGTH) then Some keyBytes else None.

Definition sampleEncrypt (key iv plaintext : list byte) : option (list byte) :=
  Some (plaintext ++ sampleTag key iv).

Definition sampleDecrypt (key iv data : list byte) : option (list byte) :=
  let n := length data - TAG_LENGTH in
  if decide (data = take n data ++ sampleTag key iv)
  then Some (take n data) else None.

Definition sampleEncode (width height : jsnum) (data : list byte)
  : option (Z * Z * list byte) :=
  match width, height with
  | Some width, Some height => Some (width, height, data)
  | _, _ => None
  end.

Definition sampleDecode (b : Z * Z * list byte) : option pngMeta :=
  let '(width, height, data) := b in
  Some {| meta_colorType := TRUE_COLOR_WITH_ALPHA;
          meta_width := width;
          meta_height := height;
          meta_data := data |}.

Definition samplePlatform : Platform := {|
  Blob := Z * Z * list byte;
  CryptoKey := list byte;
  digest := sampleDigest;
  importKey := sampleImportKey;
  subtle_encrypt := sampleEncrypt;
  subtle_decrypt := sampleDecrypt;
  png_encode := sampleEncode;
  png_decode := sampleDecode;
  loadImage := fun _ => None
|}.

(** An engine that decrypts by looking the key, the nonce and the data up
    in the log of the encryptions that were made: nothing else is
    accepted. *)
Definition loggedDecrypt (log : list (list byte * list byte * list byte * list byte))
    (key iv data : list byte) : option (list byte) :=
  match List.find (fun e : list byte * list byte * list byte * list byte =>
                     let '(k, n, _, c) := e in
                     bool_decide (k = key /\ n = iv /\ c = data)) log with
  | Some (_, _, plaintext, _) => Some plaintext
  | None => None
  end.

Definition loggedPlatform
    (log : list (list byte * list byte * list byte * list byte)) : Platform := {|
  Blob := Z * Z * list byte;
  CryptoKey := list byte;
  digest := sampleDigest;
  importKey := sampleImportKey;
  subtle_encrypt := sampleEncrypt;
  subtle_decrypt := loggedDecrypt log;
  png_encode := sampleEncode;
  png_decode := sampleDecode;
  loadImage := fun _ => None
|}.

(** A random source and a 2x1 image for the examples. *)
Definition sampleRng : rng := fun i => clamp (Z.of_nat (7 + 13 * i) mod 256).

Definition sampleImage : list byte := [x0a; x14; x1e; xff; x28; x32; x3c; x80].

(** Flipping bit [j] of byte [i] of a buffer. *)
Definition flipBit (b : byte) (j : nat) : byte :=
  clamp (Z.lxor (byteZ b) (2 ^ Z.of_nat j)).

Definition flipBitAt (data : list byte) (i j : nat) : list byte :=
  alter (fun b => flipBit b j) i data.

(** The one encryption of the example: the key derived from ["pw"], the
    first 16 bytes of the random source as nonce, and the engine's output
    for the pixels of the image. *)
Definition sampleKeyBytes : list byte := default [] (sampleDigest "pw").
Definition sampleNonce : list byte := fst (draw sampleRng IV_LENGTH).
Definition samplePlain : list byte := toRGB sampleImage.
Definition sampleCiphertext : list byte :=
  default [] (sampleEncrypt sampleKeyBytes sampleNonce samplePlain).
Definition sampleLog : list (list byte * list byte * list byte * list byte) :=
  [(sampleKeyBytes, sampleNonce, samplePlain, sampleCiphertext)].

(** ** The layout of the container, as the specification gives it *)

Definition flagBytes (usePassword : bool) : list byte :=
  if usePassword then [x80; x00] else [x00; x00].

(** The 48 bytes before the key field, the key field, and the 12 bytes
    after it. *)
Definition headerPrefix (w h : Z) (iv tag : list byte) (usePassword : bool)
  : list byte :=
  SMZZL_IDENTIFIER ++ SMZZL_VERSION ++ flagBytes usePassword
  ++ encodeUint w ++ encodeUint h ++ iv ++ tag.

Definition headerBlock (w h : Z) (iv tag : list byte) (usePassword : bool)
    (keyBytes : list byte) (headerHeight : Z) : list byte :=
  headerPrefix w h iv tag usePassword ++ keyBytes
  ++ encodeUint headerHeight ++ replicate NUMBER_LENGTH x00 ++ encodeUint 0.

(** [ceil(92 / (3 * w))]. *)
Definition headerHeightOf (w : Z) : Z :=
  Qceiling (inject_Z (Z.of_nat HEADER_MINIMUM_LENGTH) / inject_Z (3 * w)).

(** An image element as the canvas delivers it: width and height are
    unsigned 32-bit attributes and there are four bytes per pixel. *)
Definition wfImage (w h : Z) (imageData : list byte) : Prop :=
  (1 <= w < 2 ^ 32)%Z /\ (1 <= h < 2 ^ 32)%Z /\
  Z.of_nat (length imageData) = (4 * w * h)%Z.

(** The header object [decodeHeader] builds from such a block. *)
Definition layoutHeader (w h : Z) (iv tag : list byte) (usePassword : bool)
    (keyBytes : list byte) (headerHeight : Z) : header :=
  Build_header SMZZL_IDENTIFIER x03 usePassword (Some w) (Some h) iv tag keyBytes
               (Some headerHeight) (Some 0%Z) (Some 0%Z).

(** The RGB buffer of the container [encrypt] builds from the nonce, the
    engine's output, the key and the random source as it is after the
    nonce was drawn. *)
Definition containerRGB (w h : Z) (iv ciphertext : list byte)
    (usePassword : bool) (keyBytes : list byte) (g : rng) : list byte :=
  let n := length ciphertext - TAG_LENGTH in
  let stored := if usePassword then draw g KEY_LENGTH else (keyBytes, g) in
  let hh := headerHeightOf w in
  let camouflage := fst (draw (snd stored) (Z.to_nat (hh * (3 * w)))) in
  headerBlock w h iv (drop n ciphertext) usePassword (fst stored) hh
  ++ drop HEADER_MINIMUM_LENGTH camouflage ++ take n ciphertext.

(** What the code expects of its collaborators: SHA-256 yields 32 bytes; a
    32-byte key is imported; the engine appends a tag of [TAG_LENGTH] bytes
    to a ciphertext as long as the plaintext, and decrypts what it
    encrypted under the same key and nonce; the PNG codec encodes RGBA data
    of the right size and decodes what it encoded. *)
Record Contracts (P : Platform) : Prop := {
  digest_ok : forall s, exists d, digest s = Some d /\ length d = 32;
  importKey_ok : forall keyBytes,
    length keyBytes = KEY_LENGTH -> exists key, importKey keyBytes = Some key;
  encrypt_ok : forall key iv plaintext,
    length iv = IV_LENGTH ->
    exists c, subtle_encrypt key iv plaintext = Some c
              /\ length c = length plaintext + TAG_LENGTH;
  decrypt_encrypt : forall key iv plaintext c,
    subtle_encrypt key iv plaintext = Some c ->
    subtle_decrypt key iv c = Some plaintext;
  png_ok : forall width height data,
    (1 <= width)%Z -> (1 <= height)%Z ->
    Z.of_nat (length data) = (4 * width * height)%Z ->
    exists b, png_encode (Some width) (Some height) data = Some b
              /\ png_decode b = Some {| meta_colorType := TRUE_COLOR_WITH_ALPHA;
                                        meta_width := width;
                                        meta_height := height;
                                        meta_data := data |}
}.

(** PNG decoding inverts encoding. *)
Definition pngInverse (P : Platform) : Prop :=
  forall width height data b,
    png_encode (Some width) (Some height) data = Some b ->
    png_decode b = Some {| meta_colorType := TRUE_COLOR_WITH_ALPHA;
                           meta_width := width;
                           meta_height := height;
                           meta_data := data |}.

(** The authenticity of the engine for one encryption: under the nonce of
    that encryption, decryption fails unless the key bytes and the data
    (ciphertext followed by tag) are those of the encryption. *)
Definition authentic (P : Platform) (keyBytes nonce ciphertext : list byte) : Prop :=
  forall keyBytes' key' data',
    importKey keyBytes' = Some key' ->
    subtle_decrypt key' nonce data' <> None ->
    keyBytes' = keyBytes /\ data' = ciphertext.

(** ** Tactics *)

(** A field fits into what is left of the block. *)
Ltac fits Hiv Htag Hkey usePassword :=
  rewrite ?length_app, ?Hiv, ?Htag, ?Hkey; destruct usePassword; vm_compute; lia.

(** One [setForward] of a chain, by the case lemma [cases]: it throws, or
    the chain goes on with a block of the same length. *)
Ltac forward cases m E L F :=
  match goal with
  | |- context [setForward (?meta, ?off) ?data] =>
      destruct (cases meta data off) as [[F E]|[F (m & E & L)]];
      rewrite E; cbn [bind]
  end.

(** The two shapes of a result. *)
Ltac returns_error :=
  eexists; split;
  [reflexivity
  | right; split; [reflexivity | eexists; split; [reflexivity | discriminate]]].

Ltac returns_output :=
  eexists; split; [reflexivity | left; eexists; split; reflexivity].

(** *** Lengths of the allocated buffers *)

Lemma for_lt_S {A : Type} (body : nat -> A -> A) (a : A) (n : nat) :
  fold_left (fun acc i => body i acc) (seq 0 (S n)) a
  = body n (fold_left (fun acc i => body i acc) (seq 0 n) a).
Proof.
  rewrite seq_S, fold_left_app. reflexivity.
Qed.

Lemma Qfloor_div_mul (a c : Z) (b : positive) :
  Qfloor (inject_Z a / inject_Z (Z.pos b) * inject_Z c) = (a * c / Z.pos b)%Z.
Proof.
  unfold Qfloor, Qdiv, Qmult, Qinv, inject_Z. cbn [Qnum Qden].
  rewrite Z.mul_1_r, Pos.mul_1_l, Pos.mul_1_r. reflexivity.
Qed.

Lemma Qceiling_div (a : Z) (b : positive) :
  Qceiling (inject_Z a / inject_Z (Z.pos b)) = (- (- a / Z.pos b))%Z.
Proof.
  unfold Qceiling, Qfloor, Qopp, Qdiv, Qmult, Qinv, inject_Z. cbn [Qnum Qden].
  rewrite Z.mul_1_r, Pos.mul_1_l. reflexivity.
Qed.

Lemma Qfloor_quarter (n : nat) :
  Z.to_nat (Qfloor (inject_Z (Z.of_nat n) / 4 * 3)) = n * 3 / 4.
Proof.
  change 4%Q with (inject_Z (Z.pos 4)). change 3%Q with (inject_Z 3).
  rewrite Qfloor_div_mul.
  change 4%Z with (Z.of_nat 4). change 3%Z with (Z.of_nat 3).
  rewrite <- Nat2Z.inj_mul, <- Nat2Z.inj_div, Nat2Z.id. reflexivity.
Qed.

Lemma Qfloor_third (n : nat) :
  Z.to_nat (Qfloor (inject_Z (Z.of_nat n) / 3 * 4)) = n * 4 / 3.
Proof.
  change 3%Q with (inject_Z (Z.pos 3)). change 4%Q with (inject_Z 4).
  rewrite Qfloor_div_mul.
  change 4%Z with (Z.of_nat 4). change 3%Z with (Z.of_nat 3).
  rewrite <- Nat2Z.inj_mul, <- Nat2Z.inj_div, Nat2Z.id. reflexivity.
Qed.

Lemma Qceiling_quarter (p : nat) :
  Z.to_nat (Qceiling (inject_Z (Z.of_nat (4 * p)) / 4)) = p.
Proof.
  change 4%Q with (inject_Z (Z.pos 4)).
  rewrite Qceiling_div.
  replace (- Z.of_nat (4 * p))%Z with ((- Z.of_nat p) * 4)%Z by lia.
  rewrite Z.div_mul by lia. lia.
Qed.

Lemma Qceiling_third (p : nat) :
  Z.to_nat (Qceiling (inject_Z (Z.of_nat (3 * p)) / 3)) = p.
Proof.
  change 3%Q with (inject_Z (Z.pos 3)).
  rewrite Qceiling_div.
  replace (- Z.of_nat (3 * p))%Z with ((- Z.of_nat p) * 3)%Z by lia.
  rewrite Z.div_mul by lia. lia.
Qed.

Lemma length_store (result : list byte) (i : nat) (v : option byte) :
  length (store result i v) = length result.
Proof. apply length_insert. Qed.

Lemma length_for_lt_store (bound : Q) (body : nat -> list byte -> list byte) (a : list byte) :
  (forall i r, length (body i r) = length r) ->
  length (for_lt bound body a) = length a.
Proof.
  intros Hbody. unfold for_lt.
  induction (Z.to_nat (Qceiling bound)) as [|n IH]; [reflexivity|].
  rewrite for_lt_S, Hbody. exact IH.
Qed.

Lemma length_toRGB (array : list byte) :
  length (toRGB array) = length array * 3 / 4.
Proof.
  unfold toRGB. rewrite length_for_lt_store.
  - unfold newArray. rewrite length_replicate. apply Qfloor_quarter.
  - intros i r. rewrite !length_store. reflexivity.
Qed.

Lemma length_toRGBA (array : list byte) :
  length (toRGBA array) = length array * 4 / 3.
Proof.
  unfold toRGBA. rewrite length_for_lt_store.
  - unfold newArray. rewrite length_replicate. apply Qfloor_third.
  - intros i r. rewrite !length_store. reflexivity.
Qed.

(** *** The loops on whole pixels *)

Lemma drop_lookup4 (array : list byte) (k : nat) :
  k + 4 <= length array ->
  exists r g b a,
    array !! k = Some r /\ array !! (k + 1) = Some g /\
    array !! (k + 2) = Some b /\ array !! (k + 3) = Some a /\
    drop k array = r :: g :: b :: a :: drop (k + 4) array.
Proof.
  intros Hk.
  destruct (lookup_lt_is_Some_2 array k) as [r Hr]; [lia|].
  destruct (lookup_lt_is_Some_2 array (k + 1)) as [g Hg]; [lia|].
  destruct (lookup_lt_is_Some_2 array (k + 2)) as [b Hb]; [lia|].
  destruct (lookup_lt_is_Some_2 array (k + 3)) as [a Ha]; [lia|].
  exists r, g, b, a. repeat split; try assumption.
  rewrite (drop_S _ _ _ Hr).
  replace (S k) with (k + 1) by lia. rewrite (drop_S _ _ _ Hg).
  replace (S (k + 1)) with (k + 2) by lia. rewrite (drop_S _ _ _ Hb).
  replace (S (k + 2)) with (k + 3) by lia. rewrite (drop_S _ _ _ Ha).
  replace (S (k + 3)) with (k + 4) by lia. reflexivity.
Qed.

Lemma drop_lookup3 (array : list byte) (k : nat) :
  k + 3 <= length array ->
  exists r g b,
    array !! k = Some r /\ array !! (k + 1) = Some g /\
    array !! (k + 2) = Some b /\
    drop k array = r :: g :: b :: drop (k + 3) array.
Proof.
  intros Hk.
  destruct (lookup_lt_is_Some_2 array k) as [r Hr]; [lia|].
  destruct (lookup_lt_is_Some_2 array (k + 1)) as [g Hg]; [lia|].
  destruct (lookup_lt_is_Some_2 array (k + 2)) as [b Hb]; [lia|].
  exists r, g, b. repeat split; try assumption.
  rewrite (drop_S _ _ _ Hr).
  replace (S k) with (k + 1) by lia. rewrite (drop_S _ _ _ Hg).
  replace (S (k + 1)) with (k + 2) by lia. rewrite (drop_S _ _ _ Hb).
  replace (S (k + 2)) with (k + 3) by lia. reflexivity.
Qed.

Lemma store_app (pre zs : list byte) (k j : nat) (v : byte) :
  k = length pre + j ->
  store (pre ++ zs) k (Some v) = pre ++ <[j := v]> zs.
Proof.
  intros ->. unfold store. simpl.
  rewrite insert_app_r_alt by lia.
  replace (length pre + j - length pre) with j by lia. reflexivity.
Qed.

Lemma toRGB_loop (array : list byte) (n : nat) :
  forall (i : nat) (pre zs : list byte),
    length pre = i * 3 -> length zs = n * 3 -> length array = (i + n) * 4 ->
    fold_left (fun acc i =>
      store (store (store acc (i * 3) (array !! (i * 4)))
                   (i * 3 + 1) (array !! (i * 4 + 1)))
            (i * 3 + 2) (array !! (i * 4 + 2)))
      (seq i n) (pre ++ zs)
    = pre ++ dropEveryFourth (drop (i * 4) array).
Proof.
  induction n as [|n IH]; intros i pre zs Hpre Hzs Harr.
  - destruct zs; [|discriminate]. simpl.
    rewrite drop_ge by lia. reflexivity.
  - destruct zs as [|z1 [|z2 [|z3 zs]]]; simpl in Hzs; try lia.
    destruct (drop_lookup4 array (i * 4)) as (r & g & b & a & Hr & Hg & Hb & _ & Hd); [lia|].
    rewrite Hd. cbn [seq fold_left dropEveryFourth].
    rewrite Hr, Hg, Hb.
    rewrite (store_app pre _ (i * 3) 0) by lia.
    rewrite (store_app pre _ (i * 3 + 1) 1) by lia.
    rewrite (store_app pre _ (i * 3 + 2) 2) by lia.
    cbn [list_insert insert].
    change (pre ++ r :: g :: b :: zs) with (pre ++ [r; g; b] ++ zs).
    rewrite app_assoc, IH.
    + rewrite <- app_assoc. replace (S i * 4) with (i * 4 + 4) by lia. reflexivity.
    + rewrite length_app, Hpre. simpl. lia.
    + lia.
    + lia.
Qed.

Lemma toRGBA_loop (array : list byte) (n : nat) :
  forall (i : nat) (pre zs : list byte),
    length pre = i * 4 -> length zs = n * 4 -> length array = (i + n) * 3 ->
    fold_left (fun acc i =>
      store (store (store (store acc (i * 4) (array !! (i * 3)))
                          (i * 4 + 1) (array !! (i * 3 + 1)))
                   (i * 4 + 2) (array !! (i * 3 + 2)))
            (i * 4 + 3) (Some xff))
      (seq i n) (pre ++ zs)
    = pre ++ insertAlpha (drop (i * 3) array).
Proof.
  induction n as [|n IH]; intros i pre zs Hpre Hzs Harr.
  - destruct zs; [|discriminate]. simpl.
    rewrite drop_ge by lia. reflexivity.
  - destruct zs as [|z1 [|z2 [|z3 [|z4 zs]]]]; simpl in Hzs; try lia.
    destruct (drop_lookup3 array (i * 3)) as (r & g & b & Hr & Hg & Hb & Hd); [lia|].
    rewrite Hd. cbn [seq fold_left insertAlpha].
    rewrite Hr, Hg, Hb.
    rewrite (store_app pre _ (i * 4) 0) by lia.
    rewrite (store_app pre _ (i * 4 + 1) 1) by lia.
    rewrite (store_app pre _ (i * 4 + 2) 2) by lia.
    rewrite (store_app pre _ (i * 4 + 3) 3) by lia.
    cbn [list_insert insert].
    change (pre ++ r :: g :: b :: xff :: zs) with (pre ++ [r; g; b; xff] ++ zs).
    rewrite app_assoc, IH.
    + rewrite <- app_assoc. replace (S i * 3) with (i * 3 + 3) by lia. reflexivity.
    + rewrite length_app, Hpre. simpl. lia.
    + lia.
    + lia.
Qed.

(** On a buffer of whole RGBA pixels [toRGB] drops every fourth byte. *)
Lemma toRGB_whole (array : list byte) (p : nat) :
  length array = 4 * p -> toRGB array = dropEveryFourth array.
Proof.
  intros Hlen. unfold toRGB, for_lt, newArray.
  rewrite Hlen, Qceiling_quarter, Qfloor_quarter.
  replace (4 * p * 3 / 4) with (p * 3) by (rewrite (Nat.mul_comm 4 p), <- Nat.mul_assoc, (Nat.mul_comm 4 3), Nat.mul_assoc, Nat.div_mul; lia).
  apply (toRGB_loop array p 0 [] (replicate (p * 3) x00)).
  - reflexivity.
  - apply length_replicate.
  - lia.
Qed.

(** On a buffer of whole RGB pixels [toRGBA] inserts an alpha of 255 after
    every three bytes. *)
Lemma toRGBA_whole (array : list byte) (p : nat) :
  length array = 3 * p -> toRGBA array = insertAlpha array.
Proof.
  intros Hlen. unfold toRGBA, for_lt, newArray.
  rewrite Hlen, Qceiling_third, Qfloor_third.
  replace (3 * p * 4 / 3) with (p * 4) by (rewrite (Nat.mul_comm 3 p), <- Nat.mul_assoc, (Nat.mul_comm 3 4), Nat.mul_assoc, Nat.div_mul; lia).
  apply (toRGBA_loop array p 0 [] (replicate (p * 4) x00)).
  - reflexivity.
  - apply length_replicate.
  - lia.
Qed.

(** *** Packing and unpacking compose *)

Lemma length_dropEveryFourth (p : nat) :
  forall x : list byte, length x = 4 * p -> length (dropEveryFourth x) = 3 * p.
Proof.
  induction p as [|p IH]; intros x Hx.
  - destruct x; [reflexivity|discriminate].
  - destruct x as [|r [|g [|b [|a rest]]]]; simpl in Hx; try lia.
    cbn [dropEveryFourth length]. rewrite (IH rest) by lia. lia.
Qed.

Lemma length_insertAlpha (p : nat) :
  forall x : list byte, length x = 3 * p -> length (insertAlpha x) = 4 * p.
Proof.
  induction p as [|p IH]; intros x Hx.
  - destruct x; [reflexivity|discriminate].
  - destruct x as [|r [|g [|b rest]]]; simpl in Hx; try lia.
    cbn [insertAlpha length]. rewrite (IH rest) by lia. lia.
Qed.

Lemma dropEveryFourth_insertAlpha (p : nat) :
  forall x : list byte, length x = 3 * p -> dropEveryFourth (insertAlpha x) = x.
Proof.
  induction p as [|p IH]; intros x Hx.
  - destruct x; [reflexivity|discriminate].
  - destruct x as [|r [|g [|b rest]]]; simpl in Hx; try lia.
    cbn [insertAlpha dropEveryFourth]. rewrite (IH rest) by lia. reflexivity.
Qed.

Lemma lookup_insertAlpha_dropEveryFourth (p : nat) :
  forall (x : list byte) (i : nat),
    length x = 4 * p -> i < length x ->
    insertAlpha (dropEveryFourth x) !! i
    = if decide (i mod 4 = 3) then Some xff else x !! i.
Proof.
  induction p as [|p IH]; intros x i Hx Hi.
  - destruct x; simpl in *; lia.
  - destruct x as [|r [|g [|b [|a rest]]]]; simpl in Hx; try lia.
    cbn [dropEveryFourth insertAlpha].
    destruct i as [|[|[|[|j]]]]; try reflexivity.
    change (S (S (S (S j)))) with (4 + j).
    replace ((4 + j) mod 4) with (j mod 4)
      by (rewrite <- (Nat.Div0.mod_add j 1 4); f_equal; lia).
    cbn [lookup list_lookup Nat.add].
    apply IH; simpl in Hi; lia.
Qed.

(** The composition used by the decryption side: unpacking what was packed. *)
Lemma toRGB_toRGBA (rgb : list byte) (p : nat) :
  length rgb = 3 * p -> toRGB (toRGBA rgb) = rgb.
Proof.
  intros Hlen.
  rewrite (toRGBA_whole rgb p Hlen).
  rewrite (toRGB_whole _ p (length_insertAlpha p rgb Hlen)).
  apply (dropEveryFourth_insertAlpha p rgb Hlen).
Qed.

(** Packing and unpacking a buffer of whole RGBA pixels keeps its length
    and its colour bytes, and makes every alpha byte 255. *)
Lemma toRGBA_toRGB_pixels (x : list byte) (p : nat) :
  length x = 4 * p ->
  length (toRGBA (toRGB x)) = length x /\
  (forall i, i < length x ->
     toRGBA (toRGB x) !! i = if decide (i mod 4 = 3) then Some xff else x !! i).
Proof.
  intros Hlen.
  assert (Hpack : toRGBA (toRGB x) = insertAlpha (dropEveryFourth x)).
  { rewrite (toRGB_whole x p Hlen).
    apply (toRGBA_whole _ p), (length_dropEveryFourth p x Hlen). }
  split.
  - rewrite Hpack, (length_insertAlpha p); [lia|].
    apply (length_dropEveryFourth p x Hlen).
  - intros i Hi. rewrite Hpack.
    apply (lookup_insertAlpha_dropEveryFourth p); assumption.
Qed.

(** C8. For an RGBA buffer of whole pixels, [toRGBA (toRGB x)] is [x] when
    every alpha byte of [x] is 255; for arbitrary alpha bytes it has the
    length of [x], keeps every R, G and B byte and holds 255 at every
    alpha position. *)
Theorem toRGBA_toRGB_inverse (x : list byte) (p : nat) :
  length x = 4 * p ->
  (opaque x -> toRGBA (toRGB x) = x) /\
  length (toRGBA (toRGB x)) = length x /\
  (forall i, i < length x ->
     toRGBA (toRGB x) !! i = if decide (i mod 4 = 3) then Some xff else x !! i).
Proof.
  intros Hlen.
  destruct (toRGBA_toRGB_pixels x p Hlen) as [Hsize Hget].
  split; [|split; assumption].
  intros Hopaque. apply list_eq. intros i.
  destruct (decide (i < length x)) as [Hi|Hi].
  - rewrite (Hget i Hi). destruct (decide (i mod 4 = 3)) as [Hm|Hm]; [|reflexivity].
    symmetry. apply Hopaque; assumption.
  - rewrite !lookup_ge_None_2; [reflexivity| lia | lia].
Qed.

Lemma toRGBA_toRGB_inverse_witness :
  toRGBA (toRGB [x0a; x14; x1e; xff; x28; x32; x3c; x07])
  = [x0a; x14; x1e; xff; x28; x32; x3c; xff].
Proof.
  apply list_eq. intros i.
  destruct (toRGBA_toRGB_inverse [x0a; x14; x1e; xff; x28; x32; x3c; x07] 2 eq_refl)
    as (_ & Hsize & Hget).
  destruct (decide (i < 8)) as [Hi|Hi].
  - rewrite (Hget i Hi).
    do 8 (destruct i as [|i]; [reflexivity|]). simpl in Hi. lia.
  - rewrite !lookup_ge_None_2; [reflexivity| simpl; lia | rewrite Hsize; simpl; lia].
Defined.

(** C9, on whole pixels.  For a buffer of whole RGBA pixels [toRGB] returns
    the buffer without every fourth byte, of length [length / 4 * 3]; for a
    buffer of whole RGB pixels [toRGBA] returns the buffer with 255
    inserted after every three bytes, of length [length / 3 * 4]. *)
Theorem pixel_packing_whole_pixels (array : list byte) (p : nat) :
  (length array = 4 * p ->
     toRGB array = dropEveryFourth array /\
     length (toRGB array) = length array / 4 * 3) /\
  (length array = 3 * p ->
     toRGBA array = insertAlpha array /\
     length (toRGBA array) = length array / 3 * 4).
Proof.
  split; intros Hlen.
  - split; [apply (toRGB_whole array p Hlen)|].
    rewrite (toRGB_whole array p Hlen), (length_dropEveryFourth p array Hlen), Hlen.
    rewrite (Nat.mul_comm 4 p), Nat.div_mul by lia. lia.
  - split; [apply (toRGBA_whole array p Hlen)|].
    rewrite (toRGBA_whole array p Hlen), (length_insertAlpha p array Hlen), Hlen.
    rewrite (Nat.mul_comm 3 p), Nat.div_mul by lia. lia.
Qed.

Lemma pixel_packing_whole_pixels_witness :
  (toRGB [x01; x02; x03; x04] = [x01; x02; x03] /\
   length (toRGB [x01; x02; x03; x04]) = 3) /\
  (toRGBA [x01; x02; x03] = [x01; x02; x03; xff] /\
   length (toRGBA [x01; x02; x03]) = 4).
Proof.
  split.
  - apply (proj1 (pixel_packing_whole_pixels [x01; x02; x03; x04] 1)). reflexivity.
  - apply (proj2 (pixel_packing_whole_pixels [x01; x02; x03] 1)). reflexivity.
Defined.

(** C9 as stated fails on a buffer that ends in a partial pixel: the
    allocated length is the truncation of [length * 3 / 4] (of
    [length * 4 / 3]), not a whole number of pixels, and the loop runs
    once more for the partial pixel. *)
Lemma pixel_packing_partial_pixel :
  toRGB [x01; x02; x03; x04; x05; x06] = [x01; x02; x03; x05] /\
  length (toRGB [x01; x02; x03; x04; x05; x06]) <> 6 / 4 * 3 /\
  toRGBA [x01; x02; x03; x04] = [x01; x02; x03; xff; x04] /\
  length (toRGBA [x01; x02; x03; x04]) <> 4 / 3 * 4.
Proof.
  repeat split; try reflexivity; vm_compute; lia.
Qed.

(** ** Numbers and bytes *)

Lemma byteZ_clamp (z : Z) : (0 <= z <= 255)%Z -> byteZ (clamp z) = z.
Proof.
  intros Hz. unfold clamp, byteZ.
  replace (Z.max 0 (Z.min 255 z)) with z by lia.
  destruct (Byte.of_N (Z.to_N z)) as [b|] eqn:Hb; simpl.
  - apply Byte.to_of_N in Hb. rewrite Hb. lia.
  - apply Byte.of_N_None_iff in Hb. lia.
Qed.

Lemma js_and_255 (a : Z) : js_and a 255 = (a mod 256)%Z.
Proof.
  unfold js_and. change (ToInt32 255) with (Z.ones 8).
  rewrite Z.land_ones by lia. change (2 ^ 8)%Z with 256%Z.
  unfold ToInt32. Z.div_mod_to_equations. lia.
Qed.

Lemma js_shr_div (a k : Z) : (0 <= k)%Z -> js_shr a k = (ToInt32 a / 2 ^ k)%Z.
Proof.
  intros Hk. unfold js_shr. apply Z.shiftr_div_pow2. exact Hk.
Qed.

Lemma ToInt32_uint32 (n : Z) :
  (0 <= n < 2 ^ 32)%Z -> ToInt32 n = n \/ ToInt32 n = (n - 2 ^ 32)%Z.
Proof.
  intros Hn. unfold ToInt32. Z.div_mod_to_equations. lia.
Qed.

Lemma decodeUint_encodeUint (n : Z) :
  (0 <= n < 2 ^ 32)%Z -> decodeUint (encodeUint n) = Some n.
Proof.
  intros Hn. unfold decodeUint, encodeUint. cbn [lookup list_lookup].
  rewrite !js_and_255, !js_shr_div by lia.
  rewrite !byteZ_clamp by (Z.div_mod_to_equations; lia).
  f_equal.
  destruct (ToInt32_uint32 n Hn) as [-> | ->];
    change (2 ^ 32)%Z with 4294967296%Z in *;
    change (2 ^ 24)%Z with 16777216%Z; change (2 ^ 16)%Z with 65536%Z;
    change (2 ^ 8)%Z with 256%Z;
    Z.div_mod_to_equations; lia.
Qed.

Lemma length_draw (g : rng) (n : nat) :
  length (fst (draw g n)) = n.
Proof.
  unfold draw. simpl. rewrite length_map, length_seq. reflexivity.
Qed.

(** A request within the quota is served from the source; a larger one
    throws. *)
Lemma getRandomValues_fits (g : rng) (n : nat) :
  (Z.of_nat n <= 65536)%Z -> getRandomValues g n = Ret (draw g n).
Proof.
  intros Hn. unfold getRandomValues.
  destruct (decide (65536 < Z.of_nat n)%Z); [lia | reflexivity].
Qed.

Lemma getRandomValues_quota (g : rng) (n : nat) :
  (65536 < Z.of_nat n)%Z -> getRandomValues g n = Throw QuotaExceededError.
Proof.
  intros Hn. unfold getRandomValues.
  destruct (decide (65536 < Z.of_nat n)%Z); [reflexivity | lia].
Qed.

(** ** header.js: the block that [encodeHeader] builds *)

Lemma set_app (pre old post new : list byte) :
  length old = length new ->
  set (pre ++ old ++ post) new (length pre) = Ret (pre ++ new ++ post).
Proof.
  intros Hlen. unfold set.
  destruct (decide _) as [Hlt|_].
  - rewrite !length_app in Hlt. lia.
  - rewrite take_app_length, drop_app_add.
    rewrite (drop_app_length' old post) by (symmetry; exact Hlen). reflexivity.
Qed.

Lemma setForward_zeros (pre data : list byte) (m : nat) :
  length data <= m ->
  setForward (pre ++ replicate m x00, length pre) data
  = Ret ((pre ++ data) ++ replicate (m - length data) x00, length (pre ++ data)).
Proof.
  intros Hm. unfold setForward.
  replace (replicate m x00)
    with (replicate (length data) x00 ++ replicate (m - length data) x00)
    by (rewrite <- replicate_add; f_equal; lia).
  rewrite set_app by (rewrite length_replicate; reflexivity).
  cbn [bind]. rewrite length_app, <- app_assoc. reflexivity.
Qed.

Lemma set_nil (target : list byte) (offset : nat) :
  offset <= length target -> set target [] offset = Ret target.
Proof.
  intros Hoff. unfold set. simpl.
  destruct (decide _) as [Hlt|_]; [lia|].
  rewrite Nat.add_0_r, take_drop. reflexivity.
Qed.

Lemma set_front (target src : list byte) :
  length src <= length target ->
  set target src 0 = Ret (src ++ drop (length src) target).
Proof.
  intros Hlen. unfold set. simpl.
  destruct (decide _) as [Hlt|_]; [lia|]. reflexivity.
Qed.

Lemma subarray_app (pre mid post : list byte) (a b : nat) :
  length pre = a -> a + length mid = b ->
  subarray (pre ++ mid ++ post) a b = mid.
Proof.
  intros <- <-. unfold subarray.
  rewrite app_assoc, <- length_app, take_app_length, drop_app_length. reflexivity.
Qed.

Lemma flagArray_flagBytes (usePassword : bool) :
  (let flag := 0%Z in
   let flag := if usePassword then js_or flag 0x8000 else flag in
   [clamp (js_shr flag 8); clamp (js_and flag 255)]) = flagBytes usePassword.
Proof. destruct usePassword; reflexivity. Qed.

Lemma headerHeightOf_eq (w : Z) :
  (1 <= w)%Z -> headerHeightOf w = (- (- 92 / (3 * w)))%Z.
Proof.
  intros Hw. unfold headerHeightOf.
  destruct (3 * w)%Z as [|p|p] eqn:Hp; try lia.
  rewrite Qceiling_div. reflexivity.
Qed.

(** [headerHeightOf w] is the least number of rows of [3 * w] bytes that
    hold 92 bytes. *)
Lemma headerHeightOf_ceil (w : Z) :
  (1 <= w)%Z ->
  ((headerHeightOf w - 1) * (3 * w) < 92 <= headerHeightOf w * (3 * w))%Z.
Proof.
  intros Hw. rewrite (headerHeightOf_eq w Hw).
  Z.div_mod_to_equations. nia.
Qed.

Lemma headerHeightOf_range (w : Z) :
  (1 <= w)%Z -> (1 <= headerHeightOf w <= 31)%Z.
Proof.
  intros Hw. pose proof (headerHeightOf_ceil w Hw). nia.
Qed.

(** One call of [getRandomValues] fills at most 65536 bytes.  The header
    rows of an image of at most 21845 pixels a row stay below that. *)
Lemma headerRows_quota (w : Z) :
  (1 <= w <= 21845)%Z -> (headerHeightOf w * (3 * w) <= 65535)%Z.
Proof.
  intros Hw. pose proof (headerHeightOf_ceil w ltac:(lia)) as Hceil.
  pose proof (headerHeightOf_range w ltac:(lia)) as Hrange.
  destruct (Z_lt_le_dec w 31) as [Hsmall|Hbig]; [nia|].
  assert (headerHeightOf w = 1)%Z by nia. nia.
Qed.

(** The header rows of a wider image are one row of more than 65536
    bytes. *)
Lemma headerRows_wide (w : Z) :
  (21846 <= w)%Z -> (65536 < headerHeightOf w * (3 * w))%Z.
Proof.
  intros Hw. pose proof (headerHeightOf_range w ltac:(lia)) as Hrange. nia.
Qed.

Lemma length_headerPrefix (w h : Z) (iv tag : list byte) (usePassword : bool) :
  length iv = IV_LENGTH -> length tag = TAG_LENGTH ->
  length (headerPrefix w h iv tag usePassword) = 48.
Proof.
  intros Hiv Htag. unfold headerPrefix.
  rewrite !length_app, Hiv, Htag. destruct usePassword; reflexivity.
Qed.

Lemma length_headerBlock (w h : Z) (iv tag : list byte) (usePassword : bool)
    (keyBytes : list byte) (hh : Z) :
  length iv = IV_LENGTH -> length tag = TAG_LENGTH ->
  length keyBytes = KEY_LENGTH ->
  length (headerBlock w h iv tag usePassword keyBytes hh) = HEADER_MINIMUM_LENGTH.
Proof.
  intros Hiv Htag Hkey. unfold headerBlock.
  rewrite !length_app, (length_headerPrefix w h iv tag usePassword Hiv Htag), Hkey.
  reflexivity.
Qed.

(** The run of [encodeHeader] on fields of the right sizes, up to the
    request for the camouflage. *)
Lemma encodeHeader_run (w h : Z) (iv tag : list byte) (usePassword : bool)
    (keyBytes : list byte) (g : rng) :
  (1 <= w)%Z -> length iv = IV_LENGTH -> length tag = TAG_LENGTH ->
  (usePassword = false -> length keyBytes = KEY_LENGTH) ->
  let stored := if usePassword then draw g KEY_LENGTH else (keyBytes, g) in
  let hh := headerHeightOf w in
  encodeHeader w h iv tag usePassword keyBytes g
  = let* (headerData, g') :=
      getRandomValues (snd stored) (Z.to_nat (hh * (3 * w))) in
    Ret (headerBlock w h iv tag usePassword (fst stored) hh
           ++ drop HEADER_MINIMUM_LENGTH headerData,
         hh, g').
Proof.
  intros Hw Hiv Htag Hkey stored hh.
  assert (Hstored : length (fst stored) = KEY_LENGTH).
  { subst stored. destruct usePassword;
      [apply length_draw | apply Hkey; reflexivity]. }
  unfold encodeHeader.
  rewrite flagArray_flagBytes.
  change (replicate HEADER_MINIMUM_LENGTH x00, 0)
    with ([] ++ replicate HEADER_MINIMUM_LENGTH x00, length (@nil byte)).
  do 7 (rewrite setForward_zeros by (fits Hiv Htag Hstored usePassword); cbn [bind]).
  replace (if usePassword then getRandomValues g KEY_LENGTH else Ret (keyBytes, g))
    with (Ret (fst stored, snd stored))
    by (subst stored; destruct usePassword; reflexivity).
  cbn [bind].
  do 4 (rewrite setForward_zeros by (fits Hiv Htag Hstored usePassword); cbn [bind]).
  cbn [fst].
  destruct (decide (3 * w = 0)%Z) as [Hz|_]; [lia|].
  change (Qceiling (inject_Z (Z.of_nat (HEADER_MINIMUM_LENGTH + 0)) / inject_Z (3 * w)))
    with (headerHeightOf w).
  fold hh.
  match goal with
  | |- context [set ?m (encodeUint hh) HEADERHEIGHT_INDEX] =>
      replace m with
        ((headerPrefix w h iv tag usePassword ++ fst stored)
           ++ replicate NUMBER_LENGTH x00
           ++ (replicate NUMBER_LENGTH x00 ++ encodeUint 0))
  end.
  2: { unfold headerPrefix. rewrite Hiv, Htag, Hstored.
       destruct usePassword; simpl; rewrite <- ?app_assoc; simpl;
         rewrite ?app_nil_r; reflexivity. }
  replace HEADERHEIGHT_INDEX
    with (length (headerPrefix w h iv tag usePassword ++ fst stored))
    by (rewrite length_app, (length_headerPrefix w h iv tag usePassword Hiv Htag), Hstored;
        reflexivity).
  rewrite set_app by reflexivity. cbn [bind].
  rewrite <- app_assoc.
  change (headerPrefix w h iv tag usePassword ++ fst stored
          ++ encodeUint hh ++ replicate NUMBER_LENGTH x00 ++ encodeUint 0)
    with (headerBlock w h iv tag usePassword (fst stored) hh).
  unfold getRandomValues.
  destruct (decide (65536 < Z.of_nat (Z.to_nat (hh * (3 * w))))%Z) as [Hq|Hq];
    [reflexivity|].
  cbn [bind].
  destruct (draw (snd stored) (Z.to_nat (hh * (3 * w)))) as [headerData g2] eqn:Hcamo.
  assert (Hlen : length headerData = Z.to_nat (hh * (3 * w))).
  { replace headerData with (fst (draw (snd stored) (Z.to_nat (hh * (3 * w)))))
      by (rewrite Hcamo; reflexivity).
    apply length_draw. }
  pose proof (headerHeightOf_ceil w Hw) as Hceil. fold hh in Hceil.
  pose proof (length_headerBlock w h iv tag usePassword (fst stored) hh Hiv Htag Hstored)
    as Hblock.
  rewrite set_front by (rewrite Hblock, Hlen; unfold HEADER_MINIMUM_LENGTH; lia).
  cbn [bind].
  rewrite set_nil by (rewrite length_app, Hblock; lia).
  cbn [bind]. rewrite Hblock. reflexivity.
Qed.

(** For an image of at most 21845 pixels a row the camouflage is within
    the quota, and [encodeHeader] returns. *)
Lemma encodeHeader_layout (w h : Z) (iv tag : list byte) (usePassword : bool)
    (keyBytes : list byte) (g : rng) :
  (1 <= w <= 21845)%Z -> length iv = IV_LENGTH -> length tag = TAG_LENGTH ->
  (usePassword = false -> length keyBytes = KEY_LENGTH) ->
  let stored := if usePassword then draw g KEY_LENGTH else (keyBytes, g) in
  let hh := headerHeightOf w in
  let camouflage := draw (snd stored) (Z.to_nat (hh * (3 * w))) in
  encodeHeader w h iv tag usePassword keyBytes g
  = Ret (headerBlock w h iv tag usePassword (fst stored) hh
           ++ drop HEADER_MINIMUM_LENGTH (fst camouflage),
         hh, snd camouflage).
Proof.
  intros Hw Hiv Htag Hkey stored hh camouflage.
  rewrite (encodeHeader_run w h iv tag usePassword keyBytes g
             ltac:(lia) Hiv Htag Hkey).
  cbv zeta. fold stored hh.
  pose proof (headerRows_quota w Hw) as Hquota. fold hh in Hquota.
  rewrite getRandomValues_fits by lia.
  cbn [bind]. fold camouflage. destruct camouflage. reflexivity.
Qed.

(** For a wider image the request for the camouflage exceeds the quota. *)
Lemma encodeHeader_wide (w h : Z) (iv tag : list byte) (usePassword : bool)
    (keyBytes : list byte) (g : rng) :
  (21846 <= w)%Z -> length iv = IV_LENGTH -> length tag = TAG_LENGTH ->
  (usePassword = false -> length keyBytes = KEY_LENGTH) ->
  encodeHeader w h iv tag usePassword keyBytes g = Throw QuotaExceededError.
Proof.
  intros Hw Hiv Htag Hkey.
  rewrite (encodeHeader_run w h iv tag usePassword keyBytes g
             ltac:(lia) Hiv Htag Hkey).
  cbv zeta.
  pose proof (headerRows_wide w Hw) as Hquota.
  rewrite getRandomValues_quota by lia.
  reflexivity.
Qed.

Lemma subarray_headerBlock_key (w h : Z) (iv tag : list byte) (usePassword : bool)
    (keyBytes : list byte) (hh : Z) (rest : list byte) :
  length iv = IV_LENGTH -> length tag = TAG_LENGTH ->
  length keyBytes = KEY_LENGTH ->
  subarray (headerBlock w h iv tag usePassword keyBytes hh ++ rest) 48 80 = keyBytes.
Proof.
  intros Hiv Htag Hkey. unfold headerBlock. rewrite <- !app_assoc.
  apply subarray_app.
  - apply length_headerPrefix; assumption.
  - rewrite Hkey. reflexivity.
Qed.

Lemma subarray_headerBlock_height (w h : Z) (iv tag : list byte) (usePassword : bool)
    (keyBytes : list byte) (hh : Z) (rest : list byte) :
  length iv = IV_LENGTH -> length tag = TAG_LENGTH ->
  length keyBytes = KEY_LENGTH ->
  subarray (headerBlock w h iv tag usePassword keyBytes hh ++ rest)
           HEADERHEIGHT_INDEX (HEADERHEIGHT_INDEX + NUMBER_LENGTH)
  = encodeUint hh.
Proof.
  intros Hiv Htag Hkey. unfold headerBlock.
  rewrite (app_assoc (headerPrefix w h iv tag usePassword)), <- !app_assoc.
  rewrite (app_assoc (headerPrefix w h iv tag usePassword)).
  apply subarray_app.
  - rewrite length_app, (length_headerPrefix w h iv tag usePassword Hiv Htag), Hkey.
    reflexivity.
  - reflexivity.
Qed.

(** C3. With [usePassword = true] the outcome of [encodeHeader] does not
    depend on the [keyBytes] argument: two calls that differ only in it
    have the same outcome.  For a width from 1 to 21845 (the camouflage is
    then within the 65536 bytes of one call of [getRandomValues]) a block
    is returned, whose key field holds the next 32 bytes of the random
    source; with [usePassword = false] the key field holds the [keyBytes]
    argument. *)
Theorem encodeHeader_decoy_key (w h : Z) (iv tag : list byte) (g : rng)
    (keyBytes keyBytes' : list byte) :
  encodeHeader w h iv tag true keyBytes g
  = encodeHeader w h iv tag true keyBytes' g
  /\
  ((1 <= w <= 21845)%Z -> length iv = IV_LENGTH -> length tag = TAG_LENGTH ->
   (exists headerData headerHeight g',
      encodeHeader w h iv tag true keyBytes g = Ret (headerData, headerHeight, g')
      /\ subarray headerData 48 80 = fst (draw g KEY_LENGTH))
   /\
   (length keyBytes = KEY_LENGTH ->
    exists headerData headerHeight g',
      encodeHeader w h iv tag false keyBytes g = Ret (headerData, headerHeight, g')
      /\ subarray headerData 48 80 = keyBytes)).
Proof.
  split; [reflexivity|].
  intros Hw Hiv Htag. split.
  - eexists _, _, _. split.
    + apply (encodeHeader_layout w h iv tag true keyBytes g Hw Hiv Htag).
      discriminate.
    + cbn [fst snd]. apply subarray_headerBlock_key; try assumption.
      apply length_draw.
  - intros Hkey. eexists _, _, _. split.
    + apply (encodeHeader_layout w h iv tag false keyBytes g Hw Hiv Htag).
      intros _. exact Hkey.
    + cbn [fst snd]. apply subarray_headerBlock_key; assumption.
Qed.

Lemma encodeHeader_decoy_key_witness :
  (exists headerData headerHeight g',
     encodeHeader 10 1 (replicate 16 x01) (replicate 16 x02) true
                  (replicate 32 x03) sampleRng
     = Ret (headerData, headerHeight, g')
     /\ subarray headerData 48 80 = fst (draw sampleRng KEY_LENGTH))
  /\
  (exists headerData headerHeight g',
     encodeHeader 10 1 (replicate 16 x01) (replicate 16 x02) false
                  (replicate 32 x03) sampleRng
     = Ret (headerData, headerHeight, g')
     /\ subarray headerData 48 80 = replicate 32 x03).
Proof.
  destruct (proj2 (encodeHeader_decoy_key 10 1 (replicate 16 x01) (replicate 16 x02)
                     sampleRng (replicate 32 x03) (replicate 32 x03)))
    as [Hdecoy Hkey]; [lia | reflexivity | reflexivity |].
  split; [exact Hdecoy | apply Hkey; reflexivity].
Defined.

(** C4 fails on the code: for a width of 21846 or more and fields of the
    sizes of the header table, [encodeHeader] returns no block.  The
    header height is 1 and the camouflage of [headerHeight * 3 * w] bytes
    is requested in one call of [getRandomValues], which throws a
    [QuotaExceededError] for more than 65536 bytes. *)
Theorem encodeHeader_quota_exceeded (w h : Z) (iv tag : list byte)
    (usePassword : bool) (keyBytes : list byte) (g : rng) :
  (21846 <= w)%Z -> length iv = IV_LENGTH -> length tag = TAG_LENGTH ->
  length keyBytes = KEY_LENGTH ->
  headerHeightOf w = 1%Z
  /\ (65536 < headerHeightOf w * 3 * w)%Z
  /\ encodeHeader w h iv tag usePassword keyBytes g = Throw QuotaExceededError.
Proof.
  intros Hw Hiv Htag Hkey.
  pose proof (headerHeightOf_ceil w ltac:(lia)) as Hceil.
  pose proof (headerRows_wide w Hw) as Hwide.
  split; [nia|]. split; [lia|].
  apply encodeHeader_wide; try assumption. intros _. exact Hkey.
Qed.

Lemma encodeHeader_quota_exceeded_witness :
  encodeHeader 21846 1 (replicate 16 x01) (replicate 16 x02) true
               (replicate 32 x03) sampleRng
  = Throw QuotaExceededError.
Proof.
  apply (encodeHeader_quota_exceeded 21846 1 (replicate 16 x01) (replicate 16 x02) true
           (replicate 32 x03) sampleRng); (lia || reflexivity).
Defined.

(** X25. For a width from 1 to 21845 and fields of the sizes of the header
    table, [encodeHeader] returns [headerHeight = ceil(92 / (3 * w))],
    that is the number with
    [(headerHeight - 1) * 3 * w < 92 <= headerHeight * 3 * w]; the four
    bytes at offset 80 of the block encode that number, and the block has
    [headerHeight * 3 * w] bytes.  For the widths 1, 10, 100 and 4096 the
    height is 31, 4, 1 and 1. *)
Theorem encodeHeader_headerHeight (w h : Z) (iv tag : list byte)
    (usePassword : bool) (keyBytes : list byte) (g : rng) :
  (1 <= w <= 21845)%Z -> length iv = IV_LENGTH -> length tag = TAG_LENGTH ->
  length keyBytes = KEY_LENGTH ->
  exists headerData headerHeight g',
    encodeHeader w h iv tag usePassword keyBytes g
    = Ret (headerData, headerHeight, g')
    /\ ((headerHeight - 1) * (3 * w) < 92 <= headerHeight * (3 * w))%Z
    /\ subarray headerData HEADERHEIGHT_INDEX (HEADERHEIGHT_INDEX + NUMBER_LENGTH)
       = encodeUint headerHeight
    /\ decodeUint (subarray headerData HEADERHEIGHT_INDEX
                            (HEADERHEIGHT_INDEX + NUMBER_LENGTH))
       = Some headerHeight
    /\ Z.of_nat (length headerData) = (headerHeight * 3 * w)%Z
    /\ (w = 1%Z -> headerHeight = 31%Z)
    /\ (w = 10%Z -> headerHeight = 4%Z)
    /\ (w = 100%Z -> headerHeight = 1%Z)
    /\ (w = 4096%Z -> headerHeight = 1%Z).
Proof.
  intros Hw Hiv Htag Hkey.
  pose proof (encodeHeader_layout w h iv tag usePassword keyBytes g Hw Hiv Htag
                (fun _ => Hkey)) as Hrun.
  cbv zeta in Hrun.
  pose proof (headerHeightOf_ceil w ltac:(lia)) as Hceil.
  pose proof (headerHeightOf_range w ltac:(lia)) as Hrange.
  set (stored := if usePassword then draw g KEY_LENGTH else (keyBytes, g)) in *.
  assert (Hstored : length (fst stored) = KEY_LENGTH).
  { subst stored. destruct usePassword; [apply length_draw | exact Hkey]. }
  assert (Hslot :
    subarray (headerBlock w h iv tag usePassword (fst stored) (headerHeightOf w)
              ++ drop HEADER_MINIMUM_LENGTH
                   (fst (draw (snd stored)
                           (Z.to_nat (headerHeightOf w * (3 * w))))))
             HEADERHEIGHT_INDEX (HEADERHEIGHT_INDEX + NUMBER_LENGTH)
    = encodeUint (headerHeightOf w))
    by (apply subarray_headerBlock_height; assumption).
  eexists _, _, _. split; [exact Hrun|].
  split; [exact Hceil|].
  split; [exact Hslot|].
  split; [rewrite Hslot; apply decodeUint_encodeUint; lia|].
  split.
  - rewrite length_app, length_drop, length_draw.
    rewrite (length_headerBlock w h iv tag usePassword (fst stored) _ Hiv Htag Hstored).
    unfold HEADER_MINIMUM_LENGTH. lia.
  - repeat split; intros ->; reflexivity.
Qed.

Lemma encodeHeader_headerHeight_witness :
  exists headerData g',
    encodeHeader 10 1 (replicate 16 x01) (replicate 16 x02) true
                 (replicate 32 x03) sampleRng
    = Ret (headerData, 4%Z, g')
    /\ length headerData = 120.
Proof.
  destruct (encodeHeader_headerHeight 10 1 (replicate 16 x01) (replicate 16 x02) true
              (replicate 32 x03) sampleRng)
    as (headerData & headerHeight & g' & Hrun & _ & _ & _ & Hlen & _ & Hten & _);
    [lia | reflexivity | reflexivity | reflexivity |].
  rewrite (Hten eq_refl) in Hrun, Hlen.
  exists headerData, g'. split; [exact Hrun | lia].
Defined.

(** ** header.js: reading the block back *)

Lemma explode16 (l : list byte) :
  length l = 16 ->
  exists b0 b1 b2 b3 b4 b5 b6 b7 b8 b9 b10 b11 b12 b13 b14 b15,
    l = [b0; b1; b2; b3; b4; b5; b6; b7; b8; b9; b10; b11; b12; b13; b14; b15].
Proof.
  intros Hl.
  do 16 (destruct l as [|? l]; [discriminate|]).
  destruct l; [|discriminate]. repeat eexists.
Qed.

Lemma explode32 (l : list byte) :
  length l = 32 -> exists l1 l2, l = l1 ++ l2 /\ length l1 = 16 /\ length l2 = 16.
Proof.
  intros Hl. exists (take 16 l), (drop 16 l).
  rewrite take_drop, length_take, length_drop. repeat split; lia.
Qed.

(** Reading back a block that [encodeHeader] laid out. *)
Lemma decodeHeader_layout (w h : Z) (iv tag : list byte) (usePassword : bool)
    (keyBytes : list byte) (hh : Z) (rest : list byte) :
  (0 <= w < 2 ^ 32)%Z -> (0 <= h < 2 ^ 32)%Z -> (0 <= hh < 2 ^ 32)%Z ->
  length iv = IV_LENGTH -> length tag = TAG_LENGTH ->
  length keyBytes = KEY_LENGTH ->
  decodeHeader (headerBlock w h iv tag usePassword keyBytes hh ++ rest)
  = Some (layoutHeader w h iv tag usePassword keyBytes hh).
Proof.
  intros Hw Hh Hhh Hiv Htag Hkey.
  destruct (explode16 iv Hiv) as (i0&i1&i2&i3&i4&i5&i6&i7&i8&i9&i10&i11&i12&i13&i14&i15&->).
  destruct (explode16 tag Htag) as (t0&t1&t2&t3&t4&t5&t6&t7&t8&t9&t10&t11&t12&t13&t14&t15&->).
  destruct (explode32 keyBytes Hkey) as (k1 & k2 & -> & Hk1 & Hk2).
  destruct (explode16 k1 Hk1) as (a0&a1&a2&a3&a4&a5&a6&a7&a8&a9&a10&a11&a12&a13&a14&a15&->).
  destruct (explode16 k2 Hk2) as (c0&c1&c2&c3&c4&c5&c6&c7&c8&c9&c10&c11&c12&c13&c14&c15&->).
  pose proof (decodeUint_encodeUint w Hw) as Ew.
  pose proof (decodeUint_encodeUint h Hh) as Eh.
  pose proof (decodeUint_encodeUint hh Hhh) as Ehh.
  unfold encodeUint in Ew, Eh, Ehh.
  destruct usePassword;
    unfold layoutHeader;
    cbn -[clamp js_and js_shr decodeUint];
    rewrite Ew, Eh, Ehh; reflexivity.
Qed.

Lemma verifyIdentifier_take (data : list byte) :
  verifyIdentifier data = true <-> take 5 data = SMZZL_IDENTIFIER.
Proof.
  unfold verifyIdentifier, SMZZL_IDENTIFIER.
  destruct data as [|d0 [|d1 [|d2 [|d3 [|d4 rest]]]]];
    cbn [length seq forallb lookup list_lookup take];
    rewrite ?take_0, ?andb_true_iff, ?bool_decide_eq_true;
    split; intros Hid; try discriminate; try (intuition discriminate).
  - destruct Hid as (E0 & E1 & E2 & E3 & E4 & _).
    injection E0 as ->. injection E1 as ->. injection E2 as ->.
    injection E3 as ->. injection E4 as ->. reflexivity.
  - injection Hid as -> -> -> -> ->. repeat split.
Qed.

Lemma lookup_subarray_0 (data : list byte) (a n : nat) :
  subarray data a (a + S n) !! 0 = data !! a.
Proof.
  unfold subarray. rewrite lookup_drop, Nat.add_0_r.
  destruct (decide (a < length data)) as [Hlt|Hge].
  - apply lookup_take_lt. lia.
  - rewrite !lookup_ge_None_2; [reflexivity | lia |].
    rewrite length_take. lia.
Qed.

Lemma decodeHeader_version (data : list byte) :
  data !! 5 <> Some x03 -> decodeHeader data = None.
Proof.
  intros Hv. unfold decodeHeader, readForward. cbn [length SMZZL_IDENTIFIER SMZZL_VERSION Nat.add].
  change 6 with (5 + 1). rewrite lookup_subarray_0.
  destruct (data !! 5) as [v|]; [|reflexivity].
  destruct (decide (Some v <> SMZZL_VERSION !! 0)) as [_|Heq]; [reflexivity|].
  exfalso. apply Heq. exact Hv.
Qed.

(** ** crypto.js: what the gates of [decrypt] reject *)

(** C5. When the pixels of a decodable PNG do not start with the five
    bytes of the identifier, [verifyIdentifier] is false and [decrypt]
    returns a [DecodingError]; when the byte at offset 5 is not 0x03,
    whatever the other bytes are, [decodeHeader] returns [null] and
    [decrypt] returns a [DecodingError]. *)
Theorem header_magic_and_version_rejected (P : Platform) (image : Blob)
    (decoded : pngData) (pw : jsval) :
  getImageDataPNG image = Some decoded ->
  (take 5 (png_data decoded) <> SMZZL_IDENTIFIER ->
     verifyIdentifier (png_data decoded) = false
     /\ decrypt (ImgBlob image) pw
        = Ret (mkError (DecodingError "signiture not found")))
  /\
  (png_data decoded !! 5 <> Some x03 ->
     decodeHeader (png_data decoded) = None
     /\ exists message,
          decrypt (ImgBlob image) pw = Ret (mkError (DecodingError message))).
Proof.
  intros Hpng. split.
  - intros Hmagic.
    assert (Hid : verifyIdentifier (png_data decoded) = false).
    { destruct (verifyIdentifier (png_data decoded)) eqn:Hid; [|reflexivity].
      exfalso. apply Hmagic, verifyIdentifier_take, Hid. }
    split; [exact Hid|].
    unfold decrypt. rewrite Hpng, Hid. reflexivity.
  - intros Hversion.
    pose proof (decodeHeader_version _ Hversion) as Hnull.
    split; [exact Hnull|].
    unfold decrypt. rewrite Hpng, Hnull.
    destruct (verifyIdentifier (png_data decoded)); eexists; reflexivity.
Qed.

Lemma header_magic_and_version_rejected_witness :
  let image : @Blob samplePlatform :=
    (2%Z, 1%Z, [x00; x4d; x5a; xff; x5a; x4c; x04; xff]) in
  decrypt (ImgBlob image) (Str "pw")
  = Ret (mkError (DecodingError "signiture not found"))
  /\ decodeHeader [x00; x4d; x5a; x5a; x4c; x04] = None.
Proof.
  intros image.
  destruct (header_magic_and_version_rejected samplePlatform image
              {| png_colorType := TRUE_COLOR_WITH_ALPHA; png_w := 2; png_h := 1;
                 png_data := [x00; x4d; x5a; x5a; x4c; x04] |} (Str "pw"))
    as [Hmagic Hversion]; [reflexivity|].
  split.
  - apply Hmagic. discriminate.
  - apply Hversion. discriminate.
Defined.

(** C6 fails on the code: a buffer that ends right after the version byte
    is decoded into a header object whose numbers are NaN and whose byte
    fields are empty; [subarray] never throws, so the [catch] of
    [decodeHeader] is never reached. *)
Lemma decodeHeader_truncated_buffer :
  decodeHeader [x53; x4d; x5a; x5a; x4c; x03]
  = Some {| signiture := [x53; x4d; x5a; x5a; x4c];
            version := x03;
            usePassword := false;
            w := None;
            h := None;
            iv := [];
            tag := [];
            keyBytes := [];
            headerHeight := None;
            footerHeight := None;
            areaDataLength := None |}.
Proof. reflexivity. Qed.

(** C7 fails on the code: [encrypt] of a value that is no image throws the
    [ReferenceError] of [getImageDataCanvas], and [decrypt] of [null]
    throws the [TypeError] of the constructor of its own error. *)
Lemma public_functions_throw (P : Platform) (pw : jsval) (g : rng) :
  encrypt ImgOther pw g = Throw ReferenceError
  /\ encrypt ImgNullish pw g = Throw ReferenceError
  /\ decrypt ImgNullish pw = Throw TypeError.
Proof. repeat split. Qed.

(** ** crypto.js: one run of [encrypt] and of [decrypt] *)

Lemma splitCiphertext_spec (P : Platform) (ciphertext : list byte) (n : nat) :
  length ciphertext = n + TAG_LENGTH ->
  splitCiphertext ciphertext TAG_LENGTH = (drop n ciphertext, take n ciphertext).
Proof.
  intros Hlen. unfold splitCiphertext, subarrayZ, relIndex. rewrite Hlen.
  destruct (decide (Z.of_nat (n + TAG_LENGTH) - Z.of_nat TAG_LENGTH < 0)%Z); [lia|].
  destruct (decide (0 < 0)%Z); [lia|].
  destruct (decide (Z.of_nat (n + TAG_LENGTH) < 0)%Z); [lia|].
  replace (Z.to_nat (Z.of_nat (n + TAG_LENGTH) - Z.of_nat TAG_LENGTH)) with n by lia.
  rewrite Nat2Z.id. change (Z.to_nat 0) with 0. rewrite drop_0.
  rewrite (take_ge ciphertext (n + TAG_LENGTH)) by lia. reflexivity.
Qed.

Lemma set_two {A : Type} (a b : list byte) (k : list byte -> outcome A) :
  (let* o := set (replicate (length a + length b) x00) a 0 in
   let* o := set o b (length a) in k o)
  = k (a ++ b).
Proof.
  rewrite set_front by (rewrite length_replicate; lia). cbn [bind].
  rewrite drop_replicate.
  replace (length a + length b - length a) with (length b) by lia.
  rewrite <- (app_nil_r (replicate (length b) x00)).
  rewrite set_app by (rewrite length_replicate; reflexivity).
  rewrite app_nil_r. reflexivity.
Qed.

Lemma length_toRGB_image (w h : Z) (imageData : list byte) :
  wfImage w h imageData ->
  length (toRGB imageData) = 3 * Z.to_nat (w * h).
Proof.
  intros (Hw & Hh & Hlen).
  rewrite (toRGB_whole imageData (Z.to_nat (w * h))) by nia.
  apply length_dropEveryFourth. nia.
Qed.

Lemma length_containerRGB (w h : Z) (iv ciphertext : list byte)
    (usePassword : bool) (keyBytes : list byte) (g : rng) (n : nat) :
  (1 <= w)%Z -> length iv = IV_LENGTH -> length ciphertext = n + TAG_LENGTH ->
  (usePassword = false -> length keyBytes = KEY_LENGTH) ->
  length (containerRGB w h iv ciphertext usePassword keyBytes g)
  = Z.to_nat (headerHeightOf w * (3 * w)) + n.
Proof.
  intros Hw Hiv Hct Hkey. unfold containerRGB.
  replace (length ciphertext - TAG_LENGTH) with n by lia.
  pose proof (headerHeightOf_ceil w Hw) as Hceil.
  rewrite !length_app, length_drop, length_take, length_draw.
  rewrite length_headerBlock; try assumption.
  - unfold HEADER_MINIMUM_LENGTH. lia.
  - rewrite length_drop. lia.
  - destruct usePassword; [apply length_draw | apply Hkey; reflexivity].
Qed.

(** The two requests of step (3) of [encrypt], of 32 and of 16 bytes, are
    within the quota: the step never throws. *)
Lemma encryptData_eq (P : Platform) (plaintext : list byte) (pw : jsval) (g : rng) :
  encryptData plaintext pw g
  = Ret (let cipher (usePassword : bool) (keyBytes : list byte) (g : rng) :=
           match importKey keyBytes with
           | None => inl (mkError (CryptoError "encrypt"))
           | Some key =>
               let '(iv, g) := draw g IV_LENGTH in
               match subtle_encrypt key iv plaintext with
               | None => inl (mkError (CryptoError "encrypt"))
               | Some ciphertext => inr (usePassword, keyBytes, iv, ciphertext, g)
               end
           end in
         match passwordOf pw with
         | Some s =>
             match getHash s KEY_LENGTH with
             | None => inl (mkError (CryptoError "hash"))
             | Some keyBytes => cipher true keyBytes g
             end
         | None =>
             let '(keyBytes, g) := draw g KEY_LENGTH in
             cipher false keyBytes g
         end).
Proof.
  unfold encryptData.
  destruct (passwordOf pw) as [s|]; [destruct (getHash s KEY_LENGTH)|]; reflexivity.
Qed.

(** The run of [encrypt] once the engine has produced a ciphertext. *)
Lemma encrypt_run (P : Platform) (w h : Z) (imageData : list byte) (pw : jsval)
    (g g1 : rng) (usePassword : bool) (keyBytes iv ciphertext : list byte) :
  (1 <= w <= 21845)%Z ->
  encryptData (toRGB imageData) (defaultArg pw) g
  = Ret (inr (usePassword, keyBytes, iv, ciphertext, g1)) ->
  length iv = IV_LENGTH -> TAG_LENGTH <= length ciphertext ->
  (usePassword = false -> length keyBytes = KEY_LENGTH) ->
  encrypt (ImgElement w h imageData) pw g
  = Ret match png_encode (Some w) (Some (h + headerHeightOf w)%Z)
                (toRGBA (containerRGB w h iv ciphertext usePassword keyBytes g1)) with
        | None => mkError (EncodingError "png")
        | Some blob => mkOutput blob
        end.
Proof.
  intros Hw Hdata Hiv Hct Hkey.
  unfold encrypt, getImageDataCanvas. cbn [bind]. rewrite Hdata. cbn [bind].
  rewrite (splitCiphertext_spec P ciphertext (length ciphertext - TAG_LENGTH)) by lia.
  rewrite (encodeHeader_layout w h iv _ usePassword keyBytes g1 Hw Hiv)
    by (try assumption; rewrite length_drop; lia).
  cbn [bind]. rewrite set_two. cbn [bind].
  unfold containerRGB. rewrite <- app_assoc.
  destruct (png_encode _ _ _); reflexivity.
Qed.

(** For an image of 21846 pixels a row or more, [encodeHeader] throws
    after the engine has produced the ciphertext, and nothing in [encrypt]
    catches it. *)
Lemma encrypt_wide (P : Platform) (w h : Z) (imageData : list byte) (pw : jsval)
    (g g1 : rng) (usePassword : bool) (keyBytes iv ciphertext : list byte) :
  (21846 <= w)%Z ->
  encryptData (toRGB imageData) (defaultArg pw) g
  = Ret (inr (usePassword, keyBytes, iv, ciphertext, g1)) ->
  length iv = IV_LENGTH -> TAG_LENGTH <= length ciphertext ->
  (usePassword = false -> length keyBytes = KEY_LENGTH) ->
  encrypt (ImgElement w h imageData) pw g = Throw QuotaExceededError.
Proof.
  intros Hw Hdata Hiv Hct Hkey.
  unfold encrypt, getImageDataCanvas. cbn [bind]. rewrite Hdata. cbn [bind].
  rewrite (splitCiphertext_spec P ciphertext (length ciphertext - TAG_LENGTH)) by lia.
  rewrite (encodeHeader_wide w h iv _ usePassword keyBytes g1 Hw Hiv)
    by (try assumption; rewrite length_drop; lia).
  reflexivity.
Qed.

Lemma getImageDataPNG_rgba (P : Platform) (image : Blob) (width height : Z)
    (rgb : list byte) (p : nat) :
  png_decode image = Some {| meta_colorType := TRUE_COLOR_WITH_ALPHA;
                             meta_width := width;
                             meta_height := height;
                             meta_data := toRGBA rgb |} ->
  length rgb = 3 * p ->
  getImageDataPNG image = Some {| png_colorType := TRUE_COLOR_WITH_ALPHA;
                                  png_w := width;
                                  png_h := height;
                                  png_data := rgb |}.
Proof.
  intros Hdec Hlen. unfold getImageDataPNG. rewrite Hdec. cbn.
  rewrite (toRGB_toRGBA rgb p Hlen). reflexivity.
Qed.

Lemma verifyIdentifier_layout (w h : Z) (iv tag : list byte) (usePassword : bool)
    (keyBytes : list byte) (hh : Z) (rest : list byte) :
  verifyIdentifier (headerBlock w h iv tag usePassword keyBytes hh ++ rest) = true.
Proof. reflexivity. Qed.

(** The [try] block of [decrypt] on a container of the layout: the engine
    receives the bytes after the header rows followed by the stored tag. *)
Lemma decryptData_layout (P : Platform) (width height : Z) (nonce tg : list byte)
    (usePw : bool) (stored : list byte) (hh : Z)
    (rest encrypted : list byte) (key : CryptoKey) :
  (0 <= hh)%Z -> (0 <= width)%Z ->
  length nonce = IV_LENGTH -> length tg = TAG_LENGTH ->
  length stored = KEY_LENGTH ->
  HEADER_MINIMUM_LENGTH + length rest = Z.to_nat (hh * (3 * width)) ->
  decryptData (layoutHeader width height nonce tg usePw stored hh)
              (headerBlock width height nonce tg usePw stored hh ++ rest ++ encrypted)
              key
  = match subtle_decrypt key nonce (encrypted ++ tg) with
    | Some plaintext => Ret plaintext
    | None => Throw OperationError
    end.
Proof.
  intros Hhh Hw Hiv Htag Hkey Hrows.
  pose proof (length_headerBlock width height nonce tg usePw stored hh Hiv Htag Hkey)
    as Hblock.
  unfold decryptData, layoutHeader.
  cbn [headerHeight w tag iv js_mul js_sub js_add].
  unfold newArrayOf, subarrayFrom, relIndex.
  rewrite !length_app, Hblock.
  destruct (decide (_ < 0)%Z) as [Hneg|_]; [unfold TAG_LENGTH in *; nia|].
  destruct (decide (hh * 3 * width < 0)%Z) as [Hneg|_]; [nia|].
  cbn [bind].
  replace (Z.to_nat (hh * 3 * width))
    with (length (headerBlock width height nonce tg usePw stored hh ++ rest))
    by (rewrite length_app, Hblock, Hrows; f_equal; lia).
  rewrite app_assoc, drop_app_length.
  replace (Z.to_nat _) with (length encrypted + length tg).
  2: { rewrite Htag. unfold TAG_LENGTH, HEADER_MINIMUM_LENGTH in *. nia. }
  rewrite set_two. reflexivity.
Qed.

Lemma getHash_ok (P : Platform) (HC : Contracts P) (s : string) :
  exists keyBytes, getHash s KEY_LENGTH = Some keyBytes /\ length keyBytes = KEY_LENGTH.
Proof.
  destruct (digest_ok P HC s) as (d & Hd & Hlen).
  exists (subarray d 0 KEY_LENGTH). unfold getHash. rewrite Hd. split; [reflexivity|].
  unfold subarray. rewrite length_drop, length_take, Hlen. reflexivity.
Qed.

(** Step (3) of [encrypt] succeeds when the collaborators keep their
    contracts. *)
Lemma encryptData_ok (P : Platform) (HC : Contracts P) (plaintext : list byte)
    (pw : jsval) (g : rng) :
  exists keyBytes key iv ciphertext g1,
    encryptData plaintext pw g
    = Ret (inr (match passwordOf pw with Some _ => true | None => false end,
                keyBytes, iv, ciphertext, g1))
    /\ length keyBytes = KEY_LENGTH
    /\ length iv = IV_LENGTH
    /\ length ciphertext = length plaintext + TAG_LENGTH
    /\ importKey keyBytes = Some key
    /\ subtle_encrypt key iv plaintext = Some ciphertext
    /\ match passwordOf pw with
       | Some s => getHash s KEY_LENGTH = Some keyBytes
       | None => keyBytes = fst (draw g KEY_LENGTH)
       end.
Proof.
  rewrite encryptData_eq. cbv zeta.
  destruct (passwordOf pw) as [s|].
  - destruct (getHash_ok P HC s) as (keyBytes & Hhash & Hlen).
    destruct (importKey_ok P HC keyBytes Hlen) as (key & Hkey).
    destruct (encrypt_ok P HC key (fst (draw g IV_LENGTH)) plaintext
                (length_draw g IV_LENGTH)) as (c & Hc & Hclen).
    exists keyBytes, key, (fst (draw g IV_LENGTH)), c,
      (snd (draw g IV_LENGTH)).
    rewrite Hhash, Hkey. cbn [draw fst snd] in *. rewrite Hc.
    repeat split; try assumption; apply (length_draw g IV_LENGTH).
  - pose (keyBytes := fst (draw g KEY_LENGTH)).
    pose (g0 := snd (draw g KEY_LENGTH)).
    assert (Hlen : length keyBytes = KEY_LENGTH) by apply length_draw.
    destruct (importKey_ok P HC keyBytes Hlen) as (key & Hkey).
    destruct (encrypt_ok P HC key (fst (draw g0 IV_LENGTH)) plaintext
                (length_draw g0 IV_LENGTH)) as (c & Hc & Hclen).
    exists keyBytes, key, (fst (draw g0 IV_LENGTH)), c,
      (snd (draw g0 IV_LENGTH)).
    subst keyBytes g0. cbn [draw fst snd] in *. rewrite Hkey, Hc.
    repeat split; try assumption; apply length_draw.
Qed.

(** Encrypting an image and decrypting the container: [pw'] is the
    password given to [decrypt], which has to be the one given to [encrypt]
    when there was one. *)
Lemma pipeline_round_trip (P : Platform) (HC : Contracts P) (width height : Z)
    (imageData : list byte) (pw pw' : jsval) (g : rng) :
  wfImage width height imageData ->
  (width <= 21845)%Z ->
  passwordOf (defaultArg pw) = None
  \/ passwordOf (defaultArg pw') = passwordOf (defaultArg pw) ->
  exists container decoded hdr plain,
    encrypt (ImgElement width height imageData) pw g = Ret (mkOutput container)
    /\ getImageDataPNG container = Some decoded
    /\ decodeHeader (png_data decoded) = Some hdr
    /\ usePassword hdr
       = match passwordOf (defaultArg pw) with Some _ => true | None => false end
    /\ subarray (png_data decoded) 6 8 = flagBytes (usePassword hdr)
    /\ (passwordOf (defaultArg pw) = None ->
        keyBytes hdr = fst (draw g KEY_LENGTH)
        /\ subarray (png_data decoded) 48 80 = fst (draw g KEY_LENGTH))
    /\ decrypt (ImgBlob container) pw' = Ret (mkOutput plain)
    /\ png_decode plain
       = Some {| meta_colorType := TRUE_COLOR_WITH_ALPHA;
                 meta_width := width;
                 meta_height := height;
                 meta_data := toRGBA (toRGB imageData) |}.
Proof.
  intros Hwf Hquota Hpw. pose proof Hwf as (Hw & Hh & Hlen).
  pose proof (length_toRGB_image width height imageData Hwf) as Hrgb.
  pose proof (headerHeightOf_ceil width ltac:(lia)) as Hceil.
  pose proof (headerHeightOf_range width ltac:(lia)) as Hrange.
  set (hh := headerHeightOf width) in *.
  destruct (encryptData_ok P HC (toRGB imageData) (defaultArg pw) g)
    as (kb & key & nonce & ct & g1 & Hdata & Hkb & Hnonce & Hct & Himport & Henc & Hsel).
  set (usePw := match passwordOf (defaultArg pw) with Some _ => true | None => false end) in *.
  set (n := length (toRGB imageData)) in *.
  (* the container *)
  pose proof (encrypt_run P width height imageData pw g g1 usePw kb nonce ct
                ltac:(lia) Hdata Hnonce ltac:(lia) (fun _ => Hkb)) as Hrun.
  fold hh in Hrun.
  pose proof (length_containerRGB width height nonce ct usePw kb g1 n
                ltac:(lia) Hnonce Hct (fun _ => Hkb)) as Hclen.
  fold hh in Hclen.
  set (rgb := containerRGB width height nonce ct usePw kb g1) in *.
  assert (Hthree : length rgb = 3 * (Z.to_nat (hh * width) + Z.to_nat (width * height))).
  { rewrite Hclen. subst n. rewrite Hrgb. nia. }
  destruct (png_ok P HC width (height + hh) (toRGBA rgb)) as (container & Hpng & Hdec);
    [lia | lia | |].
  { rewrite (toRGBA_whole rgb _ Hthree), (length_insertAlpha _ rgb Hthree). nia. }
  rewrite Hpng in Hrun.
  pose proof (getImageDataPNG_rgba P container width (height + hh) rgb _ Hdec Hthree)
    as Hload.
  (* its layout *)
  set (stored := fst (if usePw then draw g1 KEY_LENGTH else (kb, g1))).
  assert (Hstored : length stored = KEY_LENGTH).
  { subst stored. destruct usePw; [apply length_draw | exact Hkb]. }
  set (tg := drop (length ct - TAG_LENGTH) ct).
  assert (Htg : length tg = TAG_LENGTH) by (subst tg; rewrite length_drop; lia).
  set (rest := drop HEADER_MINIMUM_LENGTH
                 (fst (draw (snd (if usePw then draw g1 KEY_LENGTH
                                             else (kb, g1)))
                         (Z.to_nat (hh * (3 * width)))))).
  assert (Hrest : HEADER_MINIMUM_LENGTH + length rest = Z.to_nat (hh * (3 * width))).
  { subst rest. rewrite length_drop, length_draw.
    unfold HEADER_MINIMUM_LENGTH. lia. }
  assert (Hlayout : rgb = headerBlock width height nonce tg usePw stored hh
                          ++ rest ++ take (length ct - TAG_LENGTH) ct)
    by reflexivity.
  pose proof (decodeHeader_layout width height nonce tg usePw stored hh
                (rest ++ take (length ct - TAG_LENGTH) ct)
                ltac:(lia) ltac:(lia) ltac:(lia) Hnonce Htg Hstored) as Hhdr.
  rewrite <- Hlayout in Hhdr.
  (* the key that [decrypt] resolves *)
  assert (Hresolve :
    (if usePw then
       match passwordOf (defaultArg pw') with
       | None => inl (mkError (CryptoError "no password"))
       | Some s => match getHash s KEY_LENGTH with
                   | None => inl (mkError (CryptoError "hash"))
                   | Some keyBytes => inr keyBytes
                   end
       end
     else inr stored) = inr kb).
  { subst usePw stored. destruct (passwordOf (defaultArg pw)) as [s|].
    - destruct Hpw as [Hpw|Hpw]; [discriminate|]. rewrite Hpw, Hsel. reflexivity.
    - reflexivity. }
  (* the plaintext *)
  pose proof (decryptData_layout P width height nonce tg usePw stored hh rest
                (take (length ct - TAG_LENGTH) ct) key
                ltac:(lia) ltac:(lia) Hnonce Htg Hstored Hrest) as Htry.
  rewrite <- Hlayout in Htry. subst tg. rewrite take_drop in Htry.
  rewrite (decrypt_encrypt P HC key nonce _ ct Henc) in Htry.
  destruct (png_ok P HC width height (toRGBA (toRGB imageData)))
    as (plain & Hplain & Hplaindec); [lia | lia | |].
  { rewrite (toRGBA_whole _ _ Hrgb), (length_insertAlpha _ _ Hrgb). nia. }
  exists container, {| png_colorType := TRUE_COLOR_WITH_ALPHA; png_w := width;
                       png_h := (height + hh)%Z; png_data := rgb |},
    (layoutHeader width height nonce (drop (length ct - TAG_LENGTH) ct) usePw stored hh),
    plain.
  cbn [png_data].
  split; [exact Hrun|]. split; [exact Hload|]. split; [exact Hhdr|].
  split; [reflexivity|].
  split.
  { rewrite Hlayout. unfold headerBlock, headerPrefix. cbn [usePassword layoutHeader].
    rewrite <- !app_assoc.
    rewrite (app_assoc SMZZL_IDENTIFIER). apply subarray_app; [reflexivity|].
    destruct usePw; reflexivity. }
  split.
  { intros Hnone. subst usePw stored. rewrite Hnone in *. cbn [fst layoutHeader keyBytes].
    split; [exact Hsel|].
    rewrite Hlayout, <- Hsel. apply subarray_headerBlock_key; assumption. }
  split; [|exact Hplaindec].
  unfold decrypt. rewrite Hload. cbn [png_data].
  rewrite Hlayout at 1. rewrite verifyIdentifier_layout. cbn [negb].
  rewrite Hhdr. cbn [usePassword layoutHeader keyBytes w h].
  rewrite Hresolve, Himport, Htry, Hplain. reflexivity.
Qed.

(** ** The sample collaborators keep the contracts *)

Lemma length_sampleTag (key iv : list byte) : length (sampleTag key iv) = TAG_LENGTH.
Proof.
  unfold sampleTag. rewrite length_take, !length_app, length_replicate. lia.
Qed.

Lemma samplePlatform_contracts : Contracts samplePlatform.
Proof.
  split; cbn [digest importKey subtle_encrypt subtle_decrypt png_encode png_decode
              samplePlatform].
  - intros s. eexists. split; [reflexivity|].
    rewrite length_take, length_app, length_replicate. unfold KEY_LENGTH. lia.
  - intros keyBytes Hlen. exists keyBytes. unfold sampleImportKey.
    destruct (decide _); [reflexivity|contradiction].
  - intros key iv plaintext _. eexists. split; [reflexivity|].
    rewrite length_app, length_sampleTag. reflexivity.
  - intros key iv plaintext c [= <-]. unfold sampleDecrypt.
    rewrite length_app, length_sampleTag.
    replace (length plaintext + TAG_LENGTH - TAG_LENGTH) with (length plaintext) by lia.
    rewrite take_app_length.
    destruct (decide _); [reflexivity|contradiction].
  - intros width height data _ _ _. eexists. split; reflexivity.
Qed.

Lemma sampleImage_wf : wfImage 2 1 sampleImage.
Proof. repeat split; vm_compute; congruence. Qed.

(** ** The round trip *)

(** [encrypt] sees an image only through what [getImageDataCanvas] reads
    from it. *)
Lemma encrypt_loaded (P : Platform) (image : imageArg P) (width height : Z)
    (imageData : list byte) (pw : jsval) (g : rng) :
  getImageDataCanvas image = Ret (width, height, imageData) ->
  encrypt image pw g = encrypt (ImgElement width height imageData) pw g.
Proof.
  intros Hload. unfold encrypt. rewrite Hload. reflexivity.
Qed.

(** C1 fails on the code: for an image (an element, or a blob that loads)
    of 21846 pixels a row or more there is no round trip.  With
    collaborators that keep their contracts, [encrypt] throws a
    [QuotaExceededError] for every password argument, from the request
    for the camouflage in [encodeHeader], and returns neither a container
    nor an error. *)
Theorem encrypt_wide_image_throws (P : Platform) (HC : Contracts P)
    (image : imageArg P) (width height : Z) (imageData : list byte)
    (pw : jsval) (g : rng) :
  getImageDataCanvas image = Ret (width, height, imageData) ->
  (21846 <= width)%Z ->
  encrypt image pw g = Throw QuotaExceededError.
Proof.
  intros Himage Hw. rewrite (encrypt_loaded P image width height imageData _ g Himage).
  destruct (encryptData_ok P HC (toRGB imageData) (defaultArg pw) g)
    as (kb & key & nonce & ct & g1 & Hdata & Hkb & Hnonce & Hct & _).
  apply (encrypt_wide P width height imageData pw g g1 _ kb nonce ct Hw Hdata Hnonce);
    [lia | intros _; exact Hkb].
Qed.

Lemma encrypt_wide_image_throws_witness :
  @encrypt samplePlatform
     (ImgElement 21846 1 (replicate (Z.to_nat (4 * 21846 * 1)) xff)) (Str "pw") sampleRng
  = Throw QuotaExceededError.
Proof.
  apply (encrypt_wide_image_throws samplePlatform samplePlatform_contracts
           (ImgElement 21846 1 (replicate (Z.to_nat (4 * 21846 * 1)) xff))
           21846 1 (replicate (Z.to_nat (4 * 21846 * 1)) xff) (Str "pw") sampleRng
           eq_refl).
  lia.
Defined.

(** X26. For an image (an element, or a blob that loads) of at least one
    pixel and at most 21845 pixels a row, and any password string, empty
    or not, [encrypt] returns a container and [decrypt] with the same
    password returns the PNG of the original width and height whose
    pixels are [toRGBA (toRGB imageData)]: the R, G and B bytes of the
    original with every alpha byte 255.  The collaborators are assumed to
    keep their contracts: PNG decoding inverts encoding, and the engine
    decrypts what it encrypted under the same key, nonce and tag. *)
Theorem encrypt_decrypt_round_trip (P : Platform) (HC : Contracts P)
    (image : imageArg P) (width height : Z) (imageData : list byte)
    (password : string) (g : rng) :
  getImageDataCanvas image = Ret (width, height, imageData) ->
  wfImage width height imageData ->
  (width <= 21845)%Z ->
  exists container plain,
    encrypt image (Str password) g = Ret (mkOutput container)
    /\ decrypt (ImgBlob container) (Str password) = Ret (mkOutput plain)
    /\ png_decode plain
       = Some {| meta_colorType := TRUE_COLOR_WITH_ALPHA;
                 meta_width := width;
                 meta_height := height;
                 meta_data := toRGBA (toRGB imageData) |}
    /\ toRGB (toRGBA (toRGB imageData)) = toRGB imageData
    /\ length (toRGBA (toRGB imageData)) = length imageData
    /\ (forall i, i < length imageData ->
          toRGBA (toRGB imageData) !! i
          = if decide (i mod 4 = 3) then Some xff else imageData !! i).
Proof.
  intros Himage Hwf Hquota.
  rewrite (encrypt_loaded P image width height imageData _ g Himage).
  destruct (pipeline_round_trip P HC width height imageData (Str password)
              (Str password) g Hwf Hquota (or_intror eq_refl))
    as (container & decoded & hdr & plain & Henc & _ & _ & _ & _ & _ & Hdec & Hplain).
  pose proof (length_toRGB_image width height imageData Hwf) as Hrgb.
  destruct Hwf as (Hw & Hh & Hlen).
  destruct (toRGBA_toRGB_pixels imageData (Z.to_nat (width * height)) ltac:(nia))
    as [Hsize Hget].
  exists container, plain.
  repeat split; try assumption.
  apply (toRGB_toRGBA _ _ Hrgb).
Qed.

Lemma encrypt_decrypt_round_trip_witness :
  exists container plain,
    @encrypt samplePlatform (ImgElement 2 1 sampleImage) (Str "pw") sampleRng
    = Ret (mkOutput container)
    /\ @decrypt samplePlatform (ImgBlob container) (Str "pw") = Ret (mkOutput plain)
    /\ @png_decode samplePlatform plain
       = Some {| meta_colorType := TRUE_COLOR_WITH_ALPHA;
                 meta_width := 2;
                 meta_height := 1;
                 meta_data := [x0a; x14; x1e; xff; x28; x32; x3c; xff] |}.
Proof.
  destruct (encrypt_decrypt_round_trip samplePlatform samplePlatform_contracts
              (ImgElement 2 1 sampleImage) 2 1 sampleImage "pw" sampleRng
              eq_refl sampleImage_wf ltac:(lia))
    as (container & plain & Henc & Hdec & Hplain & _).
  exists container, plain. repeat split; assumption.
Defined.

(** C10. When the password argument is not a string or is the empty
    string, [encrypt] takes the next 32 bytes of the random source as key:
    the container it returns (for an image of at most 21845 pixels a row,
    so that the camouflage is within the 65536 bytes of one call of
    [getRandomValues]) has a clear password flag (bytes 6 and 7 of the
    header are zero), holds that key in the key field of its header, and
    is decrypted by [decrypt] with the empty password. *)
Theorem encrypt_without_password (P : Platform) (HC : Contracts P)
    (image : imageArg P) (width height : Z) (imageData : list byte)
    (pw : jsval) (g : rng) :
  getImageDataCanvas image = Ret (width, height, imageData) ->
  wfImage width height imageData ->
  (width <= 21845)%Z ->
  passwordOf pw = None ->
  exists container decoded hdr plain,
    encrypt image pw g = Ret (mkOutput container)
    /\ getImageDataPNG container = Some decoded
    /\ decodeHeader (png_data decoded) = Some hdr
    /\ usePassword hdr = false
    /\ subarray (png_data decoded) 6 8 = [x00; x00]
    /\ keyBytes hdr = fst (draw g KEY_LENGTH)
    /\ subarray (png_data decoded) 48 80 = fst (draw g KEY_LENGTH)
    /\ decrypt (ImgBlob container) (Str "") = Ret (mkOutput plain)
    /\ png_decode plain
       = Some {| meta_colorType := TRUE_COLOR_WITH_ALPHA;
                 meta_width := width;
                 meta_height := height;
                 meta_data := toRGBA (toRGB imageData) |}.
Proof.
  intros Himage Hwf Hquota Hpw.
  rewrite (encrypt_loaded P image width height imageData _ g Himage).
  assert (Hnone : passwordOf (defaultArg pw) = None)
    by (destruct pw; [reflexivity | exact Hpw ..]).
  destruct (pipeline_round_trip P HC width height imageData pw (Str "") g Hwf Hquota
              (or_introl Hnone))
    as (container & decoded & hdr & plain & Henc & Hload & Hhdr & Hflag & Hbytes
        & Hkey & Hdec & Hplain).
  rewrite Hnone in Hflag. rewrite Hflag in Hbytes.
  destruct (Hkey Hnone) as [Hstored Hfield].
  exists container, decoded, hdr, plain. repeat split; assumption.
Qed.

Lemma encrypt_without_password_witness :
  exists container decoded hdr plain,
    @encrypt samplePlatform (ImgElement 2 1 sampleImage) Null sampleRng
    = Ret (mkOutput container)
    /\ @getImageDataPNG samplePlatform container = Some decoded
    /\ decodeHeader (png_data decoded) = Some hdr
    /\ usePassword hdr = false
    /\ keyBytes hdr = fst (draw sampleRng KEY_LENGTH)
    /\ @decrypt samplePlatform (ImgBlob container) (Str "") = Ret (mkOutput plain).
Proof.
  destruct (encrypt_without_password samplePlatform samplePlatform_contracts
              (ImgElement 2 1 sampleImage) 2 1 sampleImage Null sampleRng
              eq_refl sampleImage_wf ltac:(lia) eq_refl)
    as (container & decoded & hdr & plain & Henc & Hload & Hhdr & Hflag & _
        & Hkey & _ & Hdec & _).
  exists container, decoded, hdr, plain. repeat split; assumption.
Defined.

(** ** Tampering and wrong passwords *)

Lemma flipBit_neq (b : byte) (j : nat) : j < 8 -> flipBit b j <> b.
Proof.
  intros Hj.
  do 8 (destruct j as [|j]; [destruct b; vm_compute; discriminate|]).
  lia.
Qed.

Lemma length_flipBitAt (data : list byte) (i j : nat) :
  length (flipBitAt data i j) = length data.
Proof. apply length_alter. Qed.

Lemma flipBitAt_neq (data : list byte) (i j : nat) :
  i < length data -> j < 8 -> flipBitAt data i j <> data.
Proof.
  intros Hi Hj Heq.
  destruct (lookup_lt_is_Some_2 data i Hi) as [b Hb].
  assert (Hget : flipBitAt data i j !! i = Some (flipBit b j)).
  { unfold flipBitAt. rewrite list_lookup_alter.
    destruct (decide (i = i)); [|contradiction]. rewrite Hb. reflexivity. }
  rewrite Heq, Hb in Hget. injection Hget as Hget.
  apply (flipBit_neq b j Hj). symmetry. exact Hget.
Qed.

(** A flip inside the tag field of the header block. *)
Lemma flipBitAt_tag (width height : Z) (nonce tg : list byte) (usePw : bool)
    (stored : list byte) (hh : Z) (rest : list byte) (i j : nat) :
  length nonce = IV_LENGTH -> length tg = TAG_LENGTH -> 32 <= i < 48 ->
  flipBitAt (headerBlock width height nonce tg usePw stored hh ++ rest) i j
  = headerBlock width height nonce (flipBitAt tg (i - 32) j) usePw stored hh ++ rest.
Proof.
  intros Hnonce Htg Hi. unfold headerBlock, headerPrefix, flipBitAt.
  set (front := SMZZL_IDENTIFIER ++ SMZZL_VERSION ++ flagBytes usePw
                ++ encodeUint width ++ encodeUint height ++ nonce).
  assert (Hfront : length front = 32).
  { subst front. rewrite !length_app, Hnonce. destruct usePw; reflexivity. }
  replace (SMZZL_IDENTIFIER ++ SMZZL_VERSION ++ flagBytes usePw
           ++ encodeUint width ++ encodeUint height ++ nonce ++ tg)
    with (front ++ tg) by (subst front; rewrite <- !app_assoc; reflexivity).
  replace (SMZZL_IDENTIFIER ++ SMZZL_VERSION ++ flagBytes usePw
           ++ encodeUint width ++ encodeUint height ++ nonce
           ++ alter (fun b => flipBit b j) (i - 32) tg)
    with (front ++ alter (fun b => flipBit b j) (i - 32) tg)
    by (subst front; rewrite <- !app_assoc; reflexivity).
  rewrite <- !app_assoc.
  rewrite alter_app_r_alt by lia. rewrite Hfront.
  rewrite alter_app_l by (rewrite Htg; unfold TAG_LENGTH; lia).
  reflexivity.
Qed.

(** A flip behind the header rows. *)
Lemma flipBitAt_ciphertext (block rest encrypted : list byte) (i j : nat) :
  length block + length rest <= i ->
  flipBitAt (block ++ rest ++ encrypted) i j
  = block ++ rest ++ flipBitAt encrypted (i - (length block + length rest)) j.
Proof.
  intros Hi. unfold flipBitAt.
  rewrite alter_app_r_alt by lia. rewrite alter_app_r_alt by lia.
  do 3 f_equal. lia.
Qed.

(** What a successful step (3) of [encrypt] has done. *)
Lemma encryptData_inv (P : Platform) (plaintext : list byte) (pw : jsval) (g g1 : rng)
    (usePw : bool) (kb nonce ct : list byte) :
  encryptData plaintext pw g = Ret (inr (usePw, kb, nonce, ct, g1)) ->
  length nonce = IV_LENGTH
  /\ (exists key, importKey kb = Some key /\ subtle_encrypt key nonce plaintext = Some ct)
  /\ ((exists s, passwordOf pw = Some s /\ getHash s KEY_LENGTH = Some kb /\ usePw = true)
      \/ (passwordOf pw = None /\ usePw = false /\ length kb = KEY_LENGTH)).
Proof.
  rewrite encryptData_eq. cbv zeta. intros [= Hrun].
  destruct (passwordOf pw) as [s|].
  - destruct (getHash s KEY_LENGTH) as [k|] eqn:Hhash; [|discriminate].
    destruct (importKey k) as [key|] eqn:Hkey; [|discriminate].
    cbn [draw] in Hrun.
    destruct (subtle_encrypt key _ plaintext) as [c|] eqn:Hc; [|discriminate].
    injection Hrun as <- <- <- <- <-.
    split; [first [reflexivity | apply (length_draw _ IV_LENGTH)]|].
    split; [exists key; split; assumption|].
    left. exists s. repeat split. exact Hhash.
  - cbn [draw] in Hrun.
    destruct (importKey _) as [key|] eqn:Hkey; [|discriminate].
    destruct (subtle_encrypt key _ plaintext) as [c|] eqn:Hc; [|discriminate].
    injection Hrun as <- <- <- <- <-.

    split; [first [reflexivity | apply (length_draw _ IV_LENGTH)]|].
    split; [exists key; split; assumption|].
    right. repeat split.
Qed.

(** [decrypt] of a password-protected container of the layout, with a
    non-empty password. *)
Lemma decrypt_layout_password (P : Platform) (container : Blob) (decoded : pngData)
    (width height : Z) (nonce tg : list byte) (stored : list byte) (hh : Z)
    (rest enc : list byte) (s : string) :
  getImageDataPNG container = Some decoded ->
  png_data decoded = headerBlock width height nonce tg true stored hh ++ rest ++ enc ->
  (0 <= width < 2 ^ 32)%Z -> (0 <= height < 2 ^ 32)%Z -> (0 <= hh < 2 ^ 32)%Z ->
  length nonce = IV_LENGTH -> length tg = TAG_LENGTH -> length stored = KEY_LENGTH ->
  HEADER_MINIMUM_LENGTH + length rest = Z.to_nat (hh * (3 * width)) ->
  s <> ""%string ->
  decrypt (ImgBlob container) (Str s)
  = match getHash s KEY_LENGTH with
    | None => Ret (mkError (CryptoError "hash"))
    | Some keyBytes =>
      match importKey keyBytes with
      | None => Ret (mkError (CryptoError "import key"))
      | Some key =>
        match subtle_decrypt key nonce (enc ++ tg) with
        | None => Ret (mkError (CryptoError "decrypt"))
        | Some plaintext =>
          match png_encode (Some width) (Some height) (toRGBA plaintext) with
          | None => Ret (mkError (EncodingError "png"))
          | Some blob => Ret (mkOutput blob)
          end
        end
      end
    end.
Proof.
  intros Hload Hdata Hw Hh Hhh Hnonce Htg Hstored Hrest Hs.
  unfold decrypt. rewrite Hload, Hdata.
  rewrite verifyIdentifier_layout. cbn [negb].
  rewrite (decodeHeader_layout width height nonce tg true stored hh (rest ++ enc)
             Hw Hh Hhh Hnonce Htg Hstored).
  cbn [usePassword layoutHeader keyBytes w h defaultArg].
  unfold passwordOf. destruct (decide (s = ""%string)) as [Hempty|_]; [contradiction|].
  destruct (getHash s KEY_LENGTH) as [kb'|]; [|reflexivity].
  destruct (importKey kb') as [key'|]; [|reflexivity].
  rewrite (decryptData_layout P width height nonce tg true stored hh rest enc key'
             ltac:(lia) ltac:(lia) Hnonce Htg Hstored Hrest).
  destruct (subtle_decrypt key' nonce (enc ++ tg)); reflexivity.
Qed.

(** C2. Take a container that [encrypt] returned, the key bytes, the nonce
    and the engine's output of that run, and assume that PNG decoding
    inverts encoding and that the engine is authentic for that encryption.
    Then [decrypt] of any container whose pixels differ from the original
    ones by one flipped bit, in the tag field of the header (bytes 32..47)
    or behind the header rows, returns the [CryptoError] of a failed
    decryption; and when a password was used, [decrypt] of the original
    container with a non-empty password that derives other key bytes
    returns a [CryptoError] as well. *)
Theorem tampering_and_wrong_password_rejected (P : Platform)
    (width height : Z) (imageData : list byte) (pw : jsval) (g g1 : rng)
    (usePw : bool) (kb nonce ct : list byte) (container : Blob) :
  wfImage width height imageData ->
  encryptData (toRGB imageData) (defaultArg pw) g
  = Ret (inr (usePw, kb, nonce, ct, g1)) ->
  length ct = length (toRGB imageData) + TAG_LENGTH ->
  encrypt (ImgElement width height imageData) pw g = Ret (mkOutput container) ->
  pngInverse P ->
  authentic P kb nonce ct ->
  exists decoded,
    getImageDataPNG container = Some decoded
    /\ (forall (tampered : Blob) (decoded' : pngData) (i j : nat),
          getImageDataPNG tampered = Some decoded' ->
          png_data decoded' = flipBitAt (png_data decoded) i j ->
          j < 8 ->
          32 <= i < 48
          \/ Z.to_nat (headerHeightOf width * (3 * width)) <= i
             < length (png_data decoded) ->
          decrypt (ImgBlob tampered) pw = Ret (mkError (CryptoError "decrypt")))
    /\ (usePw = true ->
        forall s, s <> ""%string -> getHash s KEY_LENGTH <> Some kb ->
        exists message,
          decrypt (ImgBlob container) (Str s) = Ret (mkError (CryptoError message))).
Proof.
  intros Hwf Hdata Hct Hrunout Hpng Hauth. pose proof Hwf as (Hw & Hh & Hlen).
  pose proof (length_toRGB_image width height imageData Hwf) as Hrgb.
  pose proof (headerHeightOf_ceil width ltac:(lia)) as Hceil.
  pose proof (headerHeightOf_range width ltac:(lia)) as Hrange.
  set (hh := headerHeightOf width) in *.
  set (n := length (toRGB imageData)) in *.
  destruct (encryptData_inv P _ _ _ _ _ _ _ _ Hdata) as (Hnonce & (key & Himport & Henc) & Hsel).
  assert (Hkb : usePw = false -> length kb = KEY_LENGTH).
  { intros ->. destruct Hsel as [(s & _ & _ & [=])|(_ & _ & Hk)]. exact Hk. }
  (* a container was returned: the camouflage was within the quota *)
  assert (Hquota : (width <= 21845)%Z).
  { destruct (Z_le_gt_dec width 21845) as [Hle|Hgt]; [exact Hle|].
    rewrite (encrypt_wide P width height imageData pw g g1 usePw kb nonce ct
               ltac:(lia) Hdata Hnonce ltac:(lia) Hkb) in Hrunout.
    discriminate. }
  (* the container *)
  pose proof (encrypt_run P width height imageData pw g g1 usePw kb nonce ct
                ltac:(lia) Hdata Hnonce ltac:(lia) Hkb) as Hrun.
  fold hh in Hrun. rewrite Hrunout in Hrun.
  pose proof (length_containerRGB width height nonce ct usePw kb g1 n
                ltac:(lia) Hnonce Hct Hkb) as Hclen.
  fold hh in Hclen.
  set (rgb := containerRGB width height nonce ct usePw kb g1) in *.
  assert (Hthree : length rgb = 3 * (Z.to_nat (hh * width) + Z.to_nat (width * height))).
  { rewrite Hclen. subst n. rewrite Hrgb. nia. }
  destruct (png_encode (Some width) (Some (height + hh)%Z) (toRGBA rgb))
    as [b|] eqn:Hencode; [|discriminate].
  assert (b = container) as -> by (injection Hrun as [= ->]; reflexivity).
  pose proof (getImageDataPNG_rgba P container width (height + hh) rgb _
                (Hpng _ _ _ _ Hencode) Hthree) as Hload.
  (* its layout *)
  set (stored := fst (if usePw then draw g1 KEY_LENGTH else (kb, g1))).
  assert (Hstored : length stored = KEY_LENGTH).
  { subst stored. destruct usePw; [apply length_draw | apply Hkb; reflexivity]. }
  set (tg := drop (length ct - TAG_LENGTH) ct).
  assert (Htg : length tg = TAG_LENGTH) by (subst tg; rewrite length_drop; lia).
  set (enc := take (length ct - TAG_LENGTH) ct).
  assert (Hsplit : enc ++ tg = ct) by apply take_drop.
  assert (Henclen : length enc = n) by (subst enc; rewrite length_take; lia).
  set (rest := drop HEADER_MINIMUM_LENGTH
                 (fst (draw (snd (if usePw then draw g1 KEY_LENGTH
                                             else (kb, g1)))
                         (Z.to_nat (hh * (3 * width)))))).
  assert (Hrest : HEADER_MINIMUM_LENGTH + length rest = Z.to_nat (hh * (3 * width))).
  { subst rest. rewrite length_drop, length_draw.
    unfold HEADER_MINIMUM_LENGTH. lia. }
  assert (Hlayout : rgb = headerBlock width height nonce tg usePw stored hh
                          ++ rest ++ enc) by reflexivity.
  pose proof (length_headerBlock width height nonce tg usePw stored hh Hnonce Htg Hstored)
    as Hblock.
  (* the key that [decrypt] resolves from the password of [encrypt] *)
  assert (Hresolve :
    (if usePw then
       match passwordOf (defaultArg pw) with
       | None => inl (mkError (CryptoError "no password"))
       | Some s => match getHash s KEY_LENGTH with
                   | None => inl (mkError (CryptoError "hash"))
                   | Some keyBytes => inr keyBytes
                   end
       end
     else inr stored) = inr kb).
  { subst stored. destruct Hsel as [(s & Hs & Hhash & ->)|(_ & -> & _)].
    - rewrite Hs, Hhash. reflexivity.
    - reflexivity. }
  (* a container of the same layout whose tag or ciphertext differs *)
  assert (Hreject : forall (tampered : Blob) (decoded' : pngData) (tg' enc' : list byte),
    getImageDataPNG tampered = Some decoded' ->
    png_data decoded' = headerBlock width height nonce tg' usePw stored hh
                        ++ rest ++ enc' ->
    length tg' = TAG_LENGTH -> enc' ++ tg' <> ct ->
    decrypt (ImgBlob tampered) pw = Ret (mkError (CryptoError "decrypt"))).
  { intros tampered decoded' tg' enc' Hload' Hdata' Htg' Hneq.
    unfold decrypt. rewrite Hload', Hdata'.
    rewrite verifyIdentifier_layout. cbn [negb].
    rewrite (decodeHeader_layout width height nonce tg' usePw stored hh (rest ++ enc')
               ltac:(lia) ltac:(lia) ltac:(lia) Hnonce Htg' Hstored).
    cbn [usePassword layoutHeader keyBytes w h].
    rewrite Hresolve, Himport.
    rewrite (decryptData_layout P width height nonce tg' usePw stored hh rest enc' key
               ltac:(lia) ltac:(lia) Hnonce Htg' Hstored Hrest).
    destruct (subtle_decrypt key nonce (enc' ++ tg')) as [plaintext|] eqn:Hdec;
      [|reflexivity].
    exfalso. apply Hneq.
    apply (Hauth kb key (enc' ++ tg') Himport). rewrite Hdec. discriminate. }
  exists {| png_colorType := TRUE_COLOR_WITH_ALPHA; png_w := width;
            png_h := (height + hh)%Z; png_data := rgb |}.
  cbn [png_data].
  split; [exact Hload|]. split.
  - intros tampered decoded' i j Hload' Hflip Hj [Hi|Hi].
    + apply (Hreject tampered decoded' (flipBitAt tg (i - 32) j) enc Hload').
      * rewrite Hflip, Hlayout. apply flipBitAt_tag; assumption.
      * rewrite length_flipBitAt. exact Htg.
      * rewrite <- Hsplit. intros Heq. apply app_inv_head in Heq.
        revert Heq. apply flipBitAt_neq; [rewrite Htg; unfold TAG_LENGTH; lia | exact Hj].
    + apply (Hreject tampered decoded'
               tg (flipBitAt enc (i - (length (headerBlock width height nonce tg usePw stored hh)
                                       + length rest)) j) Hload').
      * rewrite Hflip, Hlayout. apply flipBitAt_ciphertext.
        rewrite Hblock, Hrest. lia.
      * exact Htg.
      * rewrite <- Hsplit. intros Heq. apply app_inv_tail in Heq.
        revert Heq. apply flipBitAt_neq; [|exact Hj].
        rewrite Hblock, Hrest, Henclen. rewrite Hclen in Hi. lia.
  - intros Hup s Hs Hwrong.
    rewrite (decrypt_layout_password P container _ width height nonce tg stored hh
               rest enc s Hload);
      [| cbn [png_data]; rewrite Hlayout, Hup; reflexivity
       | lia | lia | lia | assumption | assumption | assumption | assumption | assumption].
    destruct (getHash s KEY_LENGTH) as [kb'|] eqn:Hhash; [|eexists; reflexivity].
    destruct (importKey kb') as [key'|] eqn:Himport'; [|eexists; reflexivity].
    destruct (subtle_decrypt key' nonce (enc ++ tg)) as [plaintext|] eqn:Hdec;
      [|eexists; reflexivity].
    exfalso. apply Hwrong. f_equal.
    apply (Hauth kb' key' (enc ++ tg) Himport'). rewrite Hdec. discriminate.
Qed.

Lemma loggedPlatform_pngInverse (log : list (list byte * list byte * list byte * list byte)) :
  pngInverse (loggedPlatform log).
Proof.
  intros width height data b Hb. cbn in Hb. injection Hb as <-. reflexivity.
Qed.

Lemma loggedPlatform_authentic (k n p c : list byte) :
  authentic (loggedPlatform [(k, n, p, c)]) k n c.
Proof.
  intros keyBytes' key' data' Himport Hdec.
  cbn [importKey loggedPlatform] in Himport. unfold sampleImportKey in Himport.
  destruct (decide (length keyBytes' = KEY_LENGTH)); [|discriminate].
  injection Himport as <-.
  cbn [subtle_decrypt loggedPlatform] in Hdec. unfold loggedDecrypt in Hdec.
  cbn [List.find] in Hdec.
  destruct (bool_decide (k = keyBytes' /\ n = n /\ c = data')) eqn:Hfind.
  - apply bool_decide_eq_true in Hfind. destruct Hfind as (-> & _ & ->). split; reflexivity.
  - contradiction.
Qed.

Lemma tampering_and_wrong_password_rejected_witness :
  exists container decoded,
    @encrypt (loggedPlatform sampleLog) (ImgElement 2 1 sampleImage) (Str "pw") sampleRng
    = Ret (mkOutput container)
    /\ @getImageDataPNG (loggedPlatform sampleLog) container = Some decoded
    /\ @decrypt (loggedPlatform sampleLog)
         (ImgBlob ((2%Z, 17%Z, toRGBA (flipBitAt (png_data decoded) 32 0))
                   : @Blob (loggedPlatform sampleLog))) (Str "pw")
       = Ret (mkError (CryptoError "decrypt"))
    /\ @decrypt (loggedPlatform sampleLog)
         (ImgBlob ((2%Z, 17%Z, toRGBA (flipBitAt (png_data decoded) 100 7))
                   : @Blob (loggedPlatform sampleLog))) (Str "pw")
       = Ret (mkError (CryptoError "decrypt"))
    /\ exists message,
         @decrypt (loggedPlatform sampleLog) (ImgBlob container) (Str "wrong")
         = Ret (mkError (CryptoError message)).
Proof.
  pose (g1 := snd (draw sampleRng IV_LENGTH)).
  pose (container :=
          (2%Z, 17%Z,
           toRGBA (containerRGB 2 1 sampleNonce sampleCiphertext true sampleKeyBytes g1))
          : @Blob (loggedPlatform sampleLog)).
  destruct (tampering_and_wrong_password_rejected (loggedPlatform sampleLog)
              2 1 sampleImage (Str "pw") sampleRng g1 true
              sampleKeyBytes sampleNonce sampleCiphertext container)
    as (decoded & Hload & Htamper & Hwrong).
  - exact sampleImage_wf.
  - reflexivity.
  - reflexivity.
  - vm_compute. reflexivity.
  - apply loggedPlatform_pngInverse.
  - apply loggedPlatform_authentic.
  - exists container, decoded.
    split; [vm_compute; reflexivity|].
    split; [exact Hload|].
    vm_compute in Hload. injection Hload as <-.
    split; [|split].
    + eapply (Htamper _ _ 32 0); [vm_compute; reflexivity | vm_compute; reflexivity | lia |].
      left. lia.
    + eapply (Htamper _ _ 100 7); [vm_compute; reflexivity | vm_compute; reflexivity | lia |].
      right. vm_compute. lia.
    + apply (Hwrong eq_refl "wrong"%string); [discriminate|].
      vm_compute. discriminate.
Defined.

(** * Further properties of the code *)

(** ** util.js: buffers of any length *)

(** X1. For a buffer of any length [toRGB] allocates the truncation of
    three quarters of the length and [toRGBA] the truncation of four
    thirds of it. *)
Theorem pixel_packing_lengths (array : list byte) :
  length (toRGB array) = length array * 3 / 4
  /\ length (toRGBA array) = length array * 4 / 3.
Proof.
  split; [apply length_toRGB | apply length_toRGBA].
Qed.

Lemma insertAlpha_opaque (p : nat) :
  forall rgb : list byte, length rgb = 3 * p -> opaque (insertAlpha rgb).
Proof.
  induction p as [|p IH]; intros rgb Hlen i Hi Hmod.
  - destruct rgb; [simpl in Hi; lia | discriminate].
  - destruct rgb as [|r [|g [|b rest]]]; simpl in Hlen; try lia.
    cbn [insertAlpha] in *.
    destruct i as [|[|[|[|j]]]]; try (cbn in Hmod; discriminate); [reflexivity|].
    change (S (S (S (S j)))) with (4 + j) in *.
    replace ((4 + j) mod 4) with (j mod 4) in Hmod
      by (rewrite <- (Nat.Div0.mod_add j 1 4); f_equal; lia).
    cbn [lookup list_lookup Nat.add].
    apply (IH rest); [lia | simpl in Hi; lia | exact Hmod].
Qed.

(** X2. On a buffer of whole RGB pixels [toRGBA] yields an opaque RGBA
    buffer of four thirds of the length, from which [toRGB] gives the
    buffer back. *)
Theorem toRGB_toRGBA_inverse (rgb : list byte) (p : nat) :
  length rgb = 3 * p ->
  toRGB (toRGBA rgb) = rgb
  /\ length (toRGBA rgb) = 4 * p
  /\ opaque (toRGBA rgb).
Proof.
  intros Hlen. split; [apply (toRGB_toRGBA rgb p Hlen)|].
  rewrite (toRGBA_whole rgb p Hlen).
  split; [apply (length_insertAlpha p rgb Hlen) | apply (insertAlpha_opaque p rgb Hlen)].
Qed.

Lemma toRGB_toRGBA_inverse_witness :
  toRGB (toRGBA [x01; x02; x03; x04; x05; x06]) = [x01; x02; x03; x04; x05; x06]
  /\ length (toRGBA [x01; x02; x03; x04; x05; x06]) = 8
  /\ opaque (toRGBA [x01; x02; x03; x04; x05; x06]).
Proof.
  apply (toRGB_toRGBA_inverse [x01; x02; x03; x04; x05; x06] 2). reflexivity.
Defined.

(** ** header.js: 32-bit numbers *)

Lemma clamp_byteZ (b : byte) : clamp (byteZ b) = b.
Proof.
  unfold clamp, byteZ. pose proof (Byte.to_N_bounded b).
  replace (Z.max 0 (Z.min 255 (Z.of_N (Byte.to_N b)))) with (Z.of_N (Byte.to_N b)) by lia.
  rewrite N2Z.id, Byte.of_to_N. reflexivity.
Qed.

Lemma ToInt32_mod (n : Z) : (ToInt32 n mod 2 ^ 32 = n mod 2 ^ 32)%Z.
Proof.
  unfold ToInt32. change (2 ^ 32)%Z with 4294967296%Z. change (2 ^ 31)%Z with 2147483648%Z.
  Z.div_mod_to_equations. lia.
Qed.

Lemma ToInt32_mod_id (n : Z) : ToInt32 (n mod 2 ^ 32) = ToInt32 n.
Proof.
  unfold ToInt32. change (2 ^ 32)%Z with 4294967296%Z. change (2 ^ 31)%Z with 2147483648%Z.
  Z.div_mod_to_equations. lia.
Qed.

Lemma encodeUint_mod (n : Z) : encodeUint (n mod 2 ^ 32) = encodeUint n.
Proof.
  unfold encodeUint, js_shr, js_and. rewrite ToInt32_mod_id. reflexivity.
Qed.

(** X3. [encodeUint] keeps the low 32 bits of any integer, negative ones
    in two's complement: decoding what it wrote gives the number modulo
    2^32, hence the number itself when it is an unsigned 32-bit value. *)
Theorem decodeUint_encodeUint_wraps (n : Z) :
  decodeUint (encodeUint n) = Some (n mod 2 ^ 32)%Z
  /\ ((0 <= n < 2 ^ 32)%Z -> decodeUint (encodeUint n) = Some n)
  /\ encodeUint (n + 2 ^ 32) = encodeUint n.
Proof.
  assert (Hmod : decodeUint (encodeUint n) = Some (n mod 2 ^ 32)%Z).
  { rewrite <- encodeUint_mod. apply decodeUint_encodeUint.
    apply Z.mod_pos_bound. lia. }
  split; [exact Hmod|]. split.
  - intros Hn. rewrite Hmod, Z.mod_small by lia. reflexivity.
  - rewrite <- (encodeUint_mod (n + 2 ^ 32)), <- (encodeUint_mod n).
    f_equal. rewrite <- (Z.mul_1_l (2 ^ 32)) at 1. apply Z.mod_add. lia.
Qed.

Lemma decodeUint_encodeUint_wraps_witness :
  decodeUint (encodeUint 4096) = Some 4096%Z.
Proof.
  apply (proj1 (proj2 (decodeUint_encodeUint_wraps 4096))). lia.
Defined.

(** X4. [decodeUint] yields NaN exactly when the array has fewer than four
    bytes; on four bytes it yields the unsigned 32-bit number that
    [encodeUint] writes as these bytes. *)
Theorem decodeUint_bytes (array : list byte) :
  (decodeUint array = None <-> length array < 4)
  /\ (length array = 4 ->
      exists n, decodeUint array = Some n /\ (0 <= n < 2 ^ 32)%Z
                /\ encodeUint n = array).
Proof.
  split.
  - unfold decodeUint.
    destruct array as [|a0 [|a1 [|a2 [|a3 rest]]]]; cbn [lookup list_lookup length];
      split; intros Hx; try reflexivity; try discriminate; try lia.
  - intros Hlen.
    destruct array as [|a0 [|a1 [|a2 [|a3 [|? ?]]]]]; try discriminate.
    pose proof (Byte.to_N_bounded a0). pose proof (Byte.to_N_bounded a1).
    pose proof (Byte.to_N_bounded a2). pose proof (Byte.to_N_bounded a3).
    eexists. split; [reflexivity|].
    assert (Hrange : (0 <= byteZ a0 * 16777216 + byteZ a1 * 65536
                           + byteZ a2 * 256 + byteZ a3 < 2 ^ 32)%Z)
      by (unfold byteZ; change (2 ^ 32)%Z with 4294967296%Z; lia).
    split; [exact Hrange|].
    unfold encodeUint.
    rewrite !js_and_255, !js_shr_div by lia.
    set (N := (byteZ a0 * 16777216 + byteZ a1 * 65536 + byteZ a2 * 256 + byteZ a3)%Z) in *.
    assert (E0 : ((ToInt32 N / 2 ^ 24) mod 256 = byteZ a0)%Z).
    { destruct (ToInt32_uint32 N Hrange) as [-> | ->]; subst N; unfold byteZ in *;
        change (2 ^ 32)%Z with 4294967296%Z in *; change (2 ^ 24)%Z with 16777216%Z;
        Z.div_mod_to_equations; lia. }
    assert (E1 : ((ToInt32 N / 2 ^ 16) mod 256 = byteZ a1)%Z).
    { destruct (ToInt32_uint32 N Hrange) as [-> | ->]; subst N; unfold byteZ in *;
        change (2 ^ 32)%Z with 4294967296%Z in *; change (2 ^ 16)%Z with 65536%Z;
        Z.div_mod_to_equations; lia. }
    assert (E2 : ((ToInt32 N / 2 ^ 8) mod 256 = byteZ a2)%Z).
    { destruct (ToInt32_uint32 N Hrange) as [-> | ->]; subst N; unfold byteZ in *;
        change (2 ^ 32)%Z with 4294967296%Z in *; change (2 ^ 8)%Z with 256%Z;
        Z.div_mod_to_equations; lia. }
    assert (E3 : (N mod 256 = byteZ a3)%Z).
    { subst N; unfold byteZ in *; Z.div_mod_to_equations; lia. }
    rewrite E0, E1, E2, E3, !clamp_byteZ. reflexivity.
Qed.

Lemma decodeUint_bytes_witness :
  exists n, decodeUint [x00; x00; x10; x00] = Some n /\ (0 <= n < 2 ^ 32)%Z
            /\ encodeUint n = [x00; x00; x10; x00].
Proof.
  apply (proj2 (decodeUint_bytes [x00; x00; x10; x00])). reflexivity.
Defined.

(** ** header.js: the codec *)

(** X5. The header round trip: for a width from 1 to 21845 (the header
    rows are then within the 65536 bytes that one call of
    [getRandomValues] fills), a height below 2^32 and fields of the sizes
    of the header table, the block of [encodeHeader] passes
    [verifyIdentifier], and [decodeHeader] reads back the width, the
    height, the nonce, the tag, the password flag, the header height that
    [encodeHeader] returned and zeros in the two reserved numbers; the key
    it reads is the argument without a password and the 32 decoy bytes
    with one. *)
Theorem header_round_trip (w h : Z) (iv tag : list byte) (usePassword : bool)
    (keyBytes : list byte) (g : rng) :
  (1 <= w <= 21845)%Z -> (0 <= h < 2 ^ 32)%Z ->
  length iv = IV_LENGTH -> length tag = TAG_LENGTH ->
  length keyBytes = KEY_LENGTH ->
  exists headerData headerHeight g',
    encodeHeader w h iv tag usePassword keyBytes g
    = Ret (headerData, headerHeight, g')
    /\ verifyIdentifier headerData = true
    /\ decodeHeader headerData
       = Some (Build_header SMZZL_IDENTIFIER x03 usePassword (Some w) (Some h) iv tag
                 (if usePassword then fst (draw g KEY_LENGTH) else keyBytes)
                 (Some headerHeight) (Some 0%Z) (Some 0%Z)).
Proof.
  intros Hw Hh Hiv Htag Hkey.
  pose proof (encodeHeader_layout w h iv tag usePassword keyBytes g
                ltac:(lia) Hiv Htag (fun _ => Hkey)) as Hrun.
  cbv zeta in Hrun.
  pose proof (headerHeightOf_range w ltac:(lia)) as Hrange.
  eexists _, _, _. split; [exact Hrun|].
  split; [apply verifyIdentifier_layout|].
  rewrite decodeHeader_layout; try assumption; try lia.
  - unfold layoutHeader. destruct usePassword; reflexivity.
  - destruct usePassword; [apply length_draw | exact Hkey].
Qed.

Lemma header_round_trip_witness :
  exists headerData headerHeight g',
    encodeHeader 10 7 (replicate 16 x01) (replicate 16 x02) false
                 (replicate 32 x03) sampleRng
    = Ret (headerData, headerHeight, g')
    /\ verifyIdentifier headerData = true
    /\ decodeHeader headerData
       = Some (Build_header SMZZL_IDENTIFIER x03 false (Some 10%Z) (Some 7%Z)
                 (replicate 16 x01) (replicate 16 x02) (replicate 32 x03)
                 (Some headerHeight) (Some 0%Z) (Some 0%Z)).
Proof.
  apply (header_round_trip 10 7 (replicate 16 x01) (replicate 16 x02) false
           (replicate 32 x03) sampleRng); (lia || reflexivity).
Defined.

(** X6. The camouflage: for a width from 1 to 21845, behind its first 92
    bytes the block of [encodeHeader] holds the bytes of one draw of
    [headerHeight * 3 * w] random bytes, at most 65535 of them, taken
    after the decoy key when there is one. *)
Theorem encodeHeader_camouflage (w h : Z) (iv tag : list byte) (usePassword : bool)
    (keyBytes : list byte) (g : rng) :
  (1 <= w <= 21845)%Z -> length iv = IV_LENGTH -> length tag = TAG_LENGTH ->
  length keyBytes = KEY_LENGTH ->
  exists headerData headerHeight g',
    encodeHeader w h iv tag usePassword keyBytes g
    = Ret (headerData, headerHeight, g')
    /\ Z.of_nat (length headerData) = (headerHeight * 3 * w)%Z
    /\ (Z.of_nat (length headerData) <= 65535)%Z
    /\ drop HEADER_MINIMUM_LENGTH headerData
       = drop HEADER_MINIMUM_LENGTH
           (fst (draw
                   (if usePassword then snd (draw g KEY_LENGTH) else g)
                   (length headerData))).
Proof.
  intros [Hw Hquota] Hiv Htag Hkey.
  pose proof (encodeHeader_layout w h iv tag usePassword keyBytes g
                (conj Hw Hquota) Hiv Htag (fun _ => Hkey)) as Hrun.
  cbv zeta in Hrun.
  pose proof (headerHeightOf_ceil w Hw) as Hceil.
  set (stored := if usePassword then draw g KEY_LENGTH else (keyBytes, g)) in *.
  assert (Hstored : length (fst stored) = KEY_LENGTH).
  { subst stored. destruct usePassword; [apply length_draw | exact Hkey]. }
  pose proof (length_headerBlock w h iv tag usePassword (fst stored) (headerHeightOf w)
                Hiv Htag Hstored) as Hblock.
  eexists _, _, _. split; [exact Hrun|].
  assert (Hlen : length (headerBlock w h iv tag usePassword (fst stored) (headerHeightOf w)
                         ++ drop HEADER_MINIMUM_LENGTH
                              (fst (draw (snd stored)
                                      (Z.to_nat (headerHeightOf w * (3 * w))))))
                 = Z.to_nat (headerHeightOf w * (3 * w))).
  { rewrite length_app, length_drop, length_draw, Hblock.
    unfold HEADER_MINIMUM_LENGTH. lia. }
  split; [rewrite Hlen; lia|].
  split; [rewrite Hlen; pose proof (headerRows_quota w (conj Hw Hquota)); lia|].
  rewrite Hlen, <- Hblock at 1. rewrite drop_app_length.
  subst stored. destruct usePassword; reflexivity.
Qed.

Lemma encodeHeader_camouflage_witness :
  exists headerData headerHeight g',
    encodeHeader 10 7 (replicate 16 x01) (replicate 16 x02) true
                 (replicate 32 x03) sampleRng
    = Ret (headerData, headerHeight, g')
    /\ Z.of_nat (length headerData) = (headerHeight * 3 * 10)%Z
    /\ (Z.of_nat (length headerData) <= 65535)%Z
    /\ drop HEADER_MINIMUM_LENGTH headerData
       = drop HEADER_MINIMUM_LENGTH
           (fst (draw (snd (draw sampleRng KEY_LENGTH))
                   (length headerData))).
Proof.
  apply (encodeHeader_camouflage 10 7 (replicate 16 x01) (replicate 16 x02) true
           (replicate 32 x03) sampleRng); (lia || reflexivity).
Defined.

(** X9. [decodeHeader] returns [null] exactly when the byte at offset 5
    is missing or is not 0x03: nothing else in the buffer makes it fail. *)
Theorem decodeHeader_null_iff (data : list byte) :
  decodeHeader data = None <-> data !! 5 <> Some x03.
Proof.
  split; [|apply decodeHeader_version].
  intros Hnull Hv. revert Hnull.
  unfold decodeHeader, readForward.
  cbn [length SMZZL_IDENTIFIER SMZZL_VERSION Nat.add].
  change 6 with (5 + 1). rewrite lookup_subarray_0, Hv.
  destruct (decide (Some x03 <> SMZZL_VERSION !! 0)) as [Hne|_]; [|discriminate].
  exfalso. apply Hne. reflexivity.
Qed.

(** X10. [decodeHeader] reads the first 92 bytes of the buffer only. *)
Theorem decodeHeader_reads_92 (data : list byte) :
  decodeHeader data = decodeHeader (take HEADER_MINIMUM_LENGTH data).
Proof.
  unfold decodeHeader, readForward, subarray.
  cbn [length SMZZL_IDENTIFIER SMZZL_VERSION FLAG_LENGTH NUMBER_LENGTH IV_LENGTH
       TAG_LENGTH KEY_LENGTH HEADER_MINIMUM_LENGTH Nat.add].
  rewrite !take_take. cbn [Nat.min]. reflexivity.
Qed.

(** X11. [verifyIdentifier] holds exactly of the buffers whose first five
    bytes are the identifier; a buffer of fewer than five bytes fails. *)
Theorem verifyIdentifier_iff (data : list byte) :
  (verifyIdentifier data = true <-> take 5 data = SMZZL_IDENTIFIER)
  /\ (length data < 5 -> verifyIdentifier data = false).
Proof.
  split; [apply verifyIdentifier_take|].
  intros Hshort. destruct (verifyIdentifier data) eqn:Hid; [|reflexivity].
  apply verifyIdentifier_take in Hid.
  apply (f_equal length) in Hid. rewrite length_take in Hid.
  change (length SMZZL_IDENTIFIER) with 5 in Hid. lia.
Qed.

Lemma verifyIdentifier_iff_witness : verifyIdentifier [x53; x4d; x5a; x5a] = false.
Proof.
  apply (proj2 (verifyIdentifier_iff [x53; x4d; x5a; x5a])). simpl. lia.
Defined.

Lemma js_and_0x80 (f : byte) :
  negb (js_and (byteZ f) 0x80 =? 0)%Z = Z.testbit (byteZ f) 7.
Proof. destruct f; reflexivity. Qed.

(** X12. Of the two flag bytes [decodeHeader] looks at bit 7 of the first
    one only: the other fifteen bits are neither checked nor kept. *)
Theorem decodeHeader_flag_bit (data : list byte) (hdr : header) :
  decodeHeader data = Some hdr ->
  usePassword hdr = match data !! 6 with
                    | Some f => Z.testbit (byteZ f) 7
                    | None => false
                    end.
Proof.
  unfold decodeHeader, readForward.
  cbn [length SMZZL_IDENTIFIER SMZZL_VERSION FLAG_LENGTH Nat.add].
  destruct (subarray data 5 6 !! 0) as [v|]; [|discriminate].
  destruct (decide _); [discriminate|].
  intros [= <-]. cbn [usePassword].
  change (subarray data 6 _) with (subarray data 6 (6 + 2)). rewrite lookup_subarray_0.
  destruct (data !! 6) as [f|]; [apply js_and_0x80 | reflexivity].
Qed.

Lemma decodeHeader_flag_bit_witness :
  exists hdr,
    decodeHeader [x53; x4d; x5a; x5a; x4c; x03; xff; xff] = Some hdr
    /\ usePassword hdr = true.
Proof.
  eexists. split; [reflexivity|].
  apply (decodeHeader_flag_bit [x53; x4d; x5a; x5a; x4c; x03; xff; xff]). reflexivity.
Defined.

(** ** header.js: fields of other sizes *)

Lemma setForward_cases (metaData data : list byte) (offset : nat) :
  (length metaData < offset + length data
   /\ setForward (metaData, offset) data = Throw RangeError)
  \/ (offset + length data <= length metaData
      /\ exists metaData',
           setForward (metaData, offset) data = Ret (metaData', offset + length data)
           /\ length metaData' = length metaData).
Proof.
  unfold setForward, set.
  destruct (decide (length metaData < offset + length data)) as [Hlt|Hge].
  - left. split; [exact Hlt | reflexivity].
  - right. split; [lia|]. eexists. split; [reflexivity|].
    rewrite !length_app, length_take, length_drop. lia.
Qed.

Lemma set_fits (target src : list byte) (offset : nat) :
  offset + length src <= length target ->
  exists target', set target src offset = Ret target'
                  /\ length target' = length target.
Proof.
  intros Hfit. unfold set.
  destruct (decide (length target < offset + length src)); [lia|].
  eexists. split; [reflexivity|].
  rewrite !length_app, length_take, length_drop. lia.
Qed.

Lemma encodeHeader_fields (w h : Z) (iv tag : list byte) (usePassword : bool)
    (keyBytes : list byte) (g : rng) :
  let stored := if usePassword then fst (draw g KEY_LENGTH) else keyBytes in
  (length iv + length tag + length stored <= 64 ->
   (w = 0%Z -> encodeHeader w h iv tag usePassword keyBytes g = Throw RangeError)
   /\ ((1 <= w <= 21845)%Z ->
       exists headerData g',
         encodeHeader w h iv tag usePassword keyBytes g
         = Ret (headerData, headerHeightOf w, g')
         /\ Z.of_nat (length headerData) = (headerHeightOf w * 3 * w)%Z))
  /\ (64 < length iv + length tag + length stored ->
      encodeHeader w h iv tag usePassword keyBytes g = Throw RangeError).
Proof.
  intros stored.
  assert (Hstored : (if usePassword then getRandomValues g KEY_LENGTH
                     else Ret (keyBytes, g))
                    = Ret (stored, if usePassword then snd (draw g KEY_LENGTH) else g))
    by (subst stored; destruct usePassword; reflexivity).
  assert (Hflag : forall flag : Z,
            length [clamp (js_shr flag 8); clamp (js_and flag 255)] = 2) by reflexivity.
  pose proof (eq_refl : length SMZZL_IDENTIFIER = 5) as Hid.
  pose proof (eq_refl : length SMZZL_VERSION = 1) as Hver.
  pose proof (length_replicate NUMBER_LENGTH x00) as Hzeros.
  pose proof (eq_refl : length (encodeUint w) = 4) as Hnw.
  pose proof (eq_refl : length (encodeUint h) = 4) as Hnh.
  pose proof (eq_refl : length (encodeUint (Z.of_nat 0)) = 4) as Hn0.
  pose proof (length_replicate HEADER_MINIMUM_LENGTH x00) as Hmeta.
  pose proof (eq_refl : NUMBER_LENGTH = 4) as Hc4.
  pose proof (eq_refl : HEADER_MINIMUM_LENGTH = 92) as Hc92.
  split.
  - intros Hfit. unfold encodeHeader.
    forward setForward_cases m1 E1 L1 F1; [exfalso; lia|].
    forward setForward_cases m2 E2 L2 F2; [exfalso; lia|].
    forward setForward_cases m3 E3 L3 F3; [exfalso; rewrite Hflag in F3; lia|].
    forward setForward_cases m4 E4 L4 F4; [exfalso; rewrite Hflag in F4; lia|].
    forward setForward_cases m5 E5 L5 F5; [exfalso; rewrite Hflag in F5; lia|].
    forward setForward_cases m6 E6 L6 F6; [exfalso; rewrite Hflag in F6; lia|].
    forward setForward_cases m7 E7 L7 F7; [exfalso; rewrite Hflag in F7; lia|].
    rewrite Hstored. cbn [bind].
    forward setForward_cases m8 E8 L8 F8; [exfalso; rewrite Hflag in F8; lia|].
    forward setForward_cases m9 E9 L9 F9; [exfalso; rewrite Hflag in F9; lia|].
    forward setForward_cases m10 E10 L10 F10; [exfalso; rewrite Hflag in F10; lia|].
    forward setForward_cases m11 E11 L11 F11; [exfalso; rewrite Hflag in F11; lia|].
    cbn [fst]. split.
    + intros ->. reflexivity.
    + intros Hw. destruct (decide (3 * w = 0)%Z) as [Hz|_]; [lia|].
      change (Qceiling (inject_Z (Z.of_nat (HEADER_MINIMUM_LENGTH + 0)) / inject_Z (3 * w)))
        with (headerHeightOf w).
      pose proof (headerHeightOf_ceil w ltac:(lia)) as Hceil.
      pose proof (headerRows_quota w Hw) as Hquota.
      destruct (set_fits m11 (encodeUint (headerHeightOf w)) HEADERHEIGHT_INDEX)
        as (m12 & E12 & L12);
        [change (length (encodeUint (headerHeightOf w))) with 4;
         unfold HEADERHEIGHT_INDEX; lia|].
      rewrite E12. cbn [bind].
      rewrite getRandomValues_fits by lia. cbn [bind draw].
      set (rand := map _ (seq 0 (Z.to_nat (headerHeightOf w * (3 * w))))).
      assert (Hr : length rand = Z.to_nat (headerHeightOf w * (3 * w)))
        by (subst rand; rewrite length_map, length_seq; reflexivity).
      destruct (set_fits rand m12 0) as (hd & Ehd & Lhd); [lia|].
      rewrite Ehd. cbn [bind].
      rewrite set_nil by lia.
      cbn [bind]. eexists _, _. split; [reflexivity|]. lia.
  - intros Hover. unfold encodeHeader.
    forward setForward_cases m1 E1 L1 F1; [reflexivity|].
    forward setForward_cases m2 E2 L2 F2; [reflexivity|].
    forward setForward_cases m3 E3 L3 F3; [reflexivity|].
    forward setForward_cases m4 E4 L4 F4; [reflexivity|].
    forward setForward_cases m5 E5 L5 F5; [reflexivity|].
    forward setForward_cases m6 E6 L6 F6; [reflexivity|].
    forward setForward_cases m7 E7 L7 F7; [reflexivity|].
    rewrite Hstored. cbn [bind].
    forward setForward_cases m8 E8 L8 F8; [reflexivity|].
    forward setForward_cases m9 E9 L9 F9; [reflexivity|].
    forward setForward_cases m10 E10 L10 F10; [reflexivity|].
    forward setForward_cases m11 E11 L11 F11; [reflexivity|].
    exfalso. rewrite Hflag in F11. lia.
Qed.

(** X7. For a width of at least 1, [encodeHeader] throws a [RangeError]
    when the nonce, the tag and the key it writes (the argument, or 32
    decoy bytes with a password) have more than 64 bytes together: a
    field never runs over the end of the 92-byte block.  When they have
    at most 64 bytes and the width is at most 21845, it returns a block
    of [ceil(92 / (3 * w)) * 3 * w] bytes, which is within the 65536 bytes
    of one call of [getRandomValues]. *)
Theorem encodeHeader_field_sizes (w h : Z) (iv tag : list byte) (usePassword : bool)
    (keyBytes : list byte) (g : rng) :
  (1 <= w)%Z ->
  let total := length iv + length tag
               + (if usePassword then KEY_LENGTH else length keyBytes) in
  (total <= 64 -> (w <= 21845)%Z ->
   exists headerData g',
     encodeHeader w h iv tag usePassword keyBytes g
     = Ret (headerData, headerHeightOf w, g')
     /\ Z.of_nat (length headerData) = (headerHeightOf w * 3 * w)%Z
     /\ (Z.of_nat (length headerData) <= 65535)%Z)
  /\ (64 < total ->
      encodeHeader w h iv tag usePassword keyBytes g = Throw RangeError).
Proof.
  intros Hw total.
  destruct (encodeHeader_fields w h iv tag usePassword keyBytes g) as [Hfit Hover].
  assert (Htotal : total = length iv + length tag
                           + length (if usePassword then fst (draw g KEY_LENGTH)
                                     else keyBytes)).
  { subst total. destruct usePassword; [|reflexivity].
    rewrite (length_draw g KEY_LENGTH). reflexivity. }
  rewrite Htotal. split.
  - intros Hle Hquota.
    destruct (proj2 (Hfit Hle) (conj Hw Hquota)) as (headerData & g' & Hrun & Hlen).
    exists headerData, g'. split; [exact Hrun|]. split; [exact Hlen|].
    pose proof (headerRows_quota w (conj Hw Hquota)). lia.
  - exact Hover.
Qed.

Lemma encodeHeader_field_sizes_witness :
  (exists headerData g',
     encodeHeader 10 7 (replicate 16 x01) (replicate 8 x02) false
                  (replicate 32 x03) sampleRng
     = Ret (headerData, headerHeightOf 10, g')
     /\ Z.of_nat (length headerData) = (headerHeightOf 10 * 3 * 10)%Z
     /\ (Z.of_nat (length headerData) <= 65535)%Z)
  /\ encodeHeader 10 7 (replicate 16 x01) (replicate 17 x02) false
                  (replicate 32 x03) sampleRng
     = Throw RangeError.
Proof.
  split.
  - apply (proj1 (encodeHeader_field_sizes 10 7 (replicate 16 x01) (replicate 8 x02)
                    false (replicate 32 x03) sampleRng ltac:(lia)));
      [vm_compute; lia | lia].
  - apply (proj2 (encodeHeader_field_sizes 10 7 (replicate 16 x01) (replicate 17 x02)
                    false (replicate 32 x03) sampleRng ltac:(lia))).
    vm_compute. lia.
Defined.

(** X8. For the width 0 [encodeHeader] throws a [RangeError] whatever the
    other arguments are: a field does not fit, or the camouflage block is
    empty and the header does not fit into it. *)
Theorem encodeHeader_zero_width (h : Z) (iv tag : list byte) (usePassword : bool)
    (keyBytes : list byte) (g : rng) :
  encodeHeader 0 h iv tag usePassword keyBytes g = Throw RangeError.
Proof.
  destruct (encodeHeader_fields 0 h iv tag usePassword keyBytes g) as [Hfit Hover].
  cbv zeta in Hfit, Hover.
  destruct (le_lt_dec (length iv + length tag
                       + length (if usePassword then fst (draw g KEY_LENGTH)
                                 else keyBytes)) 64) as [Hle|Hgt].
  - apply (proj1 (Hfit Hle)). reflexivity.
  - apply Hover. exact Hgt.
Qed.

(** ** crypto.js: the parts of the pipeline *)

(** X13. [splitCiphertext] cuts the engine's output into two pieces that
    give it back when put together; the tag has [tagLength] bytes when the
    output has at least that many, and never more. *)
Theorem splitCiphertext_partition (ciphertext : list byte) (tagLength : nat) :
  let '(tag, encrypted) := splitCiphertext ciphertext tagLength in
  encrypted ++ tag = ciphertext
  /\ length tag <= tagLength
  /\ (tagLength <= length ciphertext ->
      length tag = tagLength
      /\ length encrypted = length ciphertext - tagLength).
Proof.
  unfold splitCiphertext, subarrayZ.
  set (len := length ciphertext).
  set (r := relIndex len (Z.of_nat len - Z.of_nat tagLength)).
  assert (H0 : relIndex len 0 = 0) by reflexivity.
  assert (Hlen : relIndex len (Z.of_nat len) = len).
  { unfold relIndex. destruct (decide (Z.of_nat len < 0)%Z); lia. }
  rewrite H0, Hlen, drop_0. subst len. rewrite (take_ge ciphertext (length ciphertext)) by lia.
  assert (Hr : r <= length ciphertext
               /\ length ciphertext - r <= tagLength
               /\ (tagLength <= length ciphertext -> r = length ciphertext - tagLength)).
  { subst r. unfold relIndex.
    destruct (decide (Z.of_nat (length ciphertext) - Z.of_nat tagLength < 0)%Z); lia. }
  split; [apply take_drop|].
  rewrite length_drop, length_take. split; [lia|]. intros Hge. lia.
Qed.

Lemma splitCiphertext_partition_witness :
  let '(tag, encrypted) := splitCiphertext [x0a; x0b; x0c; x0d; x0e] 2 in
  encrypted ++ tag = [x0a; x0b; x0c; x0d; x0e]
  /\ length tag <= 2
  /\ (2 <= 5 -> length tag = 2 /\ length encrypted = 5 - 2).
Proof.
  exact (splitCiphertext_partition [x0a; x0b; x0c; x0d; x0e] 2).
Defined.

(** X14. [decrypt] of a [File] or [Blob] never throws: it returns a
    result that carries an output and no error, or no output and one
    error, which is never an [ImageTypeError]. *)
Theorem decrypt_blob_returns (P : Platform) (image : Blob) (pw : jsval) :
  exists r,
    decrypt (ImgBlob image) pw = Ret r
    /\ ((exists blob, output r = Some blob /\ error r = None)
        \/ (output r = None
            /\ exists e, error r = Some e /\ e <> ImageTypeError)).
Proof.
  unfold decrypt.
  destruct (getImageDataPNG image) as [decoded|]; [|returns_error].
  destruct (verifyIdentifier (png_data decoded)); cbn [negb]; [|returns_error].
  destruct (decodeHeader (png_data decoded)) as [hdr|]; [|returns_error].
  assert (Htail : forall keyBytes : list byte,
    exists r,
      match importKey keyBytes with
      | None => Ret (mkError (CryptoError "import key"))
      | Some key =>
          match decryptData hdr (png_data decoded) key with
          | Throw _ => Ret (mkError (CryptoError "decrypt"))
          | Ret plaintext =>
              match png_encode (w hdr) (h hdr) (toRGBA plaintext) with
              | None => Ret (mkError (EncodingError "png"))
              | Some blob => Ret (mkOutput blob)
              end
          end
      end = Ret r
      /\ ((exists blob, output r = Some blob /\ error r = None)
          \/ (output r = None /\ exists e, error r = Some e /\ e <> ImageTypeError))).
  { intros kb. destruct (importKey kb) as [key|]; [|returns_error].
    destruct (decryptData hdr (png_data decoded) key) as [plaintext|e]; [|returns_error].
    destruct (png_encode (w hdr) (h hdr) (toRGBA plaintext)) as [blob|];
      [returns_output | returns_error]. }
  destruct (usePassword hdr); [|apply Htail].
  destruct (passwordOf (defaultArg pw)) as [s|]; [|returns_error].
  destruct (getHash s KEY_LENGTH) as [kb|]; [apply Htail | returns_error].
Qed.

Lemma splitCiphertext_tag_length (P : Platform) (ciphertext : list byte)
    (tagLength : nat) :
  length (fst (splitCiphertext ciphertext tagLength)) <= tagLength.
Proof.
  unfold splitCiphertext, subarrayZ, relIndex. cbn [fst].
  rewrite length_drop, length_take.
  destruct (decide (Z.of_nat (length ciphertext) - Z.of_nat tagLength < 0)%Z);
    destruct (decide (Z.of_nat (length ciphertext) < 0)%Z); lia.
Qed.

Lemma encryptData_early (P : Platform) (plaintext : list byte) (pw : jsval) (g : rng)
    (r : result P) :
  encryptData plaintext pw g = Ret (inl r) ->
  r = mkError (CryptoError "hash") \/ r = mkError (CryptoError "encrypt").
Proof.
  rewrite encryptData_eq. cbv zeta. intros [= Hrun]. revert Hrun.
  destruct (passwordOf pw) as [s|].
  - destruct (getHash s KEY_LENGTH) as [kb|]; [|intros [= <-]; left; reflexivity].
    destruct (importKey kb) as [key|]; [|intros [= <-]; right; reflexivity].
    cbn [draw].
    destruct (subtle_encrypt key _ plaintext); [discriminate|].
    intros [= <-]. right. reflexivity.
  - cbn [draw].
    destruct (importKey _) as [key|]; [|intros [= <-]; right; reflexivity].
    destruct (subtle_encrypt key _ plaintext); [discriminate|].
    intros [= <-]. right. reflexivity.
Qed.

(** X15. [encrypt] of an image that loads with a width from 1 to 21845
    (the header rows are then within the 65536 bytes of one call of
    [getRandomValues]) never throws, whatever the digest, the engine and
    the PNG encoder do: it returns a container
    and no error, or no output and one of the errors
    [CryptoError('hash')], [CryptoError('encrypt')] and
    [EncodingError('png')]. *)
Theorem encrypt_loaded_image_returns (P : Platform) (image : imageArg P)
    (width height : Z) (imageData : list byte) (pw : jsval) (g : rng) :
  getImageDataCanvas image = Ret (width, height, imageData) ->
  (1 <= width <= 21845)%Z ->
  exists r,
    encrypt image pw g = Ret r
    /\ ((exists blob, output r = Some blob /\ error r = None)
        \/ (output r = None
            /\ (error r = Some (CryptoError "hash")
                \/ error r = Some (CryptoError "encrypt")
                \/ error r = Some (EncodingError "png")))).
Proof.
  intros Himage [Hw Hquota].
  rewrite (encrypt_loaded P image width height imageData pw g Himage).
  unfold encrypt, getImageDataCanvas. cbn [bind].
  destruct (encryptData (toRGB imageData) (defaultArg pw) g)
    as [[r|[[[[usePw kb] nonce] ct] g1]]|e] eqn:Hdata; cbn [bind].
  3: { rewrite encryptData_eq in Hdata. discriminate. }
  - exists r. split; [reflexivity|]. right.
    destruct (encryptData_early P _ _ _ _ Hdata) as [-> | ->];
      (split; [reflexivity|]); [left | right; left]; reflexivity.
  - destruct (encryptData_inv P _ _ _ _ _ _ _ _ Hdata) as (Hnonce & _ & Hsel).
    pose proof (splitCiphertext_tag_length P ct TAG_LENGTH) as Htag.
    destruct (splitCiphertext ct TAG_LENGTH) as [tg enc]. cbn [fst] in Htag.
    destruct (encodeHeader_fields width height nonce tg usePw kb g1) as [Hfit _].
    cbv zeta in Hfit.
    destruct (proj2 (Hfit ltac:(
                destruct Hsel as [(s & _ & _ & ->)|(_ & -> & Hkb)];
                [rewrite (length_draw g1 KEY_LENGTH) | rewrite Hkb];
                rewrite Hnonce; unfold IV_LENGTH, TAG_LENGTH, KEY_LENGTH in *; lia))
                (conj Hw Hquota))
      as (headerData & g2 & Hhdr & _).
    rewrite Hhdr. cbn [bind]. rewrite set_two.
    destruct (png_encode _ _ _) as [blob|]; eexists; (split; [reflexivity|]).
    + left. eexists. split; reflexivity.
    + right. split; [reflexivity|]. right. right. reflexivity.
Qed.

Lemma encrypt_loaded_image_returns_witness :
  exists r,
    @encrypt samplePlatform (ImgElement 2 1 sampleImage) (Str "pw") sampleRng = Ret r
    /\ ((exists blob, output r = Some blob /\ error r = None)
        \/ (output r = None
            /\ (error r = Some (CryptoError "hash")
                \/ error r = Some (CryptoError "encrypt")
                \/ error r = Some (EncodingError "png")))).
Proof.
  apply (encrypt_loaded_image_returns samplePlatform (ImgElement 2 1 sampleImage)
           2 1 sampleImage (Str "pw") sampleRng eq_refl).
  lia.
Defined.

(** ** crypto.js: the container *)

(** Where step (3) of [encrypt] takes the key and the nonce from. *)
Lemma encryptData_trace (P : Platform) (plaintext : list byte) (pw : jsval)
    (g g1 : rng) (usePw : bool) (kb nonce ct : list byte) :
  encryptData plaintext pw g = Ret (inr (usePw, kb, nonce, ct, g1)) ->
  match passwordOf pw with
  | Some s =>
      usePw = true /\ getHash s KEY_LENGTH = Some kb
      /\ nonce = fst (draw g IV_LENGTH)
      /\ g1 = snd (draw g IV_LENGTH)
  | None =>
      usePw = false /\ kb = fst (draw g KEY_LENGTH)
      /\ nonce = fst (draw (snd (draw g KEY_LENGTH)) IV_LENGTH)
      /\ g1 = snd (draw (snd (draw g KEY_LENGTH)) IV_LENGTH)
  end.
Proof.
  rewrite encryptData_eq. cbv zeta. intros [= Hrun]. revert Hrun.
  destruct (passwordOf pw) as [s|]; cbn [draw fst snd].
  - destruct (getHash s KEY_LENGTH) as [k|]; [|discriminate].
    destruct (importKey k) as [key|]; [|discriminate].
    destruct (subtle_encrypt key _ plaintext) as [c|]; [|discriminate].
    intros [= <- <- <- <- <-]. repeat split.
  - destruct (importKey _) as [key|]; [|discriminate].
    destruct (subtle_encrypt key _ plaintext) as [c|]; [|discriminate].
    intros [= <- <- <- <- <-]. repeat split.
Qed.

(** The container that [encrypt] returns when the collaborators keep
    their contracts, with the values of the run. *)
Lemma encrypt_container (P : Platform) (HC : Contracts P) (width height : Z)
    (imageData : list byte) (pw : jsval) (g : rng) :
  wfImage width height imageData ->
  (width <= 21845)%Z ->
  exists usePw kb nonce ct g1 container,
    encryptData (toRGB imageData) (defaultArg pw) g
    = Ret (inr (usePw, kb, nonce, ct, g1))
    /\ length kb = KEY_LENGTH
    /\ length nonce = IV_LENGTH
    /\ length ct = length (toRGB imageData) + TAG_LENGTH
    /\ encrypt (ImgElement width height imageData) pw g = Ret (mkOutput container)
    /\ png_decode container
       = Some {| meta_colorType := TRUE_COLOR_WITH_ALPHA;
                 meta_width := width;
                 meta_height := (height + headerHeightOf width)%Z;
                 meta_data := toRGBA (containerRGB width height nonce ct usePw kb g1) |}
    /\ getImageDataPNG container
       = Some {| png_colorType := TRUE_COLOR_WITH_ALPHA;
                 png_w := width;
                 png_h := (height + headerHeightOf width)%Z;
                 png_data := containerRGB width height nonce ct usePw kb g1 |}
    /\ length (containerRGB width height nonce ct usePw kb g1)
       = 3 * (Z.to_nat (headerHeightOf width * width) + Z.to_nat (width * height)).
Proof.
  intros Hwf Hquota. pose proof Hwf as (Hw & Hh & Hlen).
  pose proof (length_toRGB_image width height imageData Hwf) as Hrgb.
  pose proof (headerHeightOf_ceil width ltac:(lia)) as Hceil.
  pose proof (headerHeightOf_range width ltac:(lia)) as Hrange.
  destruct (encryptData_ok P HC (toRGB imageData) (defaultArg pw) g)
    as (kb & key & nonce & ct & g1 & Hdata & Hkb & Hnonce & Hct & _).
  set (usePw := match passwordOf (defaultArg pw) with Some _ => true | None => false end) in *.
  pose proof (encrypt_run P width height imageData pw g g1 usePw kb nonce ct
                ltac:(lia) Hdata Hnonce ltac:(lia) (fun _ => Hkb)) as Hrun.
  pose proof (length_containerRGB width height nonce ct usePw kb g1 _
                ltac:(lia) Hnonce Hct (fun _ => Hkb)) as Hclen.
  set (rgb := containerRGB width height nonce ct usePw kb g1) in *.
  assert (Hthree : length rgb
                   = 3 * (Z.to_nat (headerHeightOf width * width)
                          + Z.to_nat (width * height))).
  { rewrite Hclen, Hrgb. nia. }
  destruct (png_ok P HC width (height + headerHeightOf width) (toRGBA rgb))
    as (container & Hpng & Hdec); [lia | lia | |].
  { rewrite (toRGBA_whole rgb _ Hthree), (length_insertAlpha _ rgb Hthree). nia. }
  rewrite Hpng in Hrun.
  exists usePw, kb, nonce, ct, g1, container.
  repeat split; try assumption.
  apply (getImageDataPNG_rgba P container width _ rgb _ Hdec Hthree).
Qed.

(** X18. The carrier image: under the contracts, the container of an
    image of [w] by [h] pixels, [w] at most 21845, is a PNG of width [w]
    and height
    [h + ceil(92 / (3 * w))] in RGBA; the RGB bytes behind its header rows
    are the engine's ciphertext without the tag, as many as the plaintext
    has, and the tag field of the header holds the tag. *)
Theorem container_geometry (P : Platform) (HC : Contracts P) (image : imageArg P)
    (width height : Z) (imageData : list byte) (pw : jsval) (g : rng) :
  getImageDataCanvas image = Ret (width, height, imageData) ->
  wfImage width height imageData ->
  (width <= 21845)%Z ->
  exists container decoded usePw kb nonce ct g1,
    encrypt image pw g = Ret (mkOutput container)
    /\ encryptData (toRGB imageData) (defaultArg pw) g
       = Ret (inr (usePw, kb, nonce, ct, g1))
    /\ getImageDataPNG container = Some decoded
    /\ png_colorType decoded = TRUE_COLOR_WITH_ALPHA
    /\ png_w decoded = width
    /\ png_h decoded = (height + headerHeightOf width)%Z
    /\ Z.of_nat (length (png_data decoded))
       = (3 * width * (height + headerHeightOf width))%Z
    /\ drop (Z.to_nat (headerHeightOf width * 3 * width)) (png_data decoded)
       = take (length (toRGB imageData)) ct
    /\ length (drop (Z.to_nat (headerHeightOf width * 3 * width)) (png_data decoded))
       = length (toRGB imageData)
    /\ subarray (png_data decoded) 32 48 = drop (length (toRGB imageData)) ct.
Proof.
  intros Himage Hwf Hquota. pose proof Hwf as (Hw & Hh & Hlen).
  rewrite (encrypt_loaded P image width height imageData pw g Himage).
  pose proof (headerHeightOf_ceil width ltac:(lia)) as Hceil.
  destruct (encrypt_container P HC width height imageData pw g Hwf Hquota)
    as (usePw & kb & nonce & ct & g1 & container & Hdata & Hkb & Hnonce & Hct
        & Hrun & _ & Hload & Hthree).
  eexists container, _, usePw, kb, nonce, ct, g1.
  split; [exact Hrun|]. split; [exact Hdata|]. split; [exact Hload|].
  cbn [png_colorType png_w png_h png_data].
  split; [reflexivity|]. split; [reflexivity|]. split; [reflexivity|].
  split; [rewrite Hthree; nia|].
  assert (Hn : length ct - TAG_LENGTH = length (toRGB imageData)) by lia.
  assert (Hstored : length (fst (if usePw then draw g1 KEY_LENGTH else (kb, g1)))
                    = KEY_LENGTH)
    by (destruct usePw; [apply length_draw | exact Hkb]).
  assert (Htg : length (drop (length (toRGB imageData)) ct) = TAG_LENGTH)
    by (rewrite length_drop; lia).
  assert (Hdrop : drop (Z.to_nat (headerHeightOf width * 3 * width))
                    (containerRGB width height nonce ct usePw kb g1)
                  = take (length (toRGB imageData)) ct).
  { unfold containerRGB. rewrite Hn, app_assoc.
    apply drop_app_length'.
    rewrite length_app, length_drop, length_draw.
    rewrite length_headerBlock by assumption.
    unfold HEADER_MINIMUM_LENGTH. lia. }
  split; [exact Hdrop|].
  split; [rewrite Hdrop, length_take; lia|].
  unfold containerRGB. rewrite Hn.
  unfold headerBlock, headerPrefix.
  set (front := SMZZL_IDENTIFIER ++ SMZZL_VERSION ++ flagBytes usePw
                ++ encodeUint width ++ encodeUint height ++ nonce).
  assert (Hfront : length front = 32).
  { subst front. rewrite !length_app, Hnonce. destruct usePw; reflexivity. }
  replace (SMZZL_IDENTIFIER ++ SMZZL_VERSION ++ flagBytes usePw
           ++ encodeUint width ++ encodeUint height ++ nonce
           ++ drop (length (toRGB imageData)) ct)
    with (front ++ drop (length (toRGB imageData)) ct)
    by (subst front; rewrite <- !app_assoc; reflexivity).
  rewrite <- !app_assoc.
  apply subarray_app; [exact Hfront | rewrite Htg; reflexivity].
Qed.

Lemma container_geometry_witness :
  exists container decoded,
    @encrypt samplePlatform (ImgElement 2 1 sampleImage) (Str "pw") sampleRng
    = Ret (mkOutput container)
    /\ @getImageDataPNG samplePlatform container = Some decoded
    /\ png_w decoded = 2%Z
    /\ png_h decoded = 17%Z
    /\ length (png_data decoded) = 102.
Proof.
  destruct (container_geometry samplePlatform samplePlatform_contracts
              (ImgElement 2 1 sampleImage) 2 1 sampleImage (Str "pw") sampleRng
              eq_refl sampleImage_wf ltac:(lia))
    as (container & decoded & usePw & kb & nonce & ct & g1 & Hrun & _ & Hload & _
        & Hwidth & Hheight & Hlen & _).
  exists container, decoded.
  split; [exact Hrun|]. split; [exact Hload|]. split; [exact Hwidth|].
  split; [exact Hheight|].
  change (headerHeightOf 2) with 16%Z in Hlen. lia.
Defined.

Lemma containerRGB_layout (width height : Z) (nonce ct : list byte) (usePw : bool)
    (kb : list byte) (g1 : rng) :
  containerRGB width height nonce ct usePw kb g1
  = headerBlock width height nonce (drop (length ct - TAG_LENGTH) ct) usePw
      (fst (if usePw then draw g1 KEY_LENGTH else (kb, g1)))
      (headerHeightOf width)
    ++ (drop HEADER_MINIMUM_LENGTH
          (fst (draw
                  (snd (if usePw then draw g1 KEY_LENGTH else (kb, g1)))
                  (Z.to_nat (headerHeightOf width * (3 * width)))))
        ++ take (length ct - TAG_LENGTH) ct).
Proof. reflexivity. Qed.

(** X16. A missing password: under the contracts, [decrypt] of a
    container that was encrypted with a non-empty password (of an image
    at most 21845 pixels wide) returns
    [CryptoError('no password')] when its password argument is missing,
    empty or not a string, and the engine is not called. *)
Theorem decrypt_requires_password (P : Platform) (HC : Contracts P)
    (image : imageArg P) (width height : Z) (imageData : list byte)
    (s : string) (pw' : jsval) (g : rng) :
  getImageDataCanvas image = Ret (width, height, imageData) ->
  wfImage width height imageData ->
  (width <= 21845)%Z ->
  s <> ""%string ->
  passwordOf pw' = None ->
  exists container,
    encrypt image (Str s) g = Ret (mkOutput container)
    /\ decrypt (ImgBlob container) pw' = Ret (mkError (CryptoError "no password")).
Proof.
  intros Himage Hwf Hquota Hs Hpw'. pose proof Hwf as (Hw & Hh & Hlen).
  rewrite (encrypt_loaded P image width height imageData _ g Himage).
  pose proof (headerHeightOf_range width ltac:(lia)) as Hrange.
  destruct (encrypt_container P HC width height imageData (Str s) g Hwf Hquota)
    as (usePw & kb & nonce & ct & g1 & container & Hdata & Hkb & Hnonce & Hct
        & Hrun & _ & Hload & _).
  pose proof (encryptData_trace P _ _ _ _ _ _ _ _ Hdata) as Htrace.
  cbn [defaultArg] in Htrace. unfold passwordOf in Htrace.
  destruct (decide (s = ""%string)) as [Hempty|_]; [contradiction|].
  destruct Htrace as (-> & _).
  exists container. split; [exact Hrun|].
  assert (Hnone : passwordOf (defaultArg pw') = None)
    by (destruct pw'; [reflexivity | exact Hpw' ..]).
  unfold decrypt. rewrite Hload. cbn [png_data].
  rewrite containerRGB_layout, verifyIdentifier_layout. cbn [negb].
  rewrite decodeHeader_layout;
    [| lia | lia | lia | exact Hnonce | rewrite length_drop; lia
     | apply length_draw].
  cbn [usePassword layoutHeader]. rewrite Hnone. reflexivity.
Qed.

Lemma decrypt_requires_password_witness :
  exists container,
    @encrypt samplePlatform (ImgElement 2 1 sampleImage) (Str "pw") sampleRng
    = Ret (mkOutput container)
    /\ @decrypt samplePlatform (ImgBlob container) Undefined
       = Ret (mkError (CryptoError "no password")).
Proof.
  apply (decrypt_requires_password samplePlatform samplePlatform_contracts
           (ImgElement 2 1 sampleImage) 2 1 sampleImage "pw" Undefined sampleRng
           eq_refl sampleImage_wf); [lia | discriminate | reflexivity].
Defined.

(** X17. The public mode: under the contracts, a container that was
    encrypted without a password (of an image at most 21845 pixels wide)
    is decrypted by [decrypt] whatever its password argument is. *)
Theorem decrypt_public_container (P : Platform) (HC : Contracts P)
    (image : imageArg P) (width height : Z) (imageData : list byte)
    (pw : jsval) (g : rng) :
  getImageDataCanvas image = Ret (width, height, imageData) ->
  wfImage width height imageData ->
  (width <= 21845)%Z ->
  passwordOf pw = None ->
  exists container,
    encrypt image pw g = Ret (mkOutput container)
    /\ forall pw', exists plain,
         decrypt (ImgBlob container) pw' = Ret (mkOutput plain)
         /\ png_decode plain
            = Some {| meta_colorType := TRUE_COLOR_WITH_ALPHA;
                      meta_width := width;
                      meta_height := height;
                      meta_data := toRGBA (toRGB imageData) |}.
Proof.
  intros Himage Hwf Hquota Hpw.
  rewrite (encrypt_loaded P image width height imageData _ g Himage).
  assert (Hnone : passwordOf (defaultArg pw) = None)
    by (destruct pw; [reflexivity | exact Hpw ..]).
  destruct (pipeline_round_trip P HC width height imageData pw (Str "") g Hwf Hquota
              (or_introl Hnone))
    as (container & _ & _ & _ & Henc & _).
  exists container. split; [exact Henc|].
  intros pw'.
  destruct (pipeline_round_trip P HC width height imageData pw pw' g Hwf Hquota
              (or_introl Hnone))
    as (container' & _ & _ & plain & Henc' & _ & _ & _ & _ & _ & Hdec & Hplain).
  rewrite Henc in Henc'. injection Henc' as <-.
  exists plain. split; assumption.
Qed.

Lemma decrypt_public_container_witness :
  exists container,
    @encrypt samplePlatform (ImgElement 2 1 sampleImage) (Str "") sampleRng
    = Ret (mkOutput container)
    /\ exists plain,
         @decrypt samplePlatform (ImgBlob container) (Str "anything")
         = Ret (mkOutput plain).
Proof.
  destruct (decrypt_public_container samplePlatform samplePlatform_contracts
              (ImgElement 2 1 sampleImage) 2 1 sampleImage (Str "") sampleRng
              eq_refl sampleImage_wf ltac:(lia) eq_refl)
    as (container & Henc & Hany).
  exists container. split; [exact Henc|].
  destruct (Hany (Str "anything")) as (plain & Hdec & _).
  exists plain. exact Hdec.
Defined.

(** X21. With a non-empty password the key field of the container does
    not depend on the password: under the contracts, the nonce field
    holds the first 16 bytes of the random source and the key field the
    next 32, whatever the password and the image (at most 21845 pixels
    wide) are. *)
Theorem password_container_fields (P : Platform) (HC : Contracts P)
    (image : imageArg P) (width height : Z) (imageData : list byte)
    (s : string) (g : rng) :
  getImageDataCanvas image = Ret (width, height, imageData) ->
  wfImage width height imageData ->
  (width <= 21845)%Z ->
  s <> ""%string ->
  exists container decoded,
    encrypt image (Str s) g = Ret (mkOutput container)
    /\ getImageDataPNG container = Some decoded
    /\ subarray (png_data decoded) 16 32 = fst (draw g IV_LENGTH)
    /\ subarray (png_data decoded) 48 80
       = fst (draw (snd (draw g IV_LENGTH)) KEY_LENGTH).
Proof.
  intros Himage Hwf Hquota Hs. pose proof Hwf as (Hw & Hh & Hlen).
  rewrite (encrypt_loaded P image width height imageData _ g Himage).
  destruct (encrypt_container P HC width height imageData (Str s) g Hwf Hquota)
    as (usePw & kb & nonce & ct & g1 & container & Hdata & Hkb & Hnonce & Hct
        & Hrun & _ & Hload & _).
  pose proof (encryptData_trace P _ _ _ _ _ _ _ _ Hdata) as Htrace.
  cbn [defaultArg] in Htrace. unfold passwordOf in Htrace.
  destruct (decide (s = ""%string)) as [Hempty|_]; [contradiction|].
  destruct Htrace as (-> & _ & Hiv & ->).
  eexists container, _. split; [exact Hrun|]. split; [exact Hload|].
  cbn [png_data]. rewrite containerRGB_layout. cbn [fst snd].
  assert (Htg : length (drop (length ct - TAG_LENGTH) ct) = TAG_LENGTH)
    by (rewrite length_drop; lia).
  split.
  - rewrite <- Hiv. unfold headerBlock, headerPrefix. rewrite <- !app_assoc.
    rewrite (app_assoc SMZZL_IDENTIFIER), (app_assoc (SMZZL_IDENTIFIER ++ _)),
      (app_assoc ((SMZZL_IDENTIFIER ++ _) ++ _)),
      (app_assoc (((SMZZL_IDENTIFIER ++ _) ++ _) ++ _)).
    apply subarray_app; [reflexivity | rewrite Hnonce; reflexivity].
  - apply subarray_headerBlock_key;
      [exact Hnonce | exact Htg | apply length_draw].
Qed.

Lemma password_container_fields_witness :
  exists container decoded,
    @encrypt samplePlatform (ImgElement 2 1 sampleImage) (Str "pw") sampleRng
    = Ret (mkOutput container)
    /\ @getImageDataPNG samplePlatform container = Some decoded
    /\ subarray (png_data decoded) 48 80
       = fst (draw (snd (draw sampleRng IV_LENGTH)) KEY_LENGTH).
Proof.
  destruct (password_container_fields samplePlatform samplePlatform_contracts
              (ImgElement 2 1 sampleImage) 2 1 sampleImage "pw" sampleRng
              eq_refl sampleImage_wf ltac:(lia) ltac:(discriminate))
    as (container & decoded & Henc & Hload & _ & Hkey).
  exists container, decoded. repeat split; assumption.
Defined.

(** ** crypto.js: containers that do not fit their header *)

Lemma decryptData_rows_exceed (P : Platform) (hdr : header) (rgb : list byte)
    (key : CryptoKey) (hh width : Z) :
  headerHeight hdr = Some hh -> w hdr = Some width ->
  (Z.of_nat (length rgb) < hh * 3 * width)%Z ->
  length (tag hdr) = TAG_LENGTH ->
  decryptData hdr rgb key = Throw RangeError.
Proof.
  intros Hhh Hw Hrows Htag. unfold decryptData. rewrite Hhh, Hw.
  cbn [js_mul js_sub js_add]. unfold newArrayOf.
  destruct (decide (Z.of_nat (length rgb) - hh * 3 * width + Z.of_nat TAG_LENGTH < 0)%Z)
    as [Hneg|Hpos]; [reflexivity|].
  cbn [bind]. unfold subarrayFrom, relIndex.
  destruct (decide (hh * 3 * width < 0)%Z) as [Hn|_]; [lia|].
  rewrite drop_ge by lia.
  rewrite set_nil by lia. cbn [bind length].
  unfold set. rewrite length_replicate, Htag.
  destruct (decide _) as [_|Hfit]; [reflexivity|].
  exfalso. apply Hfit. unfold TAG_LENGTH in *. lia.
Qed.

(** X19. A header that claims more rows than the image has: when
    [headerHeight * 3 * w] of the decoded header exceeds the number of RGB
    bytes, the [try] block of [decrypt] throws a [RangeError] before the
    engine is called, and [decrypt] returns an error and no output. *)
Theorem decrypt_rows_exceed (P : Platform) (image : Blob) (decoded : pngData)
    (hdr : header) (hh width : Z) (pw : jsval) :
  getImageDataPNG image = Some decoded ->
  decodeHeader (png_data decoded) = Some hdr ->
  headerHeight hdr = Some hh -> w hdr = Some width ->
  (Z.of_nat (length (png_data decoded)) < hh * 3 * width)%Z ->
  length (tag hdr) = TAG_LENGTH ->
  (forall key, decryptData hdr (png_data decoded) key = Throw RangeError)
  /\ exists e, decrypt (ImgBlob image) pw = Ret (mkError e).
Proof.
  intros Hload Hhdr Hhh Hw Hrows Htag.
  assert (Htry : forall key, decryptData hdr (png_data decoded) key = Throw RangeError)
    by (intros key; apply (decryptData_rows_exceed P hdr _ key hh width); assumption).
  split; [exact Htry|].
  unfold decrypt. rewrite Hload.
  destruct (verifyIdentifier (png_data decoded)); cbn [negb]; [|eexists; reflexivity].
  rewrite Hhdr.
  assert (Htail : forall kb : list byte,
    exists e,
      match importKey kb with
      | None => Ret (mkError (CryptoError "import key"))
      | Some key =>
          match decryptData hdr (png_data decoded) key with
          | Throw _ => Ret (mkError (CryptoError "decrypt"))
          | Ret plaintext =>
              match png_encode (w hdr) (h hdr) (toRGBA plaintext) with
              | None => Ret (mkError (EncodingError "png"))
              | Some blob => Ret (mkOutput blob)
              end
          end
      end = Ret (mkError e)).
  { intros kb. destruct (importKey kb) as [key|]; [|eexists; reflexivity].
    rewrite Htry. eexists. reflexivity. }
  destruct (usePassword hdr); [|apply Htail].
  destruct (passwordOf (defaultArg pw)) as [s|]; [|eexists; reflexivity].
  destruct (getHash s KEY_LENGTH) as [kb|]; [apply Htail | eexists; reflexivity].
Qed.

Lemma decrypt_rows_exceed_witness :
  let rgb := headerBlock 2 1 (replicate 16 x01) (replicate 16 x02) false
               (replicate 32 x03) 1000 ++ [x00] in
  let image : @Blob samplePlatform := (31%Z, 1%Z, toRGBA rgb) in
  exists e, @decrypt samplePlatform (ImgBlob image) (Str "") = Ret (mkError e).
Proof.
  intros rgb image.
  eapply (proj2 (decrypt_rows_exceed samplePlatform image _ _ 1000 2 (Str "") _ _ _ _ _ _)).
  Unshelve.
  - exact {| png_colorType := TRUE_COLOR_WITH_ALPHA; png_w := 31; png_h := 1;
             png_data := rgb |}.
  - exact (layoutHeader 2 1 (replicate 16 x01) (replicate 16 x02) false
             (replicate 32 x03) 1000).
  - vm_compute. reflexivity.
  - vm_compute. reflexivity.
  - reflexivity.
  - reflexivity.
  - vm_compute. reflexivity.
  - reflexivity.
Defined.

Lemma decodeUint_short (array : list byte) :
  length array < 4 -> decodeUint array = None.
Proof.
  intros Hlen. unfold decodeUint.
  destruct array as [|a0 [|a1 [|a2 [|a3 rest]]]]; try reflexivity.
  simpl in Hlen. lia.
Qed.

Lemma decodeHeader_headerHeight (data : list byte) (hdr : header) :
  decodeHeader data = Some hdr ->
  headerHeight hdr = decodeUint (subarray data 80 84).
Proof.
  unfold decodeHeader, readForward.
  destruct (subarray data _ _ !! 0) as [v|]; [|discriminate].
  destruct (decide _); [discriminate|].
  intros [= <-]. reflexivity.
Qed.

(** X20. A container cut short: when the PNG holds fewer than 84 RGB
    bytes, the header height cannot be read and [decrypt] returns an
    error and no output, whatever the engine would accept. *)
Theorem decrypt_short_container (P : Platform) (image : Blob) (decoded : pngData)
    (pw : jsval) :
  getImageDataPNG image = Some decoded ->
  length (png_data decoded) < 84 ->
  exists e, decrypt (ImgBlob image) pw = Ret (mkError e).
Proof.
  intros Hload Hshort. unfold decrypt. rewrite Hload.
  destruct (verifyIdentifier (png_data decoded)) eqn:Hid; cbn [negb];
    [|eexists; reflexivity].
  destruct (decodeHeader (png_data decoded)) as [hdr|] eqn:Hhdr; [|eexists; reflexivity].
  assert (Hlen : 0 < length (png_data decoded)).
  { apply verifyIdentifier_take in Hid. apply (f_equal length) in Hid.
    rewrite length_take in Hid. change (length SMZZL_IDENTIFIER) with 5 in Hid. lia. }
  assert (Htry : forall key, decryptData hdr (png_data decoded) key = Throw RangeError).
  { intros key. unfold decryptData.
    rewrite (decodeHeader_headerHeight _ _ Hhdr).
    rewrite decodeUint_short
      by (unfold subarray; rewrite length_drop, length_take; lia).
    cbn [js_mul js_sub js_add newArrayOf bind subarrayFrom].
    unfold set. cbn [length Nat.add].
    destruct (decide _) as [_|Hfit]; [reflexivity|]. lia. }
  assert (Htail : forall kb : list byte,
    exists e,
      match importKey kb with
      | None => Ret (mkError (CryptoError "import key"))
      | Some key =>
          match decryptData hdr (png_data decoded) key with
          | Throw _ => Ret (mkError (CryptoError "decrypt"))
          | Ret plaintext =>
              match png_encode (w hdr) (h hdr) (toRGBA plaintext) with
              | None => Ret (mkError (EncodingError "png"))
              | Some blob => Ret (mkOutput blob)
              end
          end
      end = Ret (mkError e)).
  { intros kb. destruct (importKey kb) as [key|]; [|eexists; reflexivity].
    rewrite Htry. eexists. reflexivity. }
  destruct (usePassword hdr); [|apply Htail].
  destruct (passwordOf (defaultArg pw)) as [s|]; [|eexists; reflexivity].
  destruct (getHash s KEY_LENGTH) as [kb|]; [apply Htail | eexists; reflexivity].
Qed.

Lemma decrypt_short_container_witness :
  let image : @Blob samplePlatform :=
    (2%Z, 1%Z, [x53; x4d; x5a; xff; x5a; x4c; x03; xff]) in
  exists e, @decrypt samplePlatform (ImgBlob image) (Str "") = Ret (mkError e).
Proof.
  intros image.
  apply (decrypt_short_container samplePlatform image
           {| png_colorType := TRUE_COLOR_WITH_ALPHA; png_w := 2; png_h := 1;
              png_data := [x53; x4d; x5a; x5a; x4c; x03] |} (Str "")).
  - reflexivity.
  - simpl. lia.
Defined.

(** ** util.js: the bytes of the output, for buffers of any length *)

Lemma Qceiling_fraction (n : nat) (d : positive) :
  n <= Z.to_nat (Qceiling (inject_Z (Z.of_nat n) / inject_Z (Z.pos d))) * Pos.to_nat d.
Proof.
  rewrite Qceiling_div.
  pose proof (Pos2Z.is_pos d).
  assert (Z.of_nat n <= - (- Z.of_nat n / Z.pos d) * Z.pos d)%Z
    by (Z.div_mod_to_equations; nia).
  assert (0 <= - (- Z.of_nat n / Z.pos d))%Z by (Z.div_mod_to_equations; nia).
  nia.
Qed.

Lemma div_mod_parts (k d q r : nat) :
  k = q * d + r -> r < d -> k / d = q /\ k mod d = r.
Proof.
  intros -> Hr. split.
  - symmetry. apply (Nat.div_unique _ d q r); lia.
  - symmetry. apply (Nat.mod_unique _ d q r); lia.
Qed.

Lemma toRGB_fold_lookup (array : list byte) (m : nat) (c : nat) :
  let result :=
    fold_left (fun acc i =>
      store (store (store acc (i * 3) (array !! (i * 4)))
                   (i * 3 + 1) (array !! (i * 4 + 1)))
            (i * 3 + 2) (array !! (i * 4 + 2)))
      (seq 0 c) (replicate m x00) in
  length result = m
  /\ forall k, k < m ->
       result !! k
       = if decide (k < c * 3)
         then Some (default x00 (array !! (k / 3 * 4 + k mod 3)))
         else Some x00.
Proof.
  induction c as [|c [IHlen IH]]; cbv zeta.
  - split; [apply length_replicate|].
    intros k Hk. cbn [seq fold_left]. rewrite lookup_replicate_2 by exact Hk.
    destruct (decide (k < 0 * 3)); [lia | reflexivity].
  - rewrite for_lt_S. cbv zeta in IHlen, IH.
    set (prev := fold_left _ (seq 0 c) (replicate m x00)) in *.
    split; [rewrite !length_store; exact IHlen|].
    intros k Hk. unfold store.
    rewrite !list_lookup_insert, !length_insert, IHlen, (IH k Hk).
    destruct (decide (c * 3 + 2 = k /\ c * 3 + 2 < m)) as [[<- _]|H2].
    { destruct (div_mod_parts (c * 3 + 2) 3 c 2 eq_refl ltac:(lia)) as [-> ->].
      destruct (decide (c * 3 + 2 < S c * 3)); [reflexivity | lia]. }
    destruct (decide (c * 3 + 1 = k /\ c * 3 + 1 < m)) as [[<- _]|H1].
    { destruct (div_mod_parts (c * 3 + 1) 3 c 1 eq_refl ltac:(lia)) as [-> ->].
      destruct (decide (c * 3 + 1 < S c * 3)); [reflexivity | lia]. }
    destruct (decide (c * 3 = k /\ c * 3 < m)) as [[<- _]|H0].
    { destruct (div_mod_parts (c * 3) 3 c 0 ltac:(lia) ltac:(lia)) as [-> ->].
      rewrite Nat.add_0_r.
      destruct (decide (c * 3 < S c * 3)); [reflexivity | lia]. }
    destruct (decide (k < c * 3)); destruct (decide (k < S c * 3)); try reflexivity; lia.
Qed.

Lemma toRGBA_fold_lookup (array : list byte) (m : nat) (c : nat) :
  let result :=
    fold_left (fun acc i =>
      store (store (store (store acc (i * 4) (array !! (i * 3)))
                          (i * 4 + 1) (array !! (i * 3 + 1)))
                   (i * 4 + 2) (array !! (i * 3 + 2)))
            (i * 4 + 3) (Some xff))
      (seq 0 c) (replicate m x00) in
  length result = m
  /\ forall k, k < m ->
       result !! k
       = if decide (k < c * 4)
         then if decide (k mod 4 = 3) then Some xff
              else Some (default x00 (array !! (k / 4 * 3 + k mod 4)))
         else Some x00.
Proof.
  induction c as [|c [IHlen IH]]; cbv zeta.
  - split; [apply length_replicate|].
    intros k Hk. cbn [seq fold_left]. rewrite lookup_replicate_2 by exact Hk.
    destruct (decide (k < 0 * 4)); [lia | reflexivity].
  - rewrite for_lt_S. cbv zeta in IHlen, IH.
    set (prev := fold_left _ (seq 0 c) (replicate m x00)) in *.
    split; [rewrite !length_store; exact IHlen|].
    intros k Hk. unfold store.
    rewrite !list_lookup_insert, !length_insert, IHlen, (IH k Hk).
    destruct (decide (c * 4 + 3 = k /\ c * 4 + 3 < m)) as [[<- _]|H3].
    { destruct (div_mod_parts (c * 4 + 3) 4 c 3 eq_refl ltac:(lia)) as [_ ->].
      destruct (decide (c * 4 + 3 < S c * 4)); [|lia].
      destruct (decide (3 = 3)); [reflexivity | contradiction]. }
    destruct (decide (c * 4 + 2 = k /\ c * 4 + 2 < m)) as [[<- _]|H2].
    { destruct (div_mod_parts (c * 4 + 2) 4 c 2 eq_refl ltac:(lia)) as [-> ->].
      destruct (decide (c * 4 + 2 < S c * 4)); [|lia].
      destruct (decide (2 = 3)); [discriminate | reflexivity]. }
    destruct (decide (c * 4 + 1 = k /\ c * 4 + 1 < m)) as [[<- _]|H1].
    { destruct (div_mod_parts (c * 4 + 1) 4 c 1 eq_refl ltac:(lia)) as [-> ->].
      destruct (decide (c * 4 + 1 < S c * 4)); [|lia].
      destruct (decide (1 = 3)); [discriminate | reflexivity]. }
    destruct (decide (c * 4 = k /\ c * 4 < m)) as [[<- _]|H0].
    { destruct (div_mod_parts (c * 4) 4 c 0 ltac:(lia) ltac:(lia)) as [-> ->].
      rewrite Nat.add_0_r.
      destruct (decide (c * 4 < S c * 4)); [|lia].
      destruct (decide (0 = 3)); [discriminate | reflexivity]. }
    destruct (decide (k < c * 4)); destruct (decide (k < S c * 4)); try reflexivity; lia.
Qed.

(** X22. The bytes of the output for a buffer of any length: byte [k] of
    [toRGB array] is byte [k / 3 * 4 + k mod 3] of [array]; byte [k] of
    [toRGBA array] is 255 when [k mod 4 = 3] and byte [k / 4 * 3 + k mod 4]
    of [array] otherwise.  With the two lengths this determines both
    functions on every input, partial pixels included. *)
Theorem pixel_packing_bytes (array : list byte) (k : nat) :
  (k < length (toRGB array) ->
   toRGB array !! k = array !! (k / 3 * 4 + k mod 3)
   /\ k / 3 * 4 + k mod 3 < length array)
  /\ (k < length (toRGBA array) ->
      toRGBA array !! k
      = if decide (k mod 4 = 3) then Some xff
        else array !! (k / 4 * 3 + k mod 4)).
Proof.
  split.
  - intros Hk. pose proof Hk as Hk'. rewrite length_toRGB in Hk'.
    pose proof (Nat.Div0.mul_div_le (length array * 3) 4) as Hfloor.
    pose proof (Nat.div_mod_eq k 3) as Hdm.
    pose proof (Nat.mod_upper_bound k 3 ltac:(lia)) as Hr.
    assert (Hin : k / 3 * 4 + k mod 3 < length array) by lia.
    split; [|exact Hin].
    unfold toRGB, for_lt, newArray in *.
    rewrite Qfloor_quarter in *.
    destruct (toRGB_fold_lookup array (length array * 3 / 4)
                (Z.to_nat (Qceiling (inject_Z (Z.of_nat (length array)) / 4))))
      as [_ Hget].
    rewrite (Hget k Hk').
    pose proof (Qceiling_fraction (length array) 4) as Hc.
    change (inject_Z (Z.pos 4)) with 4%Q in Hc. change (Pos.to_nat 4) with 4 in Hc.
    destruct (decide _) as [_|Hn]; [|lia].
    destruct (lookup_lt_is_Some_2 array _ Hin) as [b ->]. reflexivity.
  - intros Hk. pose proof Hk as Hk'. rewrite length_toRGBA in Hk'.
    pose proof (Nat.Div0.mul_div_le (length array * 4) 3) as Hfloor.
    pose proof (Nat.div_mod_eq k 4) as Hdm.
    pose proof (Nat.mod_upper_bound k 4 ltac:(lia)) as Hr.
    unfold toRGBA, for_lt, newArray in *.
    rewrite Qfloor_third in *.
    destruct (toRGBA_fold_lookup array (length array * 4 / 3)
                (Z.to_nat (Qceiling (inject_Z (Z.of_nat (length array)) / 3))))
      as [_ Hget].
    rewrite (Hget k Hk').
    pose proof (Qceiling_fraction (length array) 3) as Hc.
    change (inject_Z (Z.pos 3)) with 3%Q in Hc. change (Pos.to_nat 3) with 3 in Hc.
    destruct (decide (k < _)) as [_|Hn]; [|lia].
    destruct (decide (k mod 4 = 3)) as [_|Hm]; [reflexivity|].
    assert (Hin : k / 4 * 3 + k mod 4 < length array) by lia.
    destruct (lookup_lt_is_Some_2 array _ Hin) as [b ->]. reflexivity.
Qed.

Lemma pixel_packing_bytes_witness :
  toRGB [x01; x02; x03; x04; x05; x06] !! 3 = Some x05
  /\ toRGBA [x01; x02; x03; x04] !! 4 = Some x04.
Proof.
  split.
  - apply (proj1 (pixel_packing_bytes [x01; x02; x03; x04; x05; x06] 3)).
    vm_compute. lia.
  - apply (proj2 (pixel_packing_bytes [x01; x02; x03; x04] 4)).
    vm_compute. lia.
Defined.

(** ** crypto.js: what [decrypt] reads of a container *)

(** [decrypt] of a container of the layout: the result is a function of
    the header fields, of the bytes behind the header rows and of the
    password. *)
Lemma decrypt_layout (P : Platform) (image : Blob) (decoded : pngData)
    (width height : Z) (nonce tg : list byte) (usePw : bool) (stored : list byte)
    (hh : Z) (rest enc : list byte) (pw : jsval) :
  getImageDataPNG image = Some decoded ->
  png_data decoded = headerBlock width height nonce tg usePw stored hh ++ rest ++ enc ->
  (0 <= width < 2 ^ 32)%Z -> (0 <= height < 2 ^ 32)%Z -> (0 <= hh < 2 ^ 32)%Z ->
  length nonce = IV_LENGTH -> length tg = TAG_LENGTH -> length stored = KEY_LENGTH ->
  HEADER_MINIMUM_LENGTH + length rest = Z.to_nat (hh * (3 * width)) ->
  decrypt (ImgBlob image) pw
  = match (if usePw then
             match passwordOf (defaultArg pw) with
             | None => inl (mkError (CryptoError "no password"))
             | Some s =>
                 match getHash s KEY_LENGTH with
                 | None => inl (mkError (CryptoError "hash"))
                 | Some keyBytes => inr keyBytes
                 end
             end
           else inr stored) with
    | inl r => Ret r
    | inr keyBytes =>
        match importKey keyBytes with
        | None => Ret (mkError (CryptoError "import key"))
        | Some key =>
            match subtle_decrypt key nonce (enc ++ tg) with
            | None => Ret (mkError (CryptoError "decrypt"))
            | Some plaintext =>
                match png_encode (Some width) (Some height) (toRGBA plaintext) with
                | None => Ret (mkError (EncodingError "png"))
                | Some blob => Ret (mkOutput blob)
                end
            end
        end
    end.
Proof.
  intros Hload Hdata Hw Hh Hhh Hnonce Htg Hstored Hrest.
  unfold decrypt. rewrite Hload, Hdata.
  rewrite verifyIdentifier_layout. cbn [negb].
  rewrite (decodeHeader_layout width height nonce tg usePw stored hh (rest ++ enc)
             Hw Hh Hhh Hnonce Htg Hstored).
  cbn [usePassword layoutHeader keyBytes w h].
  destruct (if usePw then _ else _) as [r|kb]; [reflexivity|].
  destruct (importKey kb) as [key|]; [|reflexivity].
  rewrite (decryptData_layout P width height nonce tg usePw stored hh rest enc key
             ltac:(lia) ltac:(lia) Hnonce Htg Hstored Hrest).
  destruct (subtle_decrypt key nonce (enc ++ tg)); reflexivity.
Qed.

(** X23. The decoy is never read: two password-protected containers that
    differ in the key field of the header only get the same result from
    [decrypt], for every password argument. *)
Theorem decrypt_ignores_decoy (P : Platform) (image image' : Blob)
    (decoded decoded' : pngData) (width height : Z) (nonce tg : list byte)
    (stored stored' : list byte) (hh : Z) (rest enc : list byte) (pw : jsval) :
  getImageDataPNG image = Some decoded ->
  getImageDataPNG image' = Some decoded' ->
  png_data decoded = headerBlock width height nonce tg true stored hh ++ rest ++ enc ->
  png_data decoded' = headerBlock width height nonce tg true stored' hh ++ rest ++ enc ->
  (0 <= width < 2 ^ 32)%Z -> (0 <= height < 2 ^ 32)%Z -> (0 <= hh < 2 ^ 32)%Z ->
  length nonce = IV_LENGTH -> length tg = TAG_LENGTH ->
  length stored = KEY_LENGTH -> length stored' = KEY_LENGTH ->
  HEADER_MINIMUM_LENGTH + length rest = Z.to_nat (hh * (3 * width)) ->
  decrypt (ImgBlob image) pw = decrypt (ImgBlob image') pw.
Proof.
  intros Hload Hload' Hdata Hdata' Hw Hh Hhh Hnonce Htg Hstored Hstored' Hrest.
  rewrite (decrypt_layout P image decoded width height nonce tg true stored hh rest enc pw)
    by assumption.
  rewrite (decrypt_layout P image' decoded' width height nonce tg true stored' hh rest enc pw)
    by assumption.
  reflexivity.
Qed.

(** X24. The camouflage is never read: two containers that differ only
    in the bytes between the 92-byte header and the end of the header
    rows get the same result from [decrypt]. *)
Theorem decrypt_ignores_camouflage (P : Platform) (image image' : Blob)
    (decoded decoded' : pngData) (width height : Z) (nonce tg : list byte)
    (usePw : bool) (stored : list byte) (hh : Z) (rest rest' enc : list byte)
    (pw : jsval) :
  getImageDataPNG image = Some decoded ->
  getImageDataPNG image' = Some decoded' ->
  png_data decoded = headerBlock width height nonce tg usePw stored hh ++ rest ++ enc ->
  png_data decoded' = headerBlock width height nonce tg usePw stored hh ++ rest' ++ enc ->
  (0 <= width < 2 ^ 32)%Z -> (0 <= height < 2 ^ 32)%Z -> (0 <= hh < 2 ^ 32)%Z ->
  length nonce = IV_LENGTH -> length tg = TAG_LENGTH -> length stored = KEY_LENGTH ->
  HEADER_MINIMUM_LENGTH + length rest = Z.to_nat (hh * (3 * width)) ->
  length rest' = length rest ->
  decrypt (ImgBlob image) pw = decrypt (ImgBlob image') pw.
Proof.
  intros Hload Hload' Hdata Hdata' Hw Hh Hhh Hnonce Htg Hstored Hrest Hrest'.
  rewrite (decrypt_layout P image decoded width height nonce tg usePw stored hh rest enc pw)
    by assumption.
  rewrite (decrypt_layout P image' decoded' width height nonce tg usePw stored hh rest' enc pw)
    by (try assumption; rewrite Hrest'; exact Hrest).
  reflexivity.
Qed.

Lemma decrypt_ignores_decoy_witness :
  let block stored :=
    headerBlock 31 1 (replicate 16 x01) (replicate 16 x02) true stored 1 in
  let enc := [x0a; x0b; x0c] in
  let image : @Blob samplePlatform :=
    (31%Z, 2%Z, toRGBA (block (replicate 32 x03) ++ [x07] ++ enc)) in
  let image' : @Blob samplePlatform :=
    (31%Z, 2%Z, toRGBA (block (replicate 32 x04) ++ [x07] ++ enc)) in
  @decrypt samplePlatform (ImgBlob image) (Str "pw")
  = @decrypt samplePlatform (ImgBlob image') (Str "pw").
Proof.
  intros block enc image image'.
  eapply (decrypt_ignores_decoy samplePlatform image image' _ _ 31 1
            (replicate 16 x01) (replicate 16 x02) (replicate 32 x03) (replicate 32 x04)
            1 [x07] enc (Str "pw")).
  - vm_compute. reflexivity.
  - vm_compute. reflexivity.
  - reflexivity.
  - reflexivity.
  - lia.
  - lia.
  - lia.
  - reflexivity.
  - reflexivity.
  - reflexivity.
  - reflexivity.
  - reflexivity.
Defined.

Lemma decrypt_ignores_camouflage_witness :
  let block :=
    headerBlock 31 1 (replicate 16 x01) (replicate 16 x02) false (replicate 32 x03) 1 in
  let enc := [x0a; x0b; x0c] in
  let image : @Blob samplePlatform := (31%Z, 2%Z, toRGBA (block ++ [x07] ++ enc)) in
  let image' : @Blob samplePlatform := (31%Z, 2%Z, toRGBA (block ++ [x08] ++ enc)) in
  @decrypt samplePlatform (ImgBlob image) (Str "")
  = @decrypt samplePlatform (ImgBlob image') (Str "").
Proof.
  intros block enc image image'.
  eapply (decrypt_ignores_camouflage samplePlatform image image' _ _ 31 1
            (replicate 16 x01) (replicate 16 x02) false (replicate 32 x03)
            1 [x07] [x08] enc (Str "")).
  - vm_compute. reflexivity.
  - vm_compute. reflexivity.
  - reflexivity.
  - reflexivity.
  - lia.
  - lia.
  - lia.
  - reflexivity.
  - reflexivity.
  - reflexivity.
  - reflexivity.
  - reflexivity.
Defined.
